(** * manage-social-messages-api: the reliability core

    A shallow embedding of the retry engine, the circuit breaker, the Social
    Gateway handler, the outbox (reply and fetch pipelines) and the reply
    validation of the service, followed by the properties established about
    them.

    Conventions.
    - JavaScript numbers that hold counters, identifiers and millisecond
      instants are integers of [Z]; [Math.random()] is a rational of [Q].
    - [null] and [undefined] fields are [None].
    - A promise that rejects and a [throw] are the [Rejected] outcome; the
      exceptions that travel along the modelled paths are the constructors of
      [Error].
    - Calls that leave the process (the wrapped HTTP function, the clock, the
      random source) are oracles indexed by the attempt that consults them.
    - Tables are lists of rows in insertion order; the circuit table, which is
      keyed by [circuit_name] and upserted, is a [gmap]. *)

From Stdlib Require Import ZArith QArith Qround Lia.
From stdpp Require Import base list gmap strings.

Open Scope Z_scope.

(** ** Exceptions *)

(** The [Error] objects thrown on the modelled paths.  Message templates are
    kept as constructors carrying the interpolated values. *)
Inductive Error : Type :=
| HttpError (status : option Z)
    (* an axios error; [status = None] when no response was received *)
| NoFunctionProvided
    (* 'No function provided to execute' / '... to circuit breaker' *)
| CircuitOpenError (failures waitTime : Z)
    (* `Circuit breaker is OPEN. ${failures} consecutive failures. Retry in ${waitTime}s.` *)
| CircuitTrippedError (reopened : bool) (failures retryIn : Z) (original : Error)
    (* `${reason} Will retry in ${retryIn}s. Original error: ${original}` *)
| UniqueConstraintError (index : string)
    (* the store rejects an insert on a unique index *)
| TypeError (what : string)
    (* property access on undefined *)
| PlainError (message : string).
    (* new Error(message) *)

(** [error.response], present only on HTTP errors that got a response. *)
Definition response (e : Error) : option Z :=
  match e with
  | HttpError s => s
  | _ => None
  end.

(** The settlement of an awaited call. *)
Inductive Outcome (V : Type) : Type :=
| Resolved (v : V)
| Rejected (e : Error).
Arguments Resolved {V} v.
Arguments Rejected {V} e.

Definition isRejected {V} (o : Outcome V) : bool :=
  match o with Rejected _ => true | Resolved _ => false end.

(** [Math.ceil(x / d)] for an integer [x] and a positive integer [d]. *)
Definition ceilDiv (x d : Z) : Z := - ((- x) / d).

(** Coercion of a nullable instant to a number, as the relational and
    arithmetic operators of JavaScript do ([null] is [0]). *)
Definition toNumber (t : option Z) : Z := default 0 t.

(** [x || null] on a nullable number: [0] is falsy. *)
Definition orNull (t : option Z) : option Z :=
  match t with
  | Some 0 => None
  | _ => t
  end.

(** ** services/utils/circuit-breaker.js *)

Module CircuitBreaker.

Inductive CIRCUIT_STATE : Type := CLOSED | OPEN | HALF_OPEN.

Global Instance CIRCUIT_STATE_eq_dec : EqDecision CIRCUIT_STATE.
Proof. solve_decision. Defined.

Record LocalState : Type := mkLocalState {
  state : CIRCUIT_STATE;
  failures : Z;
  lastFailureTime : option Z;
  nextAttemptTime : option Z;
}.

(** The object handed to [saveStateFn]: the four fields of the local state
    and the instant of the write. *)
Record StateData : Type := mkStateData {
  snapshot : LocalState;
  timestamp : Z;
}.

(** What [loadStateFn] may hand back: every field can be missing. *)
Record ExternalState : Type := mkExternalState {
  ext_state : option CIRCUIT_STATE;
  ext_failures : option Z;
  ext_lastFailureTime : option Z;
  ext_nextAttemptTime : option Z;
}.

Inductive LoadResult : Type :=
| LoadThrows
| Loaded (row : option ExternalState).

Record Params : Type := mkParams {
  maxFailures : Z;
  resetTimeout : Z;
  stateKey : option string;
  loadStateFn : option (string -> LoadResult);
  saveStateFn : bool;      (* is a [saveStateFn] configured *)
  onStateChange : bool;    (* is an [onStateChange] callback configured *)
}.

(** Defaults of the destructured parameter object. *)
Definition defaultParams : Params :=
  {| maxFailures := 5; resetTimeout := 60000; stateKey := None;
     loadStateFn := None; saveStateFn := false; onStateChange := false |}.

(** The closure variables of one breaker. *)
Record Breaker : Type := mkBreaker {
  localState : LocalState;
  stateInitialized : bool;
}.

Definition initialLocalState : LocalState :=
  {| state := CLOSED; failures := 0; lastFailureTime := None; nextAttemptTime := None |}.

Definition create : Breaker :=
  {| localState := initialLocalState; stateInitialized := false |}.

(** Observable steps of a call, in program order.  The two deferred calls
    ([Promise.resolve().then(...)]) read [localState] when the microtask
    runs, which is before the awaited wrapped function settles and after
    the synchronous block that scheduled them: in a serial use of the
    breaker they see the local state as it is at the scheduling point, and
    the [timestamp] they take is the clock reading of the call. *)
Inductive Effect : Type :=
| Entered (s : CIRCUIT_STATE)
    (* localState.state = newState *)
| Notified (s : CIRCUIT_STATE) (failures : Z) (lastFailureTime nextAttemptTime : option Z)
    (* onStateChange(newState, { failures, lastFailureTime, nextAttemptTime }) *)
| Saved (key : string) (data : StateData).
    (* saveStateFn(stateKey, { state, failures, lastFailureTime, nextAttemptTime, timestamp }) *)

(** A string used as a condition: the empty string is falsy. *)
Definition truthyKey (k : option string) : option string :=
  match k with
  | Some s => if decide (s = "") then None else Some s
  | None => None
  end.

Section circuitBreaker.
Context {V : Type}.
Variable p : Params.

Definition initializeState (b : Breaker) : LocalState :=
  if stateInitialized b then localState b
  else
    match loadStateFn p, truthyKey (stateKey p) with
    | Some load, Some key =>
        match load key with
        | Loaded (Some ext) =>
            {| state := default CLOSED (ext_state ext);
               failures := default 0 (ext_failures ext);
               lastFailureTime := orNull (ext_lastFailureTime ext);
               nextAttemptTime := orNull (ext_nextAttemptTime ext) |}
        | Loaded None => localState b
        | LoadThrows => localState b
        end
    | _, _ => localState b
    end.

Definition persistState (now : Z) (ls : LocalState) : list Effect :=
  match saveStateFn p, truthyKey (stateKey p) with
  | true, Some key => [Saved key {| snapshot := ls; timestamp := now |}]
  | _, _ => []
  end.

Definition changeState (now : Z) (newState : CIRCUIT_STATE) (ls : LocalState)
  : LocalState * list Effect :=
  if decide (state ls = newState) then (ls, [])
  else
    let ls' := {| state := newState; failures := failures ls;
                  lastFailureTime := lastFailureTime ls;
                  nextAttemptTime := nextAttemptTime ls |} in
    (ls',
     Entered newState
       :: (if onStateChange p
           then [Notified newState (failures ls') (lastFailureTime ls') (nextAttemptTime ls')]
           else [])
       ++ persistState now ls').

(** [executeFunction]: the wrapped function is called when there is one;
    [fn] is what that call settles to. *)
Definition executeFunction (fn : option (Outcome V)) : Outcome V * nat :=
  match fn with
  | Some r => (r, 1%nat)
  | None => (Rejected NoFunctionProvided, 0%nat)
  end.

Record Exec : Type := mkExec {
  outcome : Outcome V;
  after : Breaker;
  invocations : nat;      (* calls of the wrapped function *)
  trace : list Effect;
}.

(** [execute(fnOverride, ...args)] at clock reading [now]. *)
Definition execute (now : Z) (fn : option (Outcome V)) (b : Breaker) : Exec :=
  let ls0 := initializeState b in
  let gate : (LocalState * list Effect) + Error :=
    match state ls0 with
    | OPEN =>
        if toNumber (nextAttemptTime ls0) <=? now
        then inl (changeState now HALF_OPEN ls0)
        else inr (CircuitOpenError (failures ls0)
                    (ceilDiv (toNumber (nextAttemptTime ls0) - now) 1000))
    | _ => inl (ls0, [])
    end in
  match gate with
  | inr e =>
      {| outcome := Rejected e; after := mkBreaker ls0 true;
         invocations := 0; trace := [] |}
  | inl (ls1, tr1) =>
      let '(r, n) := executeFunction fn in
      match r with
      | Resolved v =>
          let ls2 := {| state := state ls1; failures := 0;
                        lastFailureTime := None; nextAttemptTime := None |} in
          let '(ls3, tr3) := changeState now CLOSED ls2 in
          {| outcome := Resolved v; after := mkBreaker ls3 true;
             invocations := n; trace := tr1 ++ tr3 |}
      | Rejected e =>
          let ls2 := {| state := state ls1; failures := failures ls1 + 1;
                        lastFailureTime := Some now;
                        nextAttemptTime := nextAttemptTime ls1 |} in
          let shouldOpenCircuit :=
            bool_decide (state ls2 = HALF_OPEN) || (maxFailures p <=? failures ls2) in
          if shouldOpenCircuit then
            let ls3 := {| state := state ls2; failures := failures ls2;
                          lastFailureTime := lastFailureTime ls2;
                          nextAttemptTime := Some (now + resetTimeout p) |} in
            let '(ls4, tr4) := changeState now OPEN ls3 in
            let reopened := bool_decide (state ls4 = HALF_OPEN) in
            {| outcome := Rejected (CircuitTrippedError reopened (failures ls4)
                                      (ceilDiv (resetTimeout p) 1000) e);
               after := mkBreaker ls4 true;
               invocations := n; trace := tr1 ++ tr4 |}
          else
            {| outcome := Rejected e; after := mkBreaker ls2 true;
               invocations := n; trace := tr1 ++ persistState now ls2 |}
      end
  end.

(** [execute.getState()] *)
Definition getState (b : Breaker) : CIRCUIT_STATE := state (localState b).

(** A serial run of calls, each given by its clock reading and by what
    the wrapped function settles to when called. *)
Fixpoint run (calls : list (Z * Outcome V)) (b : Breaker) : Breaker * list Effect :=
  match calls with
  | [] => (b, [])
  | (now, r) :: rest =>
      let ex := execute now (Some r) b in
      let '(b', tr) := run rest (after ex) in
      (b', trace ex ++ tr)
  end.

End circuitBreaker.

(** The states a trace passes through, from the state it starts in. *)
Definition entered (tr : list Effect) : list CIRCUIT_STATE :=
  omap (fun ev => match ev with Entered s => Some s | _ => None end) tr.

Definition visited (start : CIRCUIT_STATE) (tr : list Effect) : list CIRCUIT_STATE :=
  start :: entered tr.

(** The [saveStateFn] calls of a trace. *)
Definition writes (tr : list Effect) : list (string * StateData) :=
  omap (fun ev => match ev with Saved k d => Some (k, d) | _ => None end) tr.

End CircuitBreaker.

(** ** services/utils/exponential-backoff.js *)

Module ExponentialBackoff.

Record Params : Type := mkParams {
  maxRetries : Z;
  initialDelay : Z;
  maxDelay : Z;
  factor : Z;
}.

(** Defaults of the destructured parameter object of [exponentialBackoff]. *)
Definition defaultParams : Params :=
  {| maxRetries := 5; initialDelay := 1000; maxDelay := 10000; factor := 2 |}.

(** How the returned async function settles; the last case is the loop
    falling through without an attempt ([maxRetries < 0]). *)
Inductive Settled (V : Type) : Type :=
| Returned (v : V)
| Thrown (e : Error)
| ReturnedUndefined.
Arguments Returned {V} v.
Arguments Thrown {V} e.
Arguments ReturnedUndefined {V}.

Record Run (St V : Type) : Type := mkRun {
  settled : Settled V;
  final : St;
  executions : nat;     (* calls of [executeFunction] *)
  sleeps : list Z;      (* arguments of [sleep], in order *)
}.
Arguments mkRun {St V}.
Arguments settled {St V}.
Arguments final {St V}.
Arguments executions {St V}.
Arguments sleeps {St V}.

Section exponentialBackoff.
Context {St V : Type}.
Variable p : Params.
(** [executeFunction] on the attempt of that index, over the state the
    operation and the predicate share. *)
Variable executeFunction : nat -> St -> Outcome V * St.
Variable shouldRetry : Error -> St -> bool.
(** [Math.random()] as drawn after the failure of the attempt. *)
Variable random : nat -> Q.

Definition exponentialDelay (attempt : nat) : Z :=
  initialDelay p * factor p ^ Z.of_nat attempt.

Definition jitter (attempt : nat) : Z :=
  Qceiling (random attempt * 1000).

Definition waitTime (attempt : nat) : Z :=
  Z.min (exponentialDelay attempt + jitter attempt) (maxDelay p).

(** The [for] loop with [fuel] iterations left, at counter [attempt]. *)
Fixpoint loop (fuel : nat) (attempt : nat) (s : St) : Run St V :=
  match fuel with
  | O => mkRun ReturnedUndefined s 0%nat []
  | S fuel' =>
      let '(r, s') := executeFunction attempt s in
      match r with
      | Resolved v => mkRun (Returned v) s' 1%nat []
      | Rejected e =>
          if bool_decide (Z.of_nat attempt = maxRetries p) || negb (shouldRetry e s')
          then mkRun (Thrown e) s' 1%nat []
          else
            let rest := loop fuel' (S attempt) s' in
            mkRun (settled rest) (final rest) (S (executions rest))
                  (waitTime attempt :: sleeps rest)
      end
  end.

(** The async function that [exponentialBackoff] returns: [attempt] runs
    from [0] while [attempt <= maxRetries]. *)
Definition retry (s : St) : Run St V :=
  loop (Z.to_nat (maxRetries p + 1)) 0%nat s.

End exponentialBackoff.

End ExponentialBackoff.

(** ** services/http/with-retry.js *)

Definition shouldRetryHttpError (error : Error) : bool :=
  match response error with
  | None => true
  | Some status => (500 <=? status) || (status =? 429)
  end.

(** ** enums *)

(** Modelled from the spec: the enums module ([enums/index.js]) is not among
    the sources; the members are those the data model of the specification
    lists for [Mention.type], [Mention.state] and [Task.code]. *)
Inductive mentionTypes : Type := COMMENT | MESSAGE | REPLY.
Inductive mentionStates : Type := ASSIGNMENT | REPLY_ATTEMPT | REPLIED | PROVIDER_ERROR.
Inductive taskTypes : Type :=
  FETCH_COMMENTS | FETCH_MESSAGES | REPLY_MENTION | REPLY_MENTION_IGNORED.

Global Instance mentionTypes_eq_dec : EqDecision mentionTypes.
Proof. solve_decision. Defined.
Global Instance mentionStates_eq_dec : EqDecision mentionStates.
Proof. solve_decision. Defined.
Global Instance taskTypes_eq_dec : EqDecision taskTypes.
Proof. solve_decision. Defined.

(** ** Payloads of the upstream aggregator *)

(** An entry of [history]. *)
Module Post.
Record t : Type := mk {
  id : string;
  postIds : list (string * string);   (* platform, platform post id *)
}.
End Post.

(** A comment as [findAllComments] returns it, tagged with [apiPostId]. *)
Module Comment.
Record t : Type := mk {
  commentId : option string;
  comment : option string;
  platform : option string;
  apiPostId : string;
}.
End Comment.

(** The body of a reply response. *)
Module ReplyResponse.
Record entry : Type := mkEntry {
  comment : string;
  commentId : string;
}.
Record t : Type := mk {
  status : option string;              (* body.status *)
  success : bool;                      (* body.success, as a condition *)
  forPlatform : string -> option entry;  (* body[platform] *)
}.
End ReplyResponse.

(** The authenticated user, as carried through [JSON.stringify] and
    [JSON.parse] in task data. *)
Module ReqUser.
Record t : Type := mk {
  id : Z;
  email : string;
}.
End ReqUser.

(** ** models *)

Module Mention.
Inductive payload : Type :=
| FromComment (c : Comment.t) (taskId : Z)    (* { socialMediaPayload: c, taskId } *)
| FromReply (r : ReplyResponse.t)             (* { socialMediaPayload: result } *)
| NoPayload.
Record t : Type := mk {
  id : Z;
  content : string;
  socialMediaPlatformRef : string;
  socialMediaAPIPostRef : string;
  platform : string;
  type : string + mentionTypes;   (* the column is text; the bulk insert may store '' *)
  state : option mentionStates;
  userId : option Z;
  mentionId : option Z;
  data : payload;
  createdAt : Z;
}.
(** [mention.update({ state })] on the row object. *)
Definition withState (s : option mentionStates) (m : t) : t :=
  mk (id m) (content m) (socialMediaPlatformRef m) (socialMediaAPIPostRef m) (platform m)
     (type m) s (userId m) (mentionId m) (data m) (createdAt m).
End Mention.

Module Task.
(** An element of [data.posts]: a post object while the task is in flight,
    a post id once it is finished. *)
Inductive postEntry : Type :=
| PostObject (post : Post.t)
| PostId (id : string).
Record data_t : Type := mkData {
  mentionId : option Z;
  content : option string;
  reqUser : option ReqUser.t;
  isIgnored : bool;
  error : option Error;
  result : option ReplyResponse.t;
  posts : option (list postEntry);
  comments : option (list Comment.t);
}.
Record t : Type := mk {
  id : Z;
  code : taskTypes;
  data : data_t;
  createdAt : Z;
  startedAt : option Z;
  finishedAt : option Z;
  createdBy : string;
}.
End Task.

Module Audit.
Record t : Type := mk {
  id : Z;
  event : mentionStates;
  mentionId : Z;
  taskId : option Z;
  createdBy : string;
}.
End Audit.

(** ** The relational store (models/index.js and the migrations) *)

Module DB.

Record t : Type := mk {
  mentions : list Mention.t;
  tasks : list Task.t;
  audits : list Audit.t;
  circuit_breaker_states : gmap string CircuitBreaker.StateData;
  mentions_id_seq : Z;
  tasks_id_seq : Z;
  audits_id_seq : Z;
}.

Definition empty : t := mk [] [] [] ∅ 1 1 1.

(** Rows of a statement that commits, or the store as it was. *)
Definition transaction {A} (body : t -> Outcome A * t) (db : t) : Outcome A * t :=
  let '(r, db') := body db in
  match r with
  | Resolved _ => (r, db')
  | Rejected _ => (r, db)
  end.

(** *** mentions *)

(** The column the index [mentions_socialmediaplatformref_unq] is on. *)
Definition platformRefs (db : t) : list string :=
  Mention.socialMediaPlatformRef <$> mentions db.

Definition platformRefTaken (ref : string) (db : t) : bool :=
  bool_decide (ref ∈ platformRefs db).

Definition appendMention (row : Mention.t) (db : t) : t :=
  mk (mentions db ++ [row]) (tasks db) (audits db) (circuit_breaker_states db)
     (mentions_id_seq db + 1) (tasks_id_seq db) (audits_id_seq db).

(** One row proposed to [insert into mentions]; [row] receives the next value
    of the identity sequence.  With [on conflict do nothing] a row that hits
    the unique index is skipped, without it the statement fails. *)
Definition insertMention (onConflictDoNothing : bool) (row : Z -> Mention.t) (db : t)
  : Outcome unit * t :=
  let new := row (mentions_id_seq db) in
  if platformRefTaken (Mention.socialMediaPlatformRef new) db then
    if onConflictDoNothing then (Resolved (), db)
    else (Rejected (UniqueConstraintError "mentions_socialmediaplatformref_unq"), db)
  else (Resolved (), appendMention new db).

(** [db.Mention.create(values)] *)
Definition createMention (row : Z -> Mention.t) (db : t) : Outcome Mention.t * t :=
  match insertMention false row db with
  | (Resolved _, db') => (Resolved (row (mentions_id_seq db)), db')
  | (Rejected e, db') => (Rejected e, db')
  end.

(** [db.Mention.findByPk(id)]; an absent or unparsable key finds nothing. *)
Definition findMentionByPk (pk : option Z) (db : t) : option Mention.t :=
  match pk with
  | Some k => List.find (fun m => bool_decide (Mention.id m = k)) (mentions db)
  | None => None
  end.

(** [mention.update({ state })] *)
Definition updateMentionState (pk : Z) (s : option mentionStates) (db : t) : t :=
  mk ((fun m => if bool_decide (Mention.id m = pk) then Mention.withState s m else m)
        <$> mentions db)
     (tasks db) (audits db) (circuit_breaker_states db)
     (mentions_id_seq db) (tasks_id_seq db) (audits_id_seq db).

(** *** tasks *)

(** [data->>'mentionId'] of both rows is present and equal. *)
Definition sameMentionId (a b : Task.t) : bool :=
  match Task.mentionId (Task.data a), Task.mentionId (Task.data b) with
  | Some x, Some y => bool_decide (x = y)
  | _, _ => false
  end.

Definition sameContent (a b : Task.t) : bool :=
  match Task.content (Task.data a), Task.content (Task.data b) with
  | Some x, Some y => bool_decide (x = y)
  | _, _ => false
  end.

Definition isReplyMention (a : Task.t) : bool :=
  bool_decide (Task.code a = REPLY_MENTION).

(** [tasks_code_data_mentionid_idx]: unique on [(code, data->>'mentionId')]
    where [code = 'REPLY_MENTION']. *)
Definition violatesMentionIdIdx (new : Task.t) (db : t) : bool :=
  isReplyMention new
  && existsb (fun old => isReplyMention old && sameMentionId new old) (tasks db).

(** [tasks_code_data_mentionid_content_idx]: unique on
    [(code, data->>'mentionId', data->>'content')] where
    [code = 'REPLY_MENTION']. *)
Definition violatesContentIdx (new : Task.t) (db : t) : bool :=
  isReplyMention new
  && existsb (fun old => isReplyMention old && sameMentionId new old && sameContent new old)
       (tasks db).

Definition appendTask (row : Task.t) (db : t) : t :=
  mk (mentions db) (tasks db ++ [row]) (audits db) (circuit_breaker_states db)
     (mentions_id_seq db) (tasks_id_seq db + 1) (audits_id_seq db).

(** [db.Task.create({ code, startedAt, finishedAt, createdBy, data })] at
    instant [now]. *)
Definition createTask (now : Z) (code : taskTypes) (startedAt finishedAt : option Z)
    (createdBy : string) (data : Task.data_t) (db : t) : Outcome Task.t * t :=
  let new := Task.mk (tasks_id_seq db) code data now startedAt finishedAt createdBy in
  if violatesMentionIdIdx new db
  then (Rejected (UniqueConstraintError "tasks_code_data_mentionid_idx"), db)
  else if violatesContentIdx new db
  then (Rejected (UniqueConstraintError "tasks_code_data_mentionid_content_idx"), db)
  else (Resolved new, appendTask new db).

(** [db.Task.update({ finishedAt, data }, { where: { id } })] *)
Definition updateTask (pk : Z) (finishedAt : option Z) (data : Task.data_t) (db : t) : t :=
  mk (mentions db)
     ((fun k => if bool_decide (Task.id k = pk)
                then Task.mk (Task.id k) (Task.code k) data (Task.createdAt k)
                             (Task.startedAt k) finishedAt (Task.createdBy k)
                else k) <$> tasks db)
     (audits db) (circuit_breaker_states db)
     (mentions_id_seq db) (tasks_id_seq db) (audits_id_seq db).

(** [delete from tasks where ...] keeping the rows that fail [doomed]. *)
Definition deleteTasks (doomed : Task.t -> bool) (db : t) : t :=
  mk (mentions db) (List.filter (fun k => negb (doomed k)) (tasks db)) (audits db)
     (circuit_breaker_states db)
     (mentions_id_seq db) (tasks_id_seq db) (audits_id_seq db).

(** The keys that [tasks_code_data_mentionid_idx] holds: the mention id of
    every REPLY_MENTION row that has one. *)
Definition replyKeys (db : t) : list Z :=
  omap (fun k => if isReplyMention k then Task.mentionId (Task.data k) else None) (tasks db).

(** The REPLY_MENTION tasks of a mention that are not finished. *)
Definition inFlightReplies (mentionId : Z) (db : t) : list Task.t :=
  List.filter
    (fun k => isReplyMention k
              && bool_decide (Task.mentionId (Task.data k) = Some mentionId)
              && bool_decide (Task.finishedAt k = None))
    (tasks db).

(** What the schema keeps true of the tasks table: the primary key, the
    identity sequence ahead of every id, and the partial unique index. *)
Record consistent (db : t) : Prop := mkConsistent {
  tasks_pk : NoDup (Task.id <$> tasks db);
  tasks_seq_ahead : Forall (fun k => Task.id k < tasks_id_seq db) (tasks db);
  tasks_code_data_mentionid_idx : NoDup (replyKeys db);
}.

(** *** audits *)

Definition createAudit (event : mentionStates) (mentionId : Z) (taskId : option Z)
    (createdBy : string) (db : t) : t :=
  mk (mentions db) (tasks db)
     (audits db ++ [Audit.mk (audits_id_seq db) event mentionId taskId createdBy])
     (circuit_breaker_states db)
     (mentions_id_seq db) (tasks_id_seq db) (audits_id_seq db + 1).

End DB.

(** ** services/social-media/social-media-service.js *)

Module SocialMediaService.
Import CircuitBreaker.

(** [loadStateFn] of the handler: the [state_data] of the row of the key. *)
Definition loadCircuitState (tbl : gmap string StateData) (key : string) : LoadResult :=
  Loaded ((fun d =>
             {| ext_state := Some (state (snapshot d));
                ext_failures := Some (failures (snapshot d));
                ext_lastFailureTime := lastFailureTime (snapshot d);
                ext_nextAttemptTime := nextAttemptTime (snapshot d) |})
          <$> tbl !! key).

(** The breaker that [buildHttpHandler(platform)] creates, over the circuit
    table as it is when the breaker first runs. *)
Definition breakerParams (tbl : gmap string StateData) (platform : string) : Params :=
  {| maxFailures := 5; resetTimeout := 60000; stateKey := Some platform;
     loadStateFn := Some (loadCircuitState tbl); saveStateFn := true; onStateChange := true |}.

(** The retry layer of [buildHttpHandler]. *)
Definition retryParams : ExponentialBackoff.Params :=
  {| ExponentialBackoff.maxRetries := 3; ExponentialBackoff.initialDelay := 1000;
     ExponentialBackoff.maxDelay := 10000; ExponentialBackoff.factor := 2 |}.

(** What one handler owns: its breaker, and what it did so far. *)
Record Handler : Type := mkHandler {
  breaker : Breaker;
  requests : nat;            (* calls of [requestFn] *)
  effects : list Effect;     (* steps of the breaker *)
}.

Section buildHttpHandler.
Context {V : Type}.
Variable tbl : gmap string StateData.
Variable platform : string.
(** [Date.now()] as the breaker reads it on the attempt of that index. *)
Variable clock : nat -> Z.
(** What [requestFn] settles to when called on that attempt. *)
Variable requestFn : nat -> Outcome V.
Variable random : nat -> Q.

(** [async () => await breaker(requestFn)] *)
Definition attempt (k : nat) (h : Handler) : Outcome V * Handler :=
  let ex := execute (breakerParams tbl platform) (clock k) (Some (requestFn k)) (breaker h) in
  (outcome ex,
   {| breaker := after ex;
      requests := (requests h + invocations ex)%nat;
      effects := effects h ++ trace ex |}).

Definition shouldRetry (error : Error) (h : Handler) : bool :=
  match getState (breaker h) with
  | OPEN | HALF_OPEN => false
  | CLOSED => shouldRetryHttpError error
  end.

(** The function [buildHttpHandler] returns, applied to [requestFn]. *)
Definition httpHandler (h : Handler) : ExponentialBackoff.Run Handler V :=
  ExponentialBackoff.retry retryParams attempt shouldRetry random h.

End buildHttpHandler.

(** The writes of a trace, landed on the circuit table in order by the
    [saveStateFn] of the handler:
    [INSERT ... ON CONFLICT (circuit_name) DO UPDATE SET state_data = ...]. *)
Definition landed (tr : list Effect) (tbl : gmap string StateData) : gmap string StateData :=
  foldl (fun acc w => <[w.1 := w.2]> acc) tbl (writes tr).

(** *** findHealth *)

Record CircuitHealth : Type := mkCircuitHealth {
  h_platform : string;
  h_state : CIRCUIT_STATE;
  h_failures : Z;
  h_lastFailureTime : option Z;
  h_nextAttemptTime : option Z;
  h_healthy : bool;
}.

Record HealthReport : Type := mkHealthReport {
  report_status : string;
  circuits : list CircuitHealth;
}.

Definition rowHealth (row : string * StateData) : CircuitHealth :=
  {| h_platform := row.1;
     h_state := state (snapshot row.2);
     h_failures := failures (snapshot row.2);
     h_lastFailureTime := lastFailureTime (snapshot row.2);
     h_nextAttemptTime := nextAttemptTime (snapshot row.2);
     h_healthy := bool_decide (state (snapshot row.2) = CLOSED) |}.

Definition findHealth (tbl : gmap string StateData) : HealthReport :=
  let health := rowHealth <$> map_to_list tbl in
  {| report_status := if forallb h_healthy health then "healthy" else "degraded";
     circuits := health |}.

(** *** replyComment

    [httpRequest] is what the POST to [/comments/{ref}/reply] settles to: the
    body of the response, or the error of the handler. *)
Definition replyComment (now : Z) (httpRequest : Outcome ReplyResponse.t)
    (mention : Mention.t) (db : DB.t) : Outcome ReplyResponse.t * DB.t :=
  match httpRequest with
  | Rejected e => (Rejected e, db)
  | Resolved body =>
      if ReplyResponse.success body then
        match ReplyResponse.forPlatform body (Mention.platform mention) with
        | None => (Rejected (TypeError "replyData"), db)
        | Some replyData =>
            let row := fun pk =>
              Mention.mk pk (ReplyResponse.comment replyData)
                (ReplyResponse.commentId replyData)
                (Mention.socialMediaAPIPostRef mention) (Mention.platform mention)
                (inr REPLY) None None (Some (Mention.id mention))
                (Mention.FromReply body) now in
            match DB.createMention row db with
            | (Resolved _, db') => (Resolved body, db')
            | (Rejected e, db') => (Rejected e, db')
            end
        end
      else (Resolved body, db)
  end.

End SocialMediaService.

(** ** services/data/mention/base-mention-adapter.js *)

Module BaseMentionAdapter.

(** ['5 minutes'] and ['10 minutes'] in milliseconds. *)
Definition SOCIAL_MEDIA_API_TASK_REPLY_INTERVAL : Z := 300000.
Definition SOCIAL_MEDIA_API_TASK_FETCH_COMMENTS_INTERVAL : Z := 600000.

(** The store, and the reply calls handed to the Social Gateway so far
    (mention id and content of each). *)
Record World : Type := mkWorld {
  db : DB.t;
  replyCalls : list (Z * option string);
}.

(** A mention object handed to [_createMentions]. *)
Record NewMention : Type := mkNewMention {
  content : option string;
  socialMediaPlatformRef : option string;
  socialMediaAPIPostRef : option string;
  platform : option string;
  type : option mentionTypes;
  data : Mention.payload;
}.

(** One tuple of the [values] list: every text is [field || '']. *)
Definition valuesRow (now : Z) (m : NewMention) (pk : Z) : Mention.t :=
  Mention.mk pk (default "" (content m)) (default "" (socialMediaPlatformRef m))
    (default "" (socialMediaAPIPostRef m)) (default "" (platform m))
    (from_option inr (inl "") (type m))
    None None None (data m) now.

(** The platform ref a mention object is stored under. *)
Definition storedRef (m : NewMention) : string := default "" (socialMediaPlatformRef m).

Fixpoint insertAll (rows : list (Z -> Mention.t)) (d : DB.t) : Outcome unit * DB.t :=
  match rows with
  | [] => (Resolved (), d)
  | row :: rest =>
      match DB.insertMention true row d with
      | (Resolved _, d') => insertAll rest d'
      | (Rejected e, d') => (Rejected e, d')
      end
  end.

(** [_createMentions({ mentions })]: one statement.  The [where not exists]
    filter reads the table as it is before the statement; the rows that pass
    are inserted in order under [on conflict do nothing]. *)
Definition _createMentions (now : Z) (mentions : list NewMention) (d : DB.t)
  : Outcome unit * DB.t :=
  match mentions with
  | [] => (Rejected (PlainError "syntax error at end of values list"), d)
  | _ =>
      let proposed := valuesRow now <$> mentions in
      let selected :=
        List.filter
          (fun row => negb (DB.platformRefTaken (Mention.socialMediaPlatformRef (row 0)) d))
          proposed in
      DB.transaction (insertAll selected) d
  end.

(** [getRecentTasksQuery] without [includeUnfinished] and [mentionType]:
    the tasks of the code created within the interval. *)
Definition recentTasks (now : Z) (code : taskTypes) (interval : Z) (d : DB.t) : list Task.t :=
  List.filter
    (fun k => bool_decide (Task.code k = code) && (now - interval <=? Task.createdAt k))
    (DB.tasks d).

(** The fields that [processReplyResponseToMention] gives to the child row;
    [type], [data] and [mentionId] are set over them by [processReplyTask]. *)
Record ReplyFields : Type := mkReplyFields {
  reply_content : string;
  reply_socialMediaPlatformRef : string;
  reply_socialMediaAPIPostRef : string;
  reply_platform : string;
}.

Section adapter.
(** [this.socialMediaService.reply({ mention, content, reqUser })]: what the
    gateway settles to, and the store after the writes it made itself. *)
Variable socialMediaService_reply :
  Mention.t -> option string -> ReqUser.t -> DB.t -> Outcome ReplyResponse.t * DB.t.
(** The abstract [processReplyResponseToMention({ replyResponse, mention })]. *)
Variable processReplyResponseToMention :
  ReplyResponse.t -> Mention.t -> Outcome ReplyFields.

(** The callback of the transaction of [processReplyTask], after the gateway
    has answered [result]. *)
Definition recordReply (now : Z) (task : Task.t) (mention : Mention.t)
    (result : ReplyResponse.t) (d : DB.t) : Outcome unit * DB.t :=
  let succeeded := bool_decide (ReplyResponse.status result = Some "success") in
  let finish (d' : DB.t) : Outcome unit * DB.t :=
    let taskData := Task.data task in
    (Resolved (),
     DB.updateTask (Task.id task) (if succeeded then Some now else None)
       (Task.mkData (Task.mentionId taskData) (Task.content taskData) (Task.reqUser taskData)
          (Task.isIgnored taskData) (Task.error taskData) (Some result)
          (Task.posts taskData) (Task.comments taskData))
       d') in
  if succeeded then
    match processReplyResponseToMention result mention with
    | Rejected e => (Rejected e, d)
    | Resolved fields =>
        let row := fun pk =>
          Mention.mk pk (reply_content fields) (reply_socialMediaPlatformRef fields)
            (reply_socialMediaAPIPostRef fields) (reply_platform fields)
            (inr REPLY) None None (Some (Mention.id mention))
            (Mention.FromReply result) now in
        match DB.createMention row d with
        | (Rejected e, d') => (Rejected e, d')
        | (Resolved _, d') =>
            finish (DB.updateMentionState (Mention.id mention) (Some REPLIED) d')
        end
    end
  else finish (DB.updateMentionState (Mention.id mention) (Some PROVIDER_ERROR) d).

(** [processReplyTask({ task })] at instant [now]. *)
Definition processReplyTask (now : Z) (task : Task.t) (w : World) : Outcome unit * World :=
  if Task.isIgnored (Task.data task) then (Resolved (), w)
  else
    match Task.reqUser (Task.data task) with
    | None => (Rejected (PlainError "JSON.parse: unexpected token"), w)
    | Some parsedReqUser =>
        match DB.findMentionByPk (Task.mentionId (Task.data task)) (db w) with
        | None => (Resolved (), w)
        | Some mention =>
            let content := Task.content (Task.data task) in
            let '(answer, d1) := socialMediaService_reply mention content parsedReqUser (db w) in
            let calls := replyCalls w ++ [(Mention.id mention, content)] in
            match answer with
            | Rejected e => (Rejected e, mkWorld d1 calls)
            | Resolved result =>
                let '(r, d2) := DB.transaction (recordReply now task mention result) d1 in
                (r, mkWorld d2 calls)
            end
        end
    end.

(** The [delete from tasks] that clears old reply tasks of the mention. *)
Definition staleReplyTask (now : Z) (mentionId : Z) (k : Task.t) : bool :=
  bool_decide (Task.code k = REPLY_MENTION)
  && bool_decide (Task.mentionId (Task.data k) = Some mentionId)
  && bool_decide (Task.finishedAt k = None)
  && match Task.startedAt k with
     | Some started => started <? now - SOCIAL_MEDIA_API_TASK_REPLY_INTERVAL
     | None => false
     end.

(** The transaction of [reply]: the task, the audit, the mention state. *)
Definition openReplyTask (now : Z) (mention : Mention.t) (content : string)
    (reqUser : ReqUser.t) (d : DB.t) : Outcome Task.t * DB.t :=
  let taskData :=
    Task.mkData (Some (Mention.id mention)) (Some content) (Some reqUser)
      false None None None None in
  match DB.createTask now REPLY_MENTION (Some now) None (ReqUser.email reqUser) taskData d with
  | (Rejected e, d') => (Rejected e, d')
  | (Resolved task, d1) =>
      let d2 := DB.createAudit REPLY_ATTEMPT (Mention.id mention) (Some (Task.id task))
                  (ReqUser.email reqUser) d1 in
      (Resolved task, DB.updateMentionState (Mention.id mention) (Some REPLY_ATTEMPT) d2)
  end.

(** The [catch] block of [reply]: the attempt is kept as an ignored task and
    the error is thrown again. *)
Definition ignoreReply (now : Z) (mention : Mention.t) (content : string)
    (reqUser : ReqUser.t) (error : Error) (w : World) : Outcome unit * World :=
  let taskData :=
    Task.mkData (Some (Mention.id mention)) (Some content) (Some reqUser)
      false (Some error) None None None in
  match DB.createTask now REPLY_MENTION_IGNORED (Some now) (Some now)
          (ReqUser.email reqUser) taskData (db w) with
  | (Rejected e, d') => (Rejected e, mkWorld d' (replyCalls w))
  | (Resolved _, d') => (Rejected error, mkWorld d' (replyCalls w))
  end.

(** [reply({ mention, content, reqUser })] at instant [now]. *)
Definition reply (now : Z) (mention : Mention.t) (content : string) (reqUser : ReqUser.t)
    (w : World) : Outcome unit * World :=
  let d0 := DB.deleteTasks (staleReplyTask now (Mention.id mention)) (db w) in
  match DB.transaction (openReplyTask now mention content reqUser) d0 with
  | (Rejected e, d1) => ignoreReply now mention content reqUser e (mkWorld d1 (replyCalls w))
  | (Resolved task, d1) =>
      match processReplyTask now task (mkWorld d1 (replyCalls w)) with
      | (Rejected e, w2) => ignoreReply now mention content reqUser e w2
      | (Resolved _, w2) => (Resolved (), w2)
      end
  end.

End adapter.

End BaseMentionAdapter.

(** ** services/data/mention/mention-comment-adapter.js *)

Module MentionCommentAdapter.
Import BaseMentionAdapter.

Definition processReplyResponseToMention (replyResponse : ReplyResponse.t) (mention : Mention.t)
  : Outcome ReplyFields :=
  match ReplyResponse.forPlatform replyResponse (Mention.platform mention) with
  | None => Rejected (TypeError "replyData")
  | Some replyData =>
      Resolved {| reply_content := ReplyResponse.comment replyData;
                  reply_socialMediaPlatformRef := ReplyResponse.commentId replyData;
                  reply_socialMediaAPIPostRef := Mention.socialMediaAPIPostRef mention;
                  reply_platform := Mention.platform mention |}
  end.

Definition _transformCommentsToMentions (comments : list Comment.t) (taskId : Z)
  : list NewMention :=
  (fun c =>
     {| socialMediaPlatformRef := Comment.commentId c;
        socialMediaAPIPostRef := Some (Comment.apiPostId c);
        content := Comment.comment c;
        platform := Comment.platform c;
        type := Some COMMENT;
        data := Mention.FromComment c taskId |}) <$> comments.

(** [[...new Set(existingTasks.map((task) => JSON.parse(task.posts)).flat())]]:
    the elements of [data.posts] of the recent FETCH_COMMENTS tasks.  A task
    without [posts] contributes [null], which no post id equals, and is left
    out; so is the removal of duplicates, which does not change membership. *)
Definition _findFreshlyFetchedPostIds (now : Z) (d : DB.t) : list Task.postEntry :=
  concat ((fun k => default [] (Task.posts (Task.data k)))
            <$> recentTasks now FETCH_COMMENTS SOCIAL_MEDIA_API_TASK_FETCH_COMMENTS_INTERVAL d).

(** [existingPostIds.includes(id)] for a string [id]: an element is the same
    value only when it is that string; a parsed post object never is. *)
Definition includes (existingPostIds : list Task.postEntry) (id : string) : bool :=
  existsb (fun e => match e with
                    | Task.PostId s => bool_decide (s = id)
                    | Task.PostObject _ => false
                    end) existingPostIds.

(** [self.findIndex((p) => p.id === post.id) === index], along the list:
    [seen] holds the ids of the posts before the current one. *)
Fixpoint filterPosts (existingPostIds : list Task.postEntry) (seen : list string)
    (posts : list Post.t) : list Post.t :=
  match posts with
  | [] => []
  | post :: rest =>
      let keep := negb (includes existingPostIds (Post.id post))
                  && negb (bool_decide (Post.id post ∈ seen)) in
      (if keep then [post] else [])
        ++ filterPosts existingPostIds (seen ++ [Post.id post]) rest
  end.

(** The part of the [promiseFunc] of [processFetchTask] that stores the
    comments found for one post. *)
Definition storeComments (now : Z) (taskId : Z) (comments : list Comment.t) (d : DB.t)
  : Outcome unit * DB.t :=
  match comments with
  | [] => (Resolved (), d)
  | _ =>
      match _transformCommentsToMentions comments taskId with
      | [] => (Resolved (), d)
      | mentions => _createMentions now mentions d
      end
  end.

(** The same list of comments stored by successive fetch tasks, each given
    by its instant and its task id. *)
Fixpoint storeRepeatedly (runs : list (Z * Z)) (comments : list Comment.t) (d : DB.t)
  : Outcome unit * DB.t :=
  match runs with
  | [] => (Resolved (), d)
  | (now, taskId) :: rest =>
      match storeComments now taskId comments d with
      | (Resolved _, d') => storeRepeatedly rest comments d'
      | (Rejected e, d') => (Rejected e, d')
      end
  end.

Section fetch.
(** [socialMediaService.findAllPosts(reqUser)] *)
Variable findAllPosts : list Post.t.
(** [socialMediaService.findAllComments(post, reqUser)] *)
Variable findAllComments : Post.t -> list Comment.t.

(** The [promiseFunc] of [processFetchTask] over the posts of the task, one
    post after the other; a statement that fails ends the traversal. *)
Fixpoint fetchPosts (now : Z) (taskId : Z) (posts : list Post.t) (d : DB.t)
  : Outcome (list (list Comment.t)) * DB.t :=
  match posts with
  | [] => (Resolved [], d)
  | post :: rest =>
      let comments := findAllComments post in
      match storeComments now taskId comments d with
      | (Rejected e, d1) => (Rejected e, d1)
      | (Resolved _, d1) =>
          match fetchPosts now taskId rest d1 with
          | (Resolved batches, d2) => (Resolved (comments :: batches), d2)
          | (Rejected e, d2) => (Rejected e, d2)
          end
      end
  end.

(** [task.data.posts] of a task that is still to be processed: the post
    objects it was created with.  Entries that are not post objects do not
    occur in such a task and are left out. *)
Definition postsOf (task : Task.t) : list Post.t :=
  omap (fun e => match e with
                 | Task.PostObject post => Some post
                 | Task.PostId _ => None
                 end)
       (default [] (Task.posts (Task.data task))).

(** [processFetchTask({ task })] at instant [now]. *)
Definition processFetchTask (now : Z) (task : Task.t) (d : DB.t) : Outcome unit * DB.t :=
  match fetchPosts now (Task.id task) (postsOf task) d with
  | (Rejected e, d1) => (Rejected e, d1)
  | (Resolved batches, d1) =>
      let taskData := Task.data task in
      (Resolved (),
       DB.updateTask (Task.id task) (Some now)
         (Task.mkData (Task.mentionId taskData) (Task.content taskData)
            (Task.reqUser taskData) (Task.isIgnored taskData) (Task.error taskData)
            (Task.result taskData)
            (Some ((fun post => Task.PostId (Post.id post)) <$> postsOf task))
            (Some (concat batches)))
         d1)
  end.

(** [fetchAndSyncMentions(reqUser)] at instant [now]. *)
Definition fetchAndSyncMentions (now : Z) (reqUser : ReqUser.t) (d : DB.t)
  : Outcome unit * DB.t :=
  let posts := findAllPosts in
  let existingPostIds := _findFreshlyFetchedPostIds now d in
  let postsToFetch := filterPosts existingPostIds [] posts in
  match postsToFetch with
  | [] => (Resolved (), d)
  | _ =>
      let taskData :=
        Task.mkData None None (Some reqUser) false None None
          (Some (Task.PostObject <$> postsToFetch)) None in
      match DB.createTask now FETCH_COMMENTS (Some now) None (ReqUser.email reqUser)
              taskData d with
      | (Rejected e, d1) => (Rejected e, d1)
      | (Resolved task, d1) => processFetchTask now task d1
      end
  end.

End fetch.

End MentionCommentAdapter.

(** ** Values of a request, as JavaScript sees them *)

(** The values a field of a request body or a route parameter can hold.
    Numbers are the integers and [NaN]; [JsObject] is a plain object. *)
Inductive JsVal : Type :=
| JsUndefined
| JsNull
| JsBoolean (b : bool)
| JsNumber (n : Z)
| JsNaN
| JsString (s : string)
| JsObject.

Inductive JsType : Type := TUndefined | TObject | TBoolean | TNumber | TString.

Global Instance JsType_eq_dec : EqDecision JsType.
Proof. solve_decision. Defined.

Definition typeof (v : JsVal) : JsType :=
  match v with
  | JsUndefined => TUndefined
  | JsNull => TObject
  | JsBoolean _ => TBoolean
  | JsNumber _ => TNumber
  | JsNaN => TNumber
  | JsString _ => TString
  | JsObject => TObject
  end.

(** The value as a condition. *)
Definition truthy (v : JsVal) : bool :=
  match v with
  | JsUndefined => false
  | JsNull => false
  | JsBoolean b => b
  | JsNumber n => negb (n =? 0)
  | JsNaN => false
  | JsString s => negb (bool_decide (s = ""))
  | JsObject => true
  end.

Definition digitOf (c : Ascii.ascii) : option Z :=
  let n := Z.of_N (Ascii.N_of_ascii c) in
  if (48 <=? n) && (n <=? 57) then Some (n - 48) else None.

(** The value of the longest prefix of decimal digits, if there is one. *)
Fixpoint digitsPrefix (s : string) (acc : option Z) : option Z :=
  match s with
  | EmptyString => acc
  | String c rest =>
      match digitOf c with
      | Some d => digitsPrefix rest (Some (10 * default 0 acc + d))
      | None => acc
      end
  end.

Definition isWhiteSpace (c : Ascii.ascii) : bool :=
  let n := Ascii.N_of_ascii c in
  bool_decide (n ∈ [9; 10; 11; 12; 13; 32]%N).

Fixpoint trimStart (s : string) : string :=
  match s with
  | String c rest => if isWhiteSpace c then trimStart rest else s
  | EmptyString => s
  end.

(** [parseInt(s, 10)]; [None] is [NaN]. *)
Definition parseIntString (s : string) : option Z :=
  match trimStart s with
  | String c rest =>
      if bool_decide (Ascii.N_of_ascii c = 45%N) then Z.opp <$> digitsPrefix rest None
      else if bool_decide (Ascii.N_of_ascii c = 43%N) then digitsPrefix rest None
      else digitsPrefix (String c rest) None
  | EmptyString => None
  end.

(** [parseInt(String(v), 10)]: an integer prints as its decimal digits, and
    no other non-string value prints as a text that starts with a digit. *)
Definition parseInt (v : JsVal) : JsVal :=
  match v with
  | JsNumber n => JsNumber n
  | JsString s => from_option JsNumber JsNaN (parseIntString s)
  | _ => JsNaN
  end.

(** The primary key that [findByPk] receives from a parsed value. *)
Definition asPk (v : JsVal) : option Z :=
  match v with
  | JsNumber n => Some n
  | _ => None
  end.

(** ** services/data/mention/mention-data-service.js *)

Module MentionDataService.
Import BaseMentionAdapter.

(** [req.user]: the fields of the authenticated user that may be missing. *)
Record Actor : Type := mkActor {
  actor_id : option Z;
  actor_email : option string;
}.

Record ReplyParams : Type := mkReplyParams {
  mentionId : JsVal;
  content : JsVal;
  reqUser : option Actor;
}.

(** [!reqUser?.id] and [!reqUser?.email] *)
Definition actorId (u : option Actor) : JsVal :=
  from_option JsNumber JsUndefined (u ≫= actor_id).
Definition actorEmail (u : option Actor) : JsVal :=
  from_option JsString JsUndefined (u ≫= actor_email).

(** [content.length] once [content] is known to be a string. *)
Definition lengthOf (v : JsVal) : Z :=
  match v with
  | JsString text => Z.of_nat (String.length text)
  | _ => 0
  end.

(** The four guards at the head of [reply]: the error of the first that
    fires, or the content and the user that passed. *)
Definition validate (params : ReplyParams) : Error + (string * ReqUser.t) :=
  if negb (truthy (mentionId params))
     || negb (bool_decide (typeof (parseInt (mentionId params)) = TNumber))
  then inl (PlainError "Invalid mentionId")
  else if negb (truthy (content params))
          || negb (bool_decide (typeof (content params) = TString))
  then inl (PlainError "Invalid content")
  else if 10000 <? lengthOf (content params)
  then inl (PlainError "Content exceeds maximum length")
  else if negb (truthy (actorId (reqUser params)))
          || negb (truthy (actorEmail (reqUser params)))
  then inl (PlainError "Invalid user")
  else
    (* past the guards the content is a string and both fields are present *)
    match content params, reqUser params ≫= actor_id, reqUser params ≫= actor_email with
    | JsString text, Some uid, Some email => inr (text, ReqUser.mk uid email)
    | _, _, _ => inl (PlainError "Invalid user")
    end.

(** A non-empty string of at most 10 000 characters. *)
Definition contentOk (v : JsVal) : Prop :=
  exists text, v = JsString text /\ text <> "" /\ Z.of_nat (String.length text) <= 10000.

(** A user with a non-zero id and a non-empty email. *)
Definition actorOk (u : option Actor) : Prop :=
  exists uid email, u = Some (mkActor (Some uid) (Some email)) /\ uid <> 0 /\ email <> "".

Section service.
Variable socialMediaService_reply :
  Mention.t -> option string -> ReqUser.t -> DB.t -> Outcome ReplyResponse.t * DB.t.

(** [reply({ mentionId, content, reqUser })] at instant [now]; the only
    adapter that [_registerAdapters] registers is the comment adapter. *)
Definition reply (now : Z) (params : ReplyParams) (w : World) : Outcome unit * World :=
  match validate params with
  | inl e => (Rejected e, w)
  | inr (text, user) =>
      match DB.findMentionByPk (asPk (parseInt (mentionId params))) (db w) with
      | None => (Rejected (PlainError "Mention not found"), w)
      | Some mention =>
          match Mention.type mention with
          | inr COMMENT =>
              BaseMentionAdapter.reply socialMediaService_reply
                MentionCommentAdapter.processReplyResponseToMention
                now mention text user w
          | _ => (Rejected (PlainError "No adapter registered for mention type"), w)
          end
      end
  end.

End service.

End MentionDataService.


(** ** More of services/utils/circuit-breaker.js *)

Module CircuitBreakerState.
Import CircuitBreaker.

(** The parameters of a breaker that has no [loadStateFn]. *)
Definition withoutLoader (p : Params) : Params :=
  {| maxFailures := maxFailures p; resetTimeout := resetTimeout p;
     stateKey := stateKey p; loadStateFn := None;
     saveStateFn := saveStateFn p; onStateChange := onStateChange p |}.

(** What the local state of a breaker looks like between two calls when it
    started from the defaults: closed, below the threshold and with no
    instant of a next attempt; or open, at or above the threshold, with the
    next attempt [resetTimeout] after the last failure. *)
Definition atRest (p : Params) (ls : LocalState) : Prop :=
  match state ls with
  | CLOSED => 0 <= failures ls < maxFailures p /\ nextAttemptTime ls = None
  | OPEN =>
      maxFailures p <= failures ls
      /\ exists t, lastFailureTime ls = Some t
                   /\ nextAttemptTime ls = Some (t + resetTimeout p)
  | HALF_OPEN => False
  end.

(** The local state as it comes back from a stored row: the instants go
    through [x || null]. *)
Definition reloaded (ls : LocalState) : LocalState :=
  {| state := state ls; failures := failures ls;
     lastFailureTime := orNull (lastFailureTime ls);
     nextAttemptTime := orNull (nextAttemptTime ls) |}.

End CircuitBreakerState.

(** ** More of services/utils/exponential-backoff.js *)

Module ExponentialBackoffCall.

(** [executeFunction] of the returned function: the first argument of the
    call when it is a function, else the configured [fn] (which then receives
    that argument), else an error.  A function is given by what its call on
    an attempt settles to. *)
Definition executeFunction {St V}
    (fnOverride fn : option (nat -> St -> Outcome V * St))
  : nat -> St -> Outcome V * St :=
  match fnOverride with
  | Some override => override
  | None =>
      match fn with
      | Some configured => configured
      | None => fun _ s => (Rejected NoFunctionProvided, s)
      end
  end.

(** The default [shouldRetry]: [() => true]. *)
Definition defaultShouldRetry {St} : Error -> St -> bool := fun _ _ => true.

(** The sum of the arguments of [sleep]. *)
Definition totalSleep (sleeps : list Z) : Z := foldr Z.add 0 sleeps.

End ExponentialBackoffCall.

(** ** services/http/with-retry.js *)

Module WithRetry.

(** The [options] of [withRetry]; a missing field is [None]. *)
Record Options : Type := mkOptions {
  maxRetries : option Z;
  initialDelay : option Z;
  maxDelay : option Z;
  factor : option Z;
  shouldRetry : option (Error -> bool);
}.

Definition noOptions : Options := mkOptions None None None None None.

(** The destructured options with their defaults. *)
Definition params (options : Options) : ExponentialBackoff.Params :=
  {| ExponentialBackoff.maxRetries := default 3 (maxRetries options);
     ExponentialBackoff.initialDelay := default 1000 (initialDelay options);
     ExponentialBackoff.maxDelay := default 10000 (maxDelay options);
     ExponentialBackoff.factor := default 2 (factor options) |}.

Definition retryCondition (options : Options) : Error -> bool :=
  default shouldRetryHttpError (shouldRetry options).

Section withRetry.
Context {V : Type}.
Variable options : Options.
(** [httpClient[method](url, ...args)] on the attempt of that index. *)
Variable request : nat -> Outcome V.
Variable random : nat -> Q.

(** The wrapper that [createRetryWrapper(method)] returns, called once; the
    state counts the calls of the client. *)
Definition retryWrapper : ExponentialBackoff.Run nat V :=
  ExponentialBackoff.retry (params options)
    (ExponentialBackoffCall.executeFunction None
       (Some (fun attempt calls => (request attempt, S calls))))
    (fun error _ => retryCondition options error)
    random 0%nat.

End withRetry.

End WithRetry.

(** ** services/utils/process-promises.js *)

Module ProcessPromises.

(** [Promise.all(promises)]: the values in the order of the promises, or the
    rejection of a promise of the list.  When several promises reject,
    [Promise.all] gives the rejection that happens first; the promises are
    taken to settle in the order in which they were started. *)
Fixpoint promiseAll {A} (promises : list (Outcome A)) : Outcome (list A) :=
  match promises with
  | [] => Resolved []
  | Rejected e :: _ => Rejected e
  | Resolved v :: rest =>
      match promiseAll rest with
      | Resolved vs => Resolved (v :: vs)
      | Rejected e => Rejected e
      end
  end.

(** The two arrays of a call, and what the call did so far.  An element of
    [data] is a result, or [undefined] ([None]) for a promise whose rejection
    went to [onError]. *)
Record State (V : Type) : Type := mkState {
  promises : list (Outcome (option V));
  data : list (option V);
  started : list nat;     (* the indexes [promiseFunc] was called with *)
  pending : list nat;     (* [promises.length] after each push *)
  reported : list Error;  (* the arguments of [onError] *)
  waits : nat;            (* delays between batches *)
}.
Arguments mkState {V}.
Arguments promises {V}.
Arguments data {V}.
Arguments started {V}.
Arguments pending {V}.
Arguments reported {V}.
Arguments waits {V}.

Definition initial {V} : State V := mkState [] [] [] [] [] 0%nat.

Section processPromises.
Context {E V : Type}.
(** [promiseFunc({ entity, index, entities, promises, data })], an async
    function: what its promise settles to.  [data] is the array at the call;
    nothing is pushed to it while a promise of the batch is pending.  The
    handles in [promises] are not given to the model. *)
Variable promiseFunc : E -> nat -> list (option V) -> Outcome V.
Variable promisesLimit : Z.
Variable breakOnError : bool.
(** [delay] as a condition. *)
Variable delay : bool.

Definition handlePromise (promise : Outcome (option V)) (st : State V)
  : Outcome unit * State V :=
  let pushed := promises st ++ [promise] in
  let seen := pending st ++ [length pushed] in
  if promisesLimit <=? Z.of_nat (length pushed) then
    match promiseAll pushed with
    | Resolved result =>
        (Resolved (),
         mkState [] (data st ++ result) (started st) seen (reported st)
           (if delay then S (waits st) else waits st))
    | Rejected e =>
        (Rejected e, mkState pushed (data st) (started st) seen (reported st) (waits st))
    end
  else (Resolved (), mkState pushed (data st) (started st) seen (reported st) (waits st)).

(** [handleError(err)] when errors do not break: [onError(err)]. *)
Definition report (err : Error) (st : State V) : State V :=
  mkState (promises st) (data st) (started st) (pending st) (reported st ++ [err]) (waits st).

(** The promise handed to [handlePromise]: the one of [promiseFunc], with
    [.catch(onError)] on it when errors do not break. *)
Definition guarded (index : nat) (settled : Outcome V) (st : State V)
  : Outcome (option V) * State V :=
  let st' := mkState (promises st) (data st) (started st ++ [index]) (pending st)
               (reported st) (waits st) in
  match settled with
  | Resolved v => (Resolved (Some v), st')
  | Rejected err =>
      if breakOnError then (Rejected err, st') else (Resolved None, report err st')
  end.

(** The [for] loop from [index] on. *)
Fixpoint loop (index : nat) (entities : list E) (st : State V) : Outcome unit * State V :=
  match entities with
  | [] => (Resolved (), st)
  | entity :: rest =>
      let '(promise, st1) := guarded index (promiseFunc entity index (data st)) st in
      match handlePromise promise st1 with
      | (Resolved _, st2) => loop (S index) rest st2
      | (Rejected err, st2) =>
          if breakOnError then (Rejected err, st2)
          else loop (S index) rest (report err st2)
      end
  end.

Definition processPromises (entities : list E) : Outcome (list (option V)) * State V :=
  match loop 0%nat entities initial with
  | (Rejected err, st) => (Rejected err, st)
  | (Resolved _, st) =>
      match promises st with
      | [] => (Resolved (data st), st)
      | remaining =>
          match promiseAll remaining with
          | Resolved result =>
              (Resolved (data st ++ result),
               mkState remaining (data st ++ result) (started st) (pending st)
                 (reported st) (waits st))
          | Rejected err =>
              if breakOnError then (Rejected err, st)
              else (Resolved (data st), report err st)
          end
      end
  end.

(** The size of a batch: [promisesLimit], and one when it is smaller. *)
Definition batch : nat := Z.to_nat (Z.max 1 promisesLimit).

(** The number of results that are in [data] when the entity of an index
    is started. *)
Definition collectedBefore (index : nat) : nat := (batch * (index / batch))%nat.

(** What holds of the two arrays between two iterations, before the entity
    of [index] is started: every entity before it has its promise in
    [promises] or its result in [data], the batch in [promises] is not full,
    [data] holds whole batches, and no batch was larger than [batch]. *)
Definition betweenIterations (index : nat) (st : State V) : Prop :=
  (length (data st) + length (promises st) = index)%nat
  /\ (length (promises st) < batch)%nat
  /\ (exists q, length (data st) = (batch * q)%nat)
  /\ Forall (fun n => (n <= batch)%nat) (pending st).

(** The element of [data] that a settled promise gives. *)
Definition stored (settled : Outcome V) : option V :=
  match settled with
  | Resolved v => Some v
  | Rejected _ => None
  end.

End processPromises.

End ProcessPromises.

(** ** controllers/status-controller.js *)

Module StatusController.
Import SocialMediaService.

(** [findHealth(_req, res)]: the status code and the body of the answer when
    the query of the circuit table succeeds. *)
Definition findHealth (tbl : gmap string CircuitBreaker.StateData) : Z * HealthReport :=
  let health := SocialMediaService.findHealth tbl in
  (if bool_decide (report_status health = "healthy") then 200 else 503, health).

End StatusController.

(** ** More of services/social-media/social-media-service.js *)

Module SocialMediaPosts.

(** [findAllPosts(reqUser)] over the configured platforms.  [httpRequest]
    is what the request of the history of a platform settles to: the
    [history] of the body, which may be missing, or the error of the
    handler, which is logged and dropped. *)
Definition findAllPosts (platforms : list string)
    (httpRequest : string -> Outcome (option (list Post.t))) : list Post.t :=
  foldl (fun posts platform =>
           match httpRequest platform with
           | Resolved history => posts ++ default [] history
           | Rejected _ => posts
           end)
        [] platforms.

End SocialMediaPosts.

(** ** More of services/data/mention/base-mention-adapter.js *)

Module BaseMentionSweep.
Import BaseMentionAdapter.

(** The rows that [getRecentTasksQuery] selects with [includeUnfinished] and
    a [mentionType], as [_processAllTasks] asks for them: the tasks of the
    code that were created and started within the interval, are not
    finished, and whose [data->>'mentionId'] is the id of a mention of the
    type.  A task without [mentionId] has no such mention. *)
Definition pendingTasks (now : Z) (type : taskTypes) (interval : Z)
    (mentionType : mentionTypes) (d : DB.t) : list Task.t :=
  List.filter
    (fun k =>
       bool_decide (Task.code k = type)
       && (now - interval <=? Task.createdAt k)
       && match Task.startedAt k with
          | Some started => now - interval <=? started
          | None => false
          end
       && bool_decide (Task.finishedAt k = None)
       && existsb (fun m => bool_decide (Task.mentionId (Task.data k) = Some (Mention.id m))
                            && bool_decide (Mention.type m = inr mentionType))
            (DB.mentions d))
    (DB.tasks d).

(** The two sweeps of [init] for the comment adapter. *)
Definition replySweep (now : Z) (d : DB.t) : list Task.t :=
  pendingTasks now REPLY_MENTION SOCIAL_MEDIA_API_TASK_REPLY_INTERVAL COMMENT d.

Definition fetchSweep (now : Z) (d : DB.t) : list Task.t :=
  pendingTasks now FETCH_COMMENTS SOCIAL_MEDIA_API_TASK_FETCH_COMMENTS_INTERVAL COMMENT d.

(** [isSyncingFetch()] of the comment adapter: some recent fetch task is not
    finished. *)
Definition isSyncingFetch (now : Z) (d : DB.t) : bool :=
  existsb (fun k => bool_decide (Task.finishedAt k = None))
    (recentTasks now FETCH_COMMENTS SOCIAL_MEDIA_API_TASK_FETCH_COMMENTS_INTERVAL d).

End BaseMentionSweep.

(** ** More about the values of a request *)

(** A text made of decimal digits only. *)
Fixpoint allDigits (s : string) : bool :=
  match s with
  | EmptyString => true
  | String c rest => bool_decide (is_Some (digitOf c)) && allDigits rest
  end.

(** ** services/data/user-data-service.js, controllers/user-controller.js and
       middleware/auth.js *)

Module UserDataService.

Record User : Type := mkUser {
  id : Z;
  email : string;
}.

(** The users table: its rows in insertion order and the next value of
    [users_id_seq]. *)
Record Users : Type := mkUsers {
  rows : list User;
  users_id_seq : Z;
}.

(** A variable of the environment as a condition: set and not empty. *)
Definition configured (v : option string) : bool :=
  match v with
  | Some s => negb (bool_decide (s = ""))
  | None => false
  end.

(** [db.User.findOne({ where: { email } })] *)
Definition findOne (email : string) (s : Users) : option User :=
  List.find (fun u => bool_decide (UserDataService.email u = email)) (rows s).

Section service.
(** [JWT_SECRET] and [JWT_EXPIRES_IN]. *)
Variable JWT_SECRET : option string.
Variable JWT_EXPIRES_IN : option string.
(** The validator [isEmail] of the model. *)
Variable isEmail : string -> bool.
(** [jwt.sign({ email, id }, JWT_SECRET, { expiresIn })] at an instant, and
    [jwt.verify(token, JWT_SECRET)] at an instant: the payload, or nothing
    when the library throws. *)
Variable sign : Z -> string -> Z -> Outcome string.
Variable verify : Z -> string -> option User.

(** [db.User.create({ email })]: the validator of the model, the unique
    index of the table, and the identity column. *)
Definition create (email : string) (s : Users) : Outcome User * Users :=
  if negb (isEmail email)
  then (Rejected (PlainError "Validation error: Validation isEmail on email failed"), s)
  else if bool_decide (email ∈ UserDataService.email <$> rows s)
  then (Rejected (UniqueConstraintError "users_email_unq"), s)
  else
    let user := mkUser (users_id_seq s) email in
    (Resolved user, mkUsers (rows s ++ [user]) (users_id_seq s + 1)).

(** [authenticate(email)] at instant [now]. *)
Definition authenticate (now : Z) (email : string) (s : Users)
  : Outcome (string * User) * Users :=
  if bool_decide (email = "") then (Rejected (PlainError "Email is required"), s)
  else if negb (configured JWT_SECRET) || negb (configured JWT_EXPIRES_IN)
  then (Rejected (PlainError
          "JWT configuration is missing. Please set JWT_SECRET and JWT_EXPIRES_IN in environment variables."),
        s)
  else
    let found :=
      match findOne email s with
      | Some user => (Resolved user, s)
      | None => create email s
      end in
    match found with
    | (Rejected e, s') => (Rejected e, s')
    | (Resolved user, s') =>
        match sign now (UserDataService.email user) (id user) with
        | Rejected e => (Rejected e, s')
        | Resolved token => (Resolved (token, mkUser (id user) (UserDataService.email user)), s')
        end
    end.

(** [verifyToken(token)] at instant [now]. *)
Definition verifyToken (now : Z) (token : string) : Outcome User :=
  if negb (configured JWT_SECRET) then Rejected (PlainError "JWT_SECRET is not configured")
  else
    match verify now token with
    | Some payload => Resolved payload
    | None => Rejected (PlainError "Invalid or expired token")
    end.

(** The answer of [UserController.login]: the status, and the token and the
    user, or the error whose message is sent ([error.message], or
    ['Authentication failed'] when it is empty). *)
Definition login (now : Z) (email : string) (s : Users)
  : (Z * (Error + string * User)) * Users :=
  if bool_decide (email = "") then ((400, inl (PlainError "Email is required")), s)
  else
    match authenticate now email s with
    | (Resolved (token, user), s') => ((200, inr (token, user)), s')
    | (Rejected e, s') => ((401, inl e), s')
    end.

(** The token of an [Authorization] header: what follows ['Bearer '], or the
    header itself. *)
Definition bearerToken (authHeader : string) : string :=
  if String.prefix "Bearer " authHeader
  then String.substring 7 (String.length authHeader - 7) authHeader
  else authHeader.

(** [authMiddleware(req, res, next)] at instant [now]: the status and the
    error of the answer, or the [req.user] with which [next] is called. *)
Definition authMiddleware (now : Z) (authorization : option string)
  : (Z * string) + User :=
  match authorization with
  | None => inl (401, "Authentication required")
  | Some authHeader =>
      if bool_decide (authHeader = "") then inl (401, "Authentication required")
      else
        match verifyToken now (bearerToken authHeader) with
        | Resolved decoded => inr (mkUser (id decoded) (UserDataService.email decoded))
        | Rejected _ => inl (401, "Invalid or expired token")
        end
  end.

End service.

(** What the schema keeps true of the users table: [users_email_unq], and
    the identity sequence ahead of every id. *)
Definition consistent (s : Users) : Prop :=
  NoDup (email <$> rows s) /\ Forall (fun u => id u < users_id_seq s) (rows s).

End UserDataService.
(** ** Sample configurations and stores

    Concrete inputs at which the properties below are exercised. *)

Module Samples.
Import CircuitBreaker.

(** A breaker with threshold 3 and a one second timeout, persisted under the
    key of a platform. *)
Definition sampleParams : Params :=
  {| maxFailures := 3; resetTimeout := 1000; stateKey := Some "bluesky";
     loadStateFn := None; saveStateFn := true; onStateChange := true |}.

Definition sampleFailures : list (Z * Error) :=
  [(10, HttpError (Some 500)); (20, HttpError None); (30, HttpError (Some 503))].

(** The comment of the ingestion scenario, fetched twice 30 s apart by the
    tasks 1 and 2. *)
Definition sampleComments : list Comment.t :=
  [Comment.mk (Some "c1") (Some "hi") (Some "x") "p1";
   Comment.mk (Some "c1") (Some "hi") (Some "x") "p1";
   Comment.mk (Some "c2") (Some "hello") (Some "x") "p1"].

Definition sampleRuns : list (Z * Z) := [(1000, 1); (31000, 2)].

(** The reply scenario: one comment mention on bluesky, and the user who
    replies to it. *)
Definition sampleMention : Mention.t :=
  Mention.mk 1 "Test mention content" "test-ref-1" "test-post-ref" "bluesky"
    (inr COMMENT) None None None Mention.NoPayload 0.

Definition sampleUser : ReqUser.t := ReqUser.mk 7 "test@example.com".

(** A store that holds the mention and a reply task for it, started at
    390000 and not finished. *)
Definition sampleReplyTask : Task.t :=
  Task.mk 1 REPLY_MENTION
    (Task.mkData (Some 1) (Some "hello") (Some sampleUser) false None None None None)
    390000 (Some 390000) None "test@example.com".

Definition sampleReplyStore : DB.t :=
  DB.mk [Mention.withState (Some REPLY_ATTEMPT) sampleMention] [sampleReplyTask] [] ∅ 2 2 1.

Definition sampleWorld : BaseMentionAdapter.World :=
  BaseMentionAdapter.mkWorld sampleReplyStore [].

(** Bodies of the reply endpoint: one that carries [status: 'success'], one
    that only carries [success: true], one that carries neither. *)
Definition sampleEntry (platform : string) : option ReplyResponse.entry :=
  if bool_decide (platform = "bluesky")
  then Some (ReplyResponse.mkEntry "thanks" "reply-1")
  else None.

Definition statusBody : ReplyResponse.t :=
  ReplyResponse.mk (Some "success") false sampleEntry.

Definition successFlagBody : ReplyResponse.t :=
  ReplyResponse.mk None true sampleEntry.

Definition errorBody : ReplyResponse.t :=
  ReplyResponse.mk (Some "error") false (fun _ => None).

(** A gateway that answers with a given body, and one whose call fails. *)
Definition answering (body : ReplyResponse.t)
  : Mention.t -> option string -> ReqUser.t -> DB.t -> Outcome ReplyResponse.t * DB.t :=
  fun _ _ _ d => (Resolved body, d).

Definition failing (e : Error)
  : Mention.t -> option string -> ReqUser.t -> DB.t -> Outcome ReplyResponse.t * DB.t :=
  fun _ _ _ d => (Rejected e, d).

(** The fetch scenario: two posts of the history, and the store right after
    [fetchAndSyncMentions] has created its task for them at instant 0: the
    task is in flight and its [data.posts] are the post objects. *)
Definition samplePosts : list Post.t :=
  [Post.mk "p1" [("bluesky", "b1")]; Post.mk "p2" []].

Definition sampleInFlightFetch : DB.t :=
  (DB.createTask 0 FETCH_COMMENTS (Some 0) None "test@example.com"
     (Task.mkData None None (Some sampleUser) false None None
        (Some (Task.PostObject <$> samplePosts)) None)
     DB.empty).2.

(** Requests of the reply endpoint of the service. *)
Definition sampleActor : MentionDataService.Actor :=
  MentionDataService.mkActor (Some 7) (Some "test@example.com").

Definition negativeIdRequest : MentionDataService.ReplyParams :=
  MentionDataService.mkReplyParams (JsNumber (-5)) (JsString "hi") (Some sampleActor).

Definition textIdRequest : MentionDataService.ReplyParams :=
  MentionDataService.mkReplyParams (JsString "abc") (JsString "hi") (Some sampleActor).

End Samples.


(** ** More sample stores and operations *)

Module Scenarios.
Import Samples.

(** The store of the reply scenario once the reply was sent: the task is
    finished. *)
Definition sampleFinishedTask : Task.t :=
  Task.mk 1 REPLY_MENTION
    (Task.mkData (Some 1) (Some "hello") (Some sampleUser) false None (Some statusBody)
       None None)
    390000 (Some 390000) (Some 391000) "test@example.com".

Definition sampleSentWorld : BaseMentionAdapter.World :=
  BaseMentionAdapter.mkWorld
    (DB.mk [Mention.withState (Some REPLIED) sampleMention] [sampleFinishedTask] [] ∅ 2 2 1)
    [].

(** An operation on numbered entities that fails on the third. *)
Definition failsOnThird (e : Z) (index : nat) (data : list (option Z)) : Outcome Z :=
  if e =? 3 then Rejected (HttpError None) else Resolved (10 * e).

(** A token service for one user: it signs for the id 1 only, the token is
    the email, and a token is valid at every instant. *)
Definition sampleSign (now : Z) (email : string) (id : Z) : Outcome string :=
  if id =? 1 then Resolved email else Rejected (PlainError "secretOrPrivateKey must have a value").

Definition sampleVerify (now : Z) (token : string) : option UserDataService.User :=
  Some (UserDataService.mkUser 1 token).

Definition noUsers : UserDataService.Users := UserDataService.mkUsers [] 1.

Definition sampleAccepts (email : string) : bool := bool_decide (email = "test@example.com").

End Scenarios.
(** * Properties *)

(** ** The circuit breaker *)

Module CircuitBreakerProofs.
Import CircuitBreaker Samples.

Section facts.
Context {V : Type}.
Variable p : Params.

Lemma initializeState_done ls : initializeState p (mkBreaker ls true) = ls.
Proof. reflexivity. Qed.

Lemma changeState_same now ls : changeState p now (state ls) ls = (ls, []).
Proof. unfold changeState. by rewrite decide_True. Qed.

Lemma changeState_state now s ls : state (changeState p now s ls).1 = s.
Proof. unfold changeState. by case_decide. Qed.

Lemma run_app (calls1 calls2 : list (Z * Outcome V)) b :
  run p (calls1 ++ calls2) b =
  let '(b1, tr1) := run p calls1 b in
  let '(b2, tr2) := run p calls2 b1 in
  (b2, tr1 ++ tr2).
Proof.
  revert b. induction calls1 as [|[now r] calls1 IH]; intros b; simpl.
  - by destruct (run p calls2 b).
  - rewrite IH. destruct (run p calls1 _) as [b1 tr1].
    destruct (run p calls2 b1) as [b2 tr2]. by rewrite app_assoc.
Qed.

(** The call rejected by the gate leaves the breaker as it found it. *)
Lemma execute_gate_closed now (fn : option (Outcome V)) b :
  state (initializeState p b) = OPEN ->
  now < toNumber (nextAttemptTime (initializeState p b)) ->
  execute p now fn b =
    {| outcome := Rejected (CircuitOpenError (failures (initializeState p b))
                    (ceilDiv (toNumber (nextAttemptTime (initializeState p b)) - now) 1000));
       after := mkBreaker (initializeState p b) true;
       invocations := 0; trace := [] |}.
Proof.
  intros Hst Hlt. unfold execute. rewrite Hst.
  destruct (Z.leb_spec (toNumber (nextAttemptTime (initializeState p b))) now); [lia|done].
Qed.

(** A failure below the threshold keeps the circuit closed and writes the
    incremented counter. *)
Lemma execute_closed_failure now e ls :
  state ls = CLOSED ->
  failures ls + 1 < maxFailures p ->
  execute (V:=V) p now (Some (Rejected e)) (mkBreaker ls true) =
    {| outcome := Rejected e;
       after := mkBreaker (mkLocalState CLOSED (failures ls + 1) (Some now)
                             (nextAttemptTime ls)) true;
       invocations := 1;
       trace := persistState p now (mkLocalState CLOSED (failures ls + 1) (Some now)
                                      (nextAttemptTime ls)) |}.
Proof.
  intros Hst Hlt. destruct ls as [st f l n]. simpl in *. subst st.
  unfold execute. rewrite initializeState_done. simpl.
  destruct (Z.leb_spec (maxFailures p) (f + 1)); [lia|done].
Qed.

(** The failure that reaches the threshold opens the circuit. *)
Lemma execute_closed_trip now e ls :
  state ls = CLOSED ->
  maxFailures p <= failures ls + 1 ->
  execute (V:=V) p now (Some (Rejected e)) (mkBreaker ls true) =
    let opened := mkLocalState OPEN (failures ls + 1) (Some now) (Some (now + resetTimeout p)) in
    {| outcome := Rejected (CircuitTrippedError false (failures ls + 1)
                              (ceilDiv (resetTimeout p) 1000) e);
       after := mkBreaker opened true;
       invocations := 1;
       trace := Entered OPEN
                  :: (if onStateChange p
                      then [Notified OPEN (failures ls + 1) (Some now)
                              (Some (now + resetTimeout p))]
                      else [])
                  ++ persistState p now opened |}.
Proof.
  intros Hst Hge. destruct ls as [st f l n]. simpl in *. subst st.
  unfold execute. rewrite initializeState_done. simpl.
  destruct (Z.leb_spec (maxFailures p) (f + 1)); [|lia]. done.
Qed.

(** The probe that succeeds closes the circuit and writes the reset state. *)
Lemma execute_probe_success now (v : V) ls :
  state ls = OPEN ->
  toNumber (nextAttemptTime ls) <= now ->
  execute p now (Some (Resolved v)) (mkBreaker ls true) =
    let half := mkLocalState HALF_OPEN (failures ls) (lastFailureTime ls) (nextAttemptTime ls) in
    let closed := mkLocalState CLOSED 0 None None in
    {| outcome := Resolved v;
       after := mkBreaker closed true;
       invocations := 1;
       trace := (Entered HALF_OPEN
                   :: (if onStateChange p
                       then [Notified HALF_OPEN (failures ls) (lastFailureTime ls)
                               (nextAttemptTime ls)]
                       else [])
                   ++ persistState p now half)
                ++ (Entered CLOSED
                      :: (if onStateChange p then [Notified CLOSED 0 None None] else [])
                      ++ persistState p now closed) |}.
Proof.
  intros Hst Hge. destruct ls as [st f l n]. simpl in *. subst st.
  unfold execute. rewrite initializeState_done. simpl.
  destruct (Z.leb_spec (toNumber n) now); [|lia]. done.
Qed.

(** A success met in the closed state resets the counters in memory and
    does nothing else. *)
Lemma execute_closed_success now (v : V) b :
  state (initializeState p b) = CLOSED ->
  execute p now (Some (Resolved v)) b =
    {| outcome := Resolved v;
       after := mkBreaker (mkLocalState CLOSED 0 None None) true;
       invocations := 1; trace := [] |}.
Proof.
  intros Hst. unfold execute. rewrite Hst. simpl.
  unfold changeState. simpl. by rewrite Hst.
Qed.

Lemma writes_app tr1 tr2 : writes (tr1 ++ tr2) = writes tr1 ++ writes tr2.
Proof. unfold writes. by rewrite omap_app. Qed.

Lemma entered_app tr1 tr2 : entered (tr1 ++ tr2) = entered tr1 ++ entered tr2.
Proof. unfold entered. by rewrite omap_app. Qed.

Lemma entered_persistState now ls : entered (persistState p now ls) = [].
Proof. unfold persistState. by repeat case_match. Qed.

Lemma entered_notified (c : bool) s f l n : entered (if c then [Notified s f l n] else []) = [].
Proof. by destruct c. Qed.

Lemma writes_notified (c : bool) s f l n : writes (if c then [Notified s f l n] else []) = [].
Proof. by destruct c. Qed.

Lemma writes_persistState now key ls :
  saveStateFn p = true -> truthyKey (stateKey p) = Some key ->
  writes (persistState p now ls) = [(key, mkStateData ls now)].
Proof. intros Hs Hk. unfold persistState. by rewrite Hs, Hk. Qed.

(** The call that finds the circuit OPEN at or after [nextAttemptTime]: the
    circuit enters HALF_OPEN, the wrapped function is called, and its
    outcome closes the circuit or opens it again. *)
Lemma execute_probe now (r : Outcome V) b :
  state (initializeState p b) = OPEN ->
  toNumber (nextAttemptTime (initializeState p b)) <= now ->
  let ls := initializeState p b in
  let half := mkLocalState HALF_OPEN (failures ls) (lastFailureTime ls) (nextAttemptTime ls) in
  let entering :=
    Entered HALF_OPEN
      :: (if onStateChange p
          then [Notified HALF_OPEN (failures ls) (lastFailureTime ls) (nextAttemptTime ls)]
          else [])
      ++ persistState p now half in
  execute p now (Some r) b =
    match r with
    | Resolved v =>
        {| outcome := Resolved v;
           after := mkBreaker initialLocalState true;
           invocations := 1;
           trace := entering
                    ++ (Entered CLOSED
                          :: (if onStateChange p then [Notified CLOSED 0 None None] else [])
                          ++ persistState p now initialLocalState) |}
    | Rejected e =>
        let opened :=
          mkLocalState OPEN (failures ls + 1) (Some now) (Some (now + resetTimeout p)) in
        {| outcome := Rejected (CircuitTrippedError false (failures ls + 1)
                                  (ceilDiv (resetTimeout p) 1000) e);
           after := mkBreaker opened true;
           invocations := 1;
           trace := entering
                    ++ (Entered OPEN
                          :: (if onStateChange p
                              then [Notified OPEN (failures ls + 1) (Some now)
                                      (Some (now + resetTimeout p))]
                              else [])
                          ++ persistState p now opened) |}
    end.
Proof.
  intros Hst Hge. cbn zeta. unfold execute.
  destruct (initializeState p b) as [st f l n]. simpl in *. subst st.
  destruct (Z.leb_spec (toNumber n) now); [|lia].
  destruct r as [v|e]; reflexivity.
Qed.

(** The call that starts in HALF_OPEN passes the gate as it is. *)
Lemma execute_half_open now (r : Outcome V) half :
  state half = HALF_OPEN ->
  execute p now (Some r) (mkBreaker half true) =
    match r with
    | Resolved v =>
        {| outcome := Resolved v;
           after := mkBreaker initialLocalState true;
           invocations := 1;
           trace := Entered CLOSED
                      :: (if onStateChange p then [Notified CLOSED 0 None None] else [])
                      ++ persistState p now initialLocalState |}
    | Rejected e =>
        let opened :=
          mkLocalState OPEN (failures half + 1) (Some now) (Some (now + resetTimeout p)) in
        {| outcome := Rejected (CircuitTrippedError false (failures half + 1)
                                  (ceilDiv (resetTimeout p) 1000) e);
           after := mkBreaker opened true;
           invocations := 1;
           trace := Entered OPEN
                      :: (if onStateChange p
                          then [Notified OPEN (failures half + 1) (Some now)
                                  (Some (now + resetTimeout p))]
                          else [])
                      ++ persistState p now opened |}
    end.
Proof.
  intros Hst. unfold execute. rewrite initializeState_done.
  destruct half as [st f l n]. simpl in *. subst st.
  destruct r as [v|e]; reflexivity.
Qed.

(** A streak of failures that stays below the threshold: the circuit stays
    closed, and each failure writes the counter it reached. *)
Lemma run_closed_streak (fails : list (Z * Error)) ls :
  state ls = CLOSED ->
  failures ls + Z.of_nat (length fails) < maxFailures p ->
  exists ls' tr,
    run (V:=V) p ((fun te => (te.1, Rejected te.2)) <$> fails) (mkBreaker ls true)
      = (mkBreaker ls' true, tr)
    /\ state ls' = CLOSED
    /\ failures ls' = failures ls + Z.of_nat (length fails)
    /\ entered tr = []
    /\ Forall (fun w => state (snapshot w.2) = CLOSED) (writes tr).
Proof.
  revert ls. induction fails as [|[t e] fails IH]; intros ls Hst Hlt.
  - exists ls, []. simpl in *. repeat split; auto; lia.
  - rewrite fmap_cons. cbn [run fst snd]. rewrite length_cons in Hlt.
    rewrite execute_closed_failure by (auto; lia). cbn [after trace].
    destruct (IH (mkLocalState CLOSED (failures ls + 1) (Some t) (nextAttemptTime ls)))
      as (ls' & tr & Hrun & Hst' & Hf & Hent & Hw); [done|simpl; lia|].
    rewrite Hrun. eexists _, _. split; [done|]. repeat split; auto.
    + simpl in Hf. rewrite length_cons. lia.
    + by rewrite entered_app, entered_persistState, Hent.
    + rewrite writes_app. apply Forall_app. split; [|done].
      unfold persistState. repeat case_match; repeat constructor; done.
Qed.


(** C3.  From the closed state with zero failures, [maxFailures] consecutive
    failures followed by one successful probe at or after [nextAttemptTime]
    take the circuit through CLOSED, OPEN, HALF_OPEN and CLOSED in that
    order.  The write of the transition out of CLOSED carries
    [nextAttemptTime = now + resetTimeout], which lies after [now], and the
    write of the transition back to CLOSED carries [failures = 0]. *)
Theorem C3_breaker_cycle (key : string) (fails : list (Z * Error)) (tlast : Z)
    (elast : Error) (tp : Z) (v : V) (start : LocalState) :
  1 <= maxFailures p ->
  0 < resetTimeout p ->
  saveStateFn p = true ->
  truthyKey (stateKey p) = Some key ->
  state start = CLOSED ->
  failures start = 0 ->
  Z.of_nat (length fails) = maxFailures p ->
  last fails = Some (tlast, elast) ->
  tlast + resetTimeout p <= tp ->
  let calls := ((fun te => (te.1, Rejected te.2)) <$> fails) ++ [(tp, Resolved v)] in
  let nextAttempt := tlast + resetTimeout p in
  let opened := mkLocalState OPEN (maxFailures p) (Some tlast) (Some nextAttempt) in
  let half := mkLocalState HALF_OPEN (maxFailures p) (Some tlast) (Some nextAttempt) in
  let closed := mkLocalState CLOSED 0 None None in
  (run p calls (mkBreaker start true)).1 = mkBreaker closed true
  /\ visited CLOSED (run p calls (mkBreaker start true)).2 = [CLOSED; OPEN; HALF_OPEN; CLOSED]
  /\ tlast < nextAttempt
  /\ exists streak,
       Forall (fun w => state (snapshot w.2) = CLOSED) streak
       /\ writes (run p calls (mkBreaker start true)).2
          = streak ++ [(key, mkStateData opened tlast);
                       (key, mkStateData half tp);
                       (key, mkStateData closed tp)].
Proof.
  intros Hmax Hreset Hsave Hkey Hst Hf Hlen Hlast Hprobe. cbn zeta.
  apply last_Some in Hlast as [streak ->].
  rewrite length_app in Hlen. simpl in Hlen.
  destruct (run_closed_streak streak start) as (ls & tr & Hrun & Hst' & Hf' & Hent & Hw);
    [done|lia|].
  assert (Hfl : failures ls + 1 = maxFailures p) by lia.
  rewrite fmap_app, <- app_assoc, run_app, Hrun. simpl.
  rewrite execute_closed_trip by (auto; lia). cbn [after trace].
  rewrite execute_probe_success by (simpl; auto; lia). cbn [after trace]. simpl.
  rewrite Hfl. repeat split.
  - unfold visited. rewrite !entered_app, Hent. simpl.
    unfold persistState. rewrite Hsave, Hkey. by destruct (onStateChange p).
  - lia.
  - exists (writes tr). split; [done|].
    rewrite writes_app. f_equal.
    unfold persistState. rewrite Hsave, Hkey. by destruct (onStateChange p).
Qed.

(** C4.  A call that finds the circuit OPEN: before [nextAttemptTime] it is
    rejected at once and the wrapped function is not called; from
    [nextAttemptTime] on the circuit enters HALF_OPEN and the wrapped
    function is called exactly once, as a probe.  The probe runs in
    HALF_OPEN: the call settles and leaves the breaker as a call that starts
    in HALF_OPEN does, the state written on the way in is HALF_OPEN, a probe
    that succeeds closes the circuit with its counters reset, and a probe
    that fails opens it again until [now + resetTimeout], whatever the count
    of failures is. *)
Theorem C4_open_gate (now : Z) (fn : Outcome V) (b : Breaker) :
  state (initializeState p b) = OPEN ->
  let ls := initializeState p b in
  let ex := execute p now (Some fn) b in
  (now < toNumber (nextAttemptTime ls) ->
     outcome ex = Rejected (CircuitOpenError (failures ls)
                              (ceilDiv (toNumber (nextAttemptTime ls) - now) 1000))
     /\ invocations ex = 0%nat
     /\ localState (after ex) = ls
     /\ trace ex = [])
  /\ (toNumber (nextAttemptTime ls) <= now ->
     let half :=
       mkLocalState HALF_OPEN (failures ls) (lastFailureTime ls) (nextAttemptTime ls) in
     let probe := execute p now (Some fn) (mkBreaker half true) in
     invocations ex = 1%nat
     /\ head (entered (trace ex)) = Some HALF_OPEN
     /\ (outcome ex = outcome probe
         /\ after ex = after probe
         /\ trace ex = (changeState p now HALF_OPEN ls).2 ++ trace probe)
     /\ (forall key, saveStateFn p = true -> truthyKey (stateKey p) = Some key ->
           head (writes (trace ex)) = Some (key, mkStateData half now))
     /\ match fn with
        | Resolved v =>
            outcome ex = Resolved v
            /\ localState (after ex) = initialLocalState
            /\ entered (trace ex) = [HALF_OPEN; CLOSED]
        | Rejected e =>
            outcome ex = Rejected (CircuitTrippedError false (failures ls + 1)
                                     (ceilDiv (resetTimeout p) 1000) e)
            /\ localState (after ex)
               = mkLocalState OPEN (failures ls + 1) (Some now) (Some (now + resetTimeout p))
            /\ entered (trace ex) = [HALF_OPEN; OPEN]
        end).
Proof.
  intros Hst. cbn zeta. split.
  - intros Hlt. by rewrite execute_gate_closed.
  - intros Hge. rewrite execute_probe by done. cbn zeta.
    rewrite execute_half_open by done.
    assert (Hentering :
              (changeState p now HALF_OPEN (initializeState p b)).2
              = Entered HALF_OPEN
                  :: (if onStateChange p
                      then [Notified HALF_OPEN (failures (initializeState p b))
                              (lastFailureTime (initializeState p b))
                              (nextAttemptTime (initializeState p b))]
                      else [])
                  ++ persistState p now
                       (mkLocalState HALF_OPEN (failures (initializeState p b))
                          (lastFailureTime (initializeState p b))
                          (nextAttemptTime (initializeState p b)))).
    { unfold changeState. rewrite Hst. by rewrite decide_False. }
    rewrite Hentering.
    assert (Hcons : forall (ev : Effect) l, ev :: l = [ev] ++ l) by done.
    assert (Hwrites : forall key rest,
              saveStateFn p = true -> truthyKey (stateKey p) = Some key ->
              head (writes ((Entered HALF_OPEN
                               :: (if onStateChange p
                                   then [Notified HALF_OPEN (failures (initializeState p b))
                                           (lastFailureTime (initializeState p b))
                                           (nextAttemptTime (initializeState p b))]
                                   else [])
                               ++ persistState p now
                                    (mkLocalState HALF_OPEN (failures (initializeState p b))
                                       (lastFailureTime (initializeState p b))
                                       (nextAttemptTime (initializeState p b))))
                            ++ rest))
              = Some (key,
                      mkStateData
                        (mkLocalState HALF_OPEN (failures (initializeState p b))
                           (lastFailureTime (initializeState p b))
                           (nextAttemptTime (initializeState p b))) now)).
    { intros key rest Hsave Hkey. rewrite Hcons, !writes_app, writes_notified.
      by rewrite (writes_persistState _ key). }
    assert (Hentered : forall s f l n ls',
              entered (Entered s :: (if onStateChange p then [Notified s f l n] else [])
                         ++ persistState p now ls') = [s]).
    { intros s f l n ls'. rewrite Hcons, !entered_app, entered_notified.
      by rewrite entered_persistState. }
    destruct fn as [v|e]; cbn [outcome after invocations trace localState failures];
      rewrite entered_app, !Hentered; auto 10.
Qed.


(** C10.  The breaker writes its state only with a transition or with a
    failure met in the closed state.  A success met in the closed state
    resets [failures], [lastFailureTime] and [nextAttemptTime] in memory and
    writes nothing, so after a failure and a success the stored row, which
    the health snapshot reads, still holds the failure count and the instant
    of the failure. *)
Theorem C10_persistence_gaps (key : string) (now : Z) (fn : option (Outcome V))
    (b : Breaker) (t1 t2 : Z) (e : Error) (v : V) (start : LocalState) :
  saveStateFn p = true ->
  truthyKey (stateKey p) = Some key ->
  1 < maxFailures p ->
  state start = CLOSED ->
  failures start = 0 ->
  let ls := initializeState p b in
  let ex := execute p now fn b in
  let lagging := run p [(t1, Rejected e); (t2, Resolved v)] (mkBreaker start true) in
  let row := mkStateData (mkLocalState CLOSED 1 (Some t1) (nextAttemptTime start)) t1 in
  (writes (trace ex) <> [] ->
     entered (trace ex) <> [] \/ (state ls = CLOSED /\ isRejected (outcome ex) = true))
  /\ (state ls = CLOSED -> forall v', fn = Some (Resolved v') ->
        localState (after ex) = mkLocalState CLOSED 0 None None /\ trace ex = [])
  /\ localState lagging.1 = mkLocalState CLOSED 0 None None
  /\ writes lagging.2 = [(key, row)]
  /\ SocialMediaService.landed lagging.2 ∅ !! key = Some row
  /\ SocialMediaService.circuits
       (SocialMediaService.findHealth (SocialMediaService.landed lagging.2 ∅))
     = [SocialMediaService.mkCircuitHealth key CLOSED 1 (Some t1) (nextAttemptTime start) true].
Proof.
  intros Hsave Hkey Hmax Hst Hf. cbn zeta.
  assert (Hlag : run p [(t1, Rejected e); (t2, Resolved v)] (mkBreaker start true)
                 = (mkBreaker (mkLocalState CLOSED 0 None None) true,
                    [Saved key (mkStateData
                       (mkLocalState CLOSED 1 (Some t1) (nextAttemptTime start)) t1)])).
  { cbn [run]. rewrite execute_closed_failure by (auto; lia). cbn [after trace].
    rewrite execute_closed_success by done. cbn [after trace].
    unfold persistState. rewrite Hsave, Hkey, Hf. done. }
  rewrite Hlag. cbn [fst snd]. split; [|split; [|split; [|split; [|split]]]].
  - unfold execute. destruct (initializeState p b) as [st f l n]. cbn [state].
    destruct st.
    + destruct fn as [[v'|e']|]; simpl.
      * intros Hw. by destruct Hw.
      * intros _. right. by destruct (maxFailures p <=? f + 1).
      * intros _. right. by destruct (maxFailures p <=? f + 1).
    + simpl. destruct (toNumber n <=? now); simpl; [|intros Hw; by destruct Hw].
      intros _. left. destruct fn as [[v'|e']|]; simpl; try done;
        by destruct (maxFailures p <=? f + 1).
    + intros _. left. destruct fn as [[v'|e']|]; simpl; done.
  - intros Hcl v' ->. by rewrite execute_closed_success.
  - done.
  - done.
  - unfold SocialMediaService.landed. simpl. by rewrite lookup_insert_eq.
  - unfold SocialMediaService.landed, SocialMediaService.findHealth. simpl.
    rewrite insert_empty, map_to_list_singleton. done.
Qed.

End facts.

(** C3 for a threshold of 3 and a timeout of one second. *)
Lemma C3_breaker_cycle_witness :
  let calls := ((fun te => (te.1, Rejected te.2)) <$> sampleFailures) ++ [(1030, Resolved ())] in
  (1 <= maxFailures sampleParams
   /\ 0 < resetTimeout sampleParams
   /\ Z.of_nat (length sampleFailures) = maxFailures sampleParams
   /\ last sampleFailures = Some (30, HttpError (Some 503))
   /\ 30 + resetTimeout sampleParams <= 1030)
  /\ visited CLOSED (run sampleParams calls (mkBreaker initialLocalState true)).2
     = [CLOSED; OPEN; HALF_OPEN; CLOSED].
Proof.
  cbn zeta. split.
  - repeat split; try reflexivity; simpl; lia.
  - apply (C3_breaker_cycle sampleParams "bluesky" sampleFailures 30 (HttpError (Some 503))
             1030 () initialLocalState); try reflexivity; simpl; lia.
Defined.

(** C4 on a circuit opened until 1030: a call at 40 is rejected by the
    gate, a call at 1030 is the probe that closes the circuit. *)
Lemma C4_open_gate_witness :
  let b := mkBreaker (mkLocalState OPEN 3 (Some 30) (Some 1030)) true in
  state (initializeState sampleParams b) = OPEN
  /\ invocations (execute sampleParams 40 (Some (Resolved ())) b) = 0%nat
  /\ invocations (execute sampleParams 1030 (Some (Resolved ())) b) = 1%nat
  /\ localState (after (execute sampleParams 1030 (Some (Resolved ())) b)) = initialLocalState
  /\ entered (trace (execute sampleParams 1030 (Some (Resolved ())) b)) = [HALF_OPEN; CLOSED].
Proof.
  cbn zeta. split; [reflexivity|].
  destruct (C4_open_gate sampleParams 40 (Resolved ())
              (mkBreaker (mkLocalState OPEN 3 (Some 30) (Some 1030)) true) eq_refl)
    as [Hearly _].
  destruct (C4_open_gate sampleParams 1030 (Resolved ())
              (mkBreaker (mkLocalState OPEN 3 (Some 30) (Some 1030)) true) eq_refl)
    as [_ Hlate].
  destruct Hearly as (_ & Hnone & _); [simpl; lia|].
  destruct Hlate as (Hone & _ & _ & _ & _ & Hclosed & Hentered); [simpl; lia|].
  split; [exact Hnone|]. split; [exact Hone|]. split; [exact Hclosed|exact Hentered].
Defined.

(** C10 after a failure at 10 and a success at 20. *)
Lemma C10_persistence_gaps_witness :
  let lagging :=
    run sampleParams [(10, Rejected (HttpError (Some 500))); (20, Resolved ())]
      (mkBreaker initialLocalState true) in
  (1 < maxFailures sampleParams)
  /\ localState lagging.1 = mkLocalState CLOSED 0 None None
  /\ SocialMediaService.circuits
       (SocialMediaService.findHealth (SocialMediaService.landed lagging.2 ∅))
     = [SocialMediaService.mkCircuitHealth "bluesky" CLOSED 1 (Some 10) None true].
Proof.
  cbn zeta. split; [simpl; lia|].
  pose proof (C10_persistence_gaps sampleParams "bluesky" 0 (Some (Resolved ())) create
                10 20 (HttpError (Some 500)) () initialLocalState
                eq_refl eq_refl ltac:(simpl; lia) eq_refl eq_refl) as H.
  cbn zeta in H. exact (conj (proj1 (proj2 (proj2 H))) (proj2 (proj2 (proj2 (proj2 (proj2 H)))))).
Defined.

End CircuitBreakerProofs.
(** ** The retry engine *)

Module RetryProofs.
Import ExponentialBackoff.

Section facts.
Context {St V : Type}.
Variable p : Params.
Variable executeFunction : nat -> St -> Outcome V * St.
Variable shouldRetry : Error -> St -> bool.
Variable random : nat -> Q.

Lemma loop_executions fuel attempt s :
  (executions (loop p executeFunction shouldRetry random fuel attempt s) <= fuel)%nat.
Proof.
  revert attempt s. induction fuel as [|fuel IH]; intros attempt s; simpl; [lia|].
  destruct (executeFunction attempt s) as [[v|e] s']; simpl; [lia|].
  case_match; simpl; [lia|]. specialize (IH (S attempt) s'). lia.
Qed.

Lemma loop_executes fuel attempt s :
  (1 <= fuel)%nat ->
  (1 <= executions (loop p executeFunction shouldRetry random fuel attempt s))%nat.
Proof.
  destruct fuel as [|fuel]; [lia|]. intros _. simpl.
  destruct (executeFunction attempt s) as [[v|e] s']; simpl; [lia|].
  case_match; simpl; lia.
Qed.

(** Along the loop of [retry] the counter and the iterations left add up to
    [maxRetries + 1]: the last iteration is the one at [maxRetries], and it
    never sleeps. *)
Lemma loop_sleeps_length fuel attempt s :
  Z.of_nat (attempt + fuel) = maxRetries p + 1 ->
  length (sleeps (loop p executeFunction shouldRetry random fuel attempt s))
  = pred (executions (loop p executeFunction shouldRetry random fuel attempt s)).
Proof.
  revert attempt s. induction fuel as [|fuel IH]; intros attempt s Hsum; simpl; [done|].
  destruct (executeFunction attempt s) as [[v|e] s']; simpl; [done|].
  destruct (bool_decide (Z.of_nat attempt = maxRetries p)) eqn:Hlast; simpl; [done|].
  apply bool_decide_eq_false in Hlast.
  destruct (shouldRetry e s'); simpl; [|done].
  rewrite IH by lia.
  pose proof (loop_executes fuel (S attempt) s') as Hex.
  assert (1 <= fuel)%nat by lia. specialize (Hex H). lia.
Qed.

Lemma loop_sleeps_lookup fuel attempt s (i : nat) w :
  sleeps (loop p executeFunction shouldRetry random fuel attempt s) !! i = Some w ->
  w = waitTime p random (attempt + i).
Proof.
  revert attempt s i. induction fuel as [|fuel IH]; intros attempt s i; simpl; [done|].
  destruct (executeFunction attempt s) as [[v|e] s']; simpl; [done|].
  case_match; simpl; [done|].
  destruct i as [|i]; simpl.
  - intros [= <-]. by rewrite Nat.add_0_r.
  - intros H'. apply IH in H'. by rewrite <- Nat.add_succ_comm.
Qed.

Lemma jitter_range (k : nat) :
  (0 <= random k)%Q -> (random k < 1)%Q -> 0 <= jitter random k <= 1000.
Proof.
  intros Hlo Hhi. unfold jitter. split.
  - change 0 with (Qceiling (inject_Z 0)). apply Qceiling_resp_le.
    change (inject_Z 0) with (0 * 1000)%Q. apply Qmult_le_compat_r; [done|]. done.
  - rewrite <- (Qceiling_Z 1000). apply Qceiling_resp_le.
    change (inject_Z 1000) with (1 * 1000)%Q. apply Qmult_le_compat_r; [|done].
    by apply Qlt_le_weak.
Qed.

(** C8, as the code has it.  The retry engine executes the operation at most
    [maxRetries + 1] times; the sleep after the failed attempt of index [i]
    is [min(initialDelay * factor^i + jitter, maxDelay)] with
    [jitter = ceil(1000 * Math.random())] in [0, 1000]; the default
    configuration is [maxRetries = 5], [initialDelay = 1000],
    [maxDelay = 10000], [factor = 2], and the Social Gateway passes
    [maxRetries = 3] with the same delays. *)
Theorem C8_retry_engine (s : St) :
  (forall k, (0 <= random k)%Q /\ (random k < 1)%Q) ->
  let r := retry p executeFunction shouldRetry random s in
  (executions r <= Z.to_nat (maxRetries p + 1))%nat
  /\ length (sleeps r) = pred (executions r)
  /\ (forall (i : nat) w, sleeps r !! i = Some w ->
        w = Z.min (initialDelay p * factor p ^ Z.of_nat i + jitter random i) (maxDelay p)
        /\ 0 <= jitter random i <= 1000)
  /\ defaultParams = mkParams 5 1000 10000 2
  /\ SocialMediaService.retryParams = mkParams 3 1000 10000 2.
Proof.
  intros Hrandom. cbn zeta. unfold retry. repeat split.
  - apply loop_executions.
  - destruct (Z.le_gt_cases (maxRetries p + 1) 0) as [Hneg|Hpos].
    + by replace (Z.to_nat (maxRetries p + 1)) with 0%nat by lia.
    + apply loop_sleeps_length. lia.
  - by apply loop_sleeps_lookup in H.
  - by apply jitter_range; apply Hrandom.
  - by apply jitter_range; apply Hrandom.
Qed.

End facts.

(** C8, as stated, fails on the default configuration: [maxRetries] defaults
    to 5, not to 3. *)
Lemma C8_default_maxRetries_counterexample :
  ~ (maxRetries defaultParams = 3 /\ initialDelay defaultParams = 1000
     /\ maxDelay defaultParams = 10000 /\ factor defaultParams = 2).
Proof. intros [H _]. discriminate H. Qed.

(** C8 on the default configuration, an operation that always fails and a
    random source that always draws one half. *)
Lemma C8_retry_engine_witness :
  let r := retry (V:=unit) defaultParams
             (fun attempt (calls : nat) => (Rejected (HttpError (Some 503)), S calls))
             (fun _ _ => true) (fun _ => 1 # 2) 0%nat in
  executions r = 6%nat
  /\ sleeps r = [1500; 2500; 4500; 8500; 10000]
  /\ (executions r <= Z.to_nat (maxRetries defaultParams + 1))%nat.
Proof.
  cbn zeta. split; [reflexivity|]. split; [reflexivity|].
  apply (C8_retry_engine defaultParams
           (fun attempt (calls : nat) => (Rejected (HttpError (Some 503)), S calls))
           (fun _ _ => true) (fun _ => 1 # 2) 0%nat).
  intros k. split; [discriminate | reflexivity].
Defined.

End RetryProofs.

(** ** The handler of the Social Gateway *)

Module GatewayProofs.
Import CircuitBreaker SocialMediaService.

Section facts.
Context {V : Type}.
Variable tbl : gmap string StateData.
Variable platform : string.
Variable clock : nat -> Z.
Variable requestFn : nat -> Outcome V.
Variable random : nat -> Q.

(** A call that does not find the circuit closed and fails leaves it open. *)
Lemma execute_rejected_open (p : Params) now (fn : option (Outcome V)) b :
  state (initializeState p b) <> CLOSED ->
  isRejected (outcome (execute p now fn b)) = true ->
  getState (after (execute p now fn b)) = OPEN.
Proof.
  unfold execute, getState. destruct (initializeState p b) as [st f l n]. cbn [state].
  destruct st; [done| |]; intros _.
  - simpl. destruct (toNumber n <=? now); simpl; [|done].
    destruct fn as [[v|e]|]; simpl; done.
  - destruct fn as [[v|e]|]; simpl; done.
Qed.

Lemma execute_invocations (p : Params) now (fn : option (Outcome V)) b :
  (invocations (execute p now fn b) <= 1)%nat.
Proof.
  unfold execute. destruct (initializeState p b) as [st f l n]. cbn [state].
  destruct st; simpl.
  - destruct fn as [[v|e]|]; simpl; [lia| |]; destruct (maxFailures p <=? f + 1); simpl; lia.
  - destruct (toNumber n <=? now); simpl; [|lia].
    destruct fn as [[v|e]|]; simpl; lia.
  - destruct fn as [[v|e]|]; simpl; lia.
Qed.

(** C5.  When the breaker is not CLOSED, one logical call through the
    handler is one call of the breaker: the underlying operation is attempted
    at most once, nothing sleeps, no retry is spent, and the caller gets what
    the breaker settled to; a call rejected by the open circuit does not reach
    the underlying operation at all. *)
Theorem C5_retry_honours_breaker (h : Handler) :
  stateInitialized (breaker h) = true ->
  getState (breaker h) <> CLOSED ->
  let r := httpHandler tbl platform clock requestFn random h in
  let ex := execute (breakerParams tbl platform) (clock 0%nat) (Some (requestFn 0%nat))
              (breaker h) in
  ExponentialBackoff.executions r = 1%nat
  /\ ExponentialBackoff.sleeps r = []
  /\ (requests (ExponentialBackoff.final r) <= requests h + 1)%nat
  /\ breaker (ExponentialBackoff.final r) = after ex
  /\ ExponentialBackoff.settled r
     = match outcome ex with
       | Resolved v => ExponentialBackoff.Returned v
       | Rejected e => ExponentialBackoff.Thrown e
       end
  /\ (getState (breaker h) = OPEN ->
      clock 0%nat < toNumber (nextAttemptTime (localState (breaker h))) ->
      requests (ExponentialBackoff.final r) = requests h
      /\ ExponentialBackoff.settled r
         = ExponentialBackoff.Thrown
             (CircuitOpenError (failures (localState (breaker h)))
                (ceilDiv (toNumber (nextAttemptTime (localState (breaker h))) - clock 0%nat)
                   1000))).
Proof.
  intros Hinit Hstate. cbn zeta.
  assert (Hls : initializeState (breakerParams tbl platform) (breaker h) = localState (breaker h)).
  { unfold initializeState. by rewrite Hinit. }
  pose proof (execute_rejected_open (breakerParams tbl platform) (clock 0%nat)
                (Some (requestFn 0%nat)) (breaker h)) as Hopen.
  pose proof (execute_invocations (breakerParams tbl platform) (clock 0%nat)
                (Some (requestFn 0%nat)) (breaker h)) as Hinv.
  rewrite Hls in Hopen. specialize (Hopen Hstate).
  assert (Hgate : getState (breaker h) = OPEN ->
            clock 0%nat < toNumber (nextAttemptTime (localState (breaker h))) ->
            execute (breakerParams tbl platform) (clock 0%nat) (Some (requestFn 0%nat)) (breaker h)
            = mkExec (Rejected (CircuitOpenError (failures (localState (breaker h)))
                       (ceilDiv (toNumber (nextAttemptTime (localState (breaker h)))
                                 - clock 0%nat) 1000)))
                     (mkBreaker (localState (breaker h)) true) 0%nat []).
  { intros Ho Hlt. rewrite <- Hls. apply CircuitBreakerProofs.execute_gate_closed;
      rewrite Hls; done. }
  unfold httpHandler, ExponentialBackoff.retry. simpl.
  destruct (execute _ _ _ _) as [[v|e] b' n tr] eqn:Hex; simpl in *.
  - split; [done|]. split; [done|]. split; [lia|]. split; [done|]. split; [done|].
    intros Ho Hlt. by specialize (Hgate Ho Hlt).
  - specialize (Hopen eq_refl). unfold shouldRetry. simpl. rewrite Hopen. simpl.
    split; [done|]. split; [done|]. split; [lia|]. split; [done|]. split; [done|].
    intros Ho Hlt. specialize (Hgate Ho Hlt). injection Hgate as He _ Hn _.
    rewrite He, Hn. split; [lia|done].
Qed.

End facts.

(** C5 on a circuit opened until 61000, called at 2000. *)
Lemma C5_retry_honours_breaker_witness :
  let h := mkHandler (mkBreaker (mkLocalState OPEN 5 (Some 1000) (Some 61000)) true) 0 [] in
  let r := httpHandler (V:=unit) ∅ "bluesky" (fun k => 2000 + Z.of_nat k)
             (fun _ => Rejected (HttpError None)) (fun _ => 1 # 2) h in
  getState (breaker h) <> CLOSED
  /\ ExponentialBackoff.executions r = 1%nat
  /\ ExponentialBackoff.sleeps r = []
  /\ requests (ExponentialBackoff.final r) = 0%nat
  /\ ExponentialBackoff.settled r = ExponentialBackoff.Thrown (CircuitOpenError 5 59).
Proof.
  cbn zeta. split; [discriminate|].
  pose proof (C5_retry_honours_breaker (V:=unit) ∅ "bluesky" (fun k => 2000 + Z.of_nat k)
                (fun _ => Rejected (HttpError None)) (fun _ => 1 # 2)
                (mkHandler (mkBreaker (mkLocalState OPEN 5 (Some 1000) (Some 61000)) true) 0 [])
                eq_refl ltac:(discriminate)) as H.
  cbn zeta in H. destruct H as (H1 & H2 & _ & _ & _ & H6).
  destruct (H6 eq_refl ltac:(simpl; lia)) as [H7 H8].
  exact (conj H1 (conj H2 (conj H7 H8))).
Defined.

End GatewayProofs.

(** ** Ingestion *)

Module IngestionProofs.
Import BaseMentionAdapter MentionCommentAdapter Samples.

Lemma platformRefTaken_spec ref d : DB.platformRefTaken ref d = true <-> ref ∈ DB.platformRefs d.
Proof. unfold DB.platformRefTaken. by rewrite bool_decide_eq_true. Qed.

Lemma valuesRow_ref now m pk : Mention.socialMediaPlatformRef (valuesRow now m pk) = storedRef m.
Proof. done. Qed.

(** Rows inserted under [on conflict do nothing]: the statement succeeds,
    the table only grows, and it grows by the refs it did not hold. *)
Lemma insertAll_spec now (ms : list NewMention) d :
  NoDup (DB.platformRefs d) ->
  exists added,
    insertAll (valuesRow now <$> ms) d
      = (Resolved (),
         DB.mk (DB.mentions d ++ added) (DB.tasks d) (DB.audits d)
               (DB.circuit_breaker_states d)
               (DB.mentions_id_seq d + Z.of_nat (length added))
               (DB.tasks_id_seq d) (DB.audits_id_seq d))
    /\ NoDup (DB.platformRefs d ++ (Mention.socialMediaPlatformRef <$> added))
    /\ (forall r, r ∈ Mention.socialMediaPlatformRef <$> added -> r ∈ storedRef <$> ms)
    /\ (forall m, m ∈ ms -> storedRef m ∈ DB.platformRefs d ++ (Mention.socialMediaPlatformRef <$> added)).
Proof.
  revert d. induction ms as [|m ms IH]; intros d Hnd.
  - exists []. simpl. rewrite !app_nil_r, Z.add_0_r. destruct d.
    split; [done|]. split; [done|]. split.
    + intros r Hr. by apply elem_of_nil in Hr.
    + intros m Hm. by apply elem_of_nil in Hm.
  - rewrite fmap_cons. cbn [insertAll]. unfold DB.insertMention.
    rewrite valuesRow_ref.
    destruct (DB.platformRefTaken (storedRef m) d) eqn:Htaken.
    + apply platformRefTaken_spec in Htaken.
      destruct (IH d Hnd) as (added & Hrun & Hnd' & Hsub & Hall).
      exists added. rewrite Hrun. split; [done|]. split; [done|]. split.
      * intros r Hr. rewrite fmap_cons. apply elem_of_cons. right. by apply Hsub.
      * intros m' Hm'. apply elem_of_cons in Hm' as [->|Hm'].
        -- apply elem_of_app. by left.
        -- by apply Hall.
    + assert (Hfresh : storedRef m ∉ DB.platformRefs d).
      { intros Hin. apply platformRefTaken_spec in Hin. congruence. }
      set (row := valuesRow now m (DB.mentions_id_seq d)).
      destruct (IH (DB.appendMention row d)) as (added & Hrun & Hnd' & Hsub & Hall).
      { unfold DB.platformRefs, DB.appendMention. simpl. rewrite fmap_app. simpl.
        apply NoDup_app. split; [done|]. split; [|apply NoDup_singleton].
        intros r Hr Hr'. apply list_elem_of_singleton in Hr'. by subst r. }
      exists (row :: added). rewrite Hrun. unfold DB.appendMention, DB.platformRefs in *. simpl in *.
      rewrite fmap_app in Hnd', Hall. simpl in *.
      rewrite <- !app_assoc in *. simpl in *.
      split; [do 2 f_equal; lia|]. split; [done|]. split.
      * intros r Hr. apply elem_of_cons in Hr as [->|Hr]; apply elem_of_cons; auto.
      * intros m' Hm'. apply elem_of_cons in Hm' as [->|Hm'].
        -- apply elem_of_app. right. by left.
        -- by apply Hall.
Qed.


Lemma filter_fmap {A B} (f : B -> bool) (g : A -> B) (l : list A) :
  List.filter f (g <$> l) = g <$> List.filter (fun a => f (g a)) l.
Proof.
  induction l as [|a l IH]; [done|].
  rewrite fmap_cons. cbn [List.filter]. rewrite IH.
  destruct (f (g a)); by rewrite ?fmap_cons.
Qed.

Lemma filter_none {A} (f : A -> bool) (l : list A) :
  (forall a, a ∈ l -> f a = false) -> List.filter f l = [].
Proof.
  induction l as [|a l IH]; intros H; simpl; [done|].
  rewrite (H a) by apply list_elem_of_here. apply IH.
  intros a' Ha'. apply H. by apply list_elem_of_further.
Qed.

Lemma elem_of_filter {A} (f : A -> bool) (l : list A) a :
  a ∈ List.filter f l <-> a ∈ l /\ f a = true.
Proof. rewrite !list_elem_of_In. apply filter_In. Qed.

(** One [_createMentions] statement over a table with unique refs. *)
Lemma createMentions_spec now (ms : list NewMention) d :
  ms <> [] ->
  NoDup (DB.platformRefs d) ->
  exists added,
    _createMentions now ms d
      = (Resolved (),
         DB.mk (DB.mentions d ++ added) (DB.tasks d) (DB.audits d)
               (DB.circuit_breaker_states d)
               (DB.mentions_id_seq d + Z.of_nat (length added))
               (DB.tasks_id_seq d) (DB.audits_id_seq d))
    /\ NoDup (DB.platformRefs d ++ (Mention.socialMediaPlatformRef <$> added))
    /\ (forall m, m ∈ ms ->
          storedRef m ∈ DB.platformRefs d ++ (Mention.socialMediaPlatformRef <$> added)).
Proof.
  intros Hne Hnd. unfold _createMentions. destruct ms as [|m0 ms0]; [done|].
  set (ms := m0 :: ms0) in *. rewrite filter_fmap.
  destruct (insertAll_spec now
              (List.filter (fun m => negb (DB.platformRefTaken
                 (Mention.socialMediaPlatformRef (valuesRow now m 0)) d)) ms) d Hnd)
    as (added & Hrun & Hnd' & Hsub & Hall).
  exists added. unfold DB.transaction. rewrite Hrun. split; [done|]. split; [done|].
  intros m Hm. destruct (DB.platformRefTaken (storedRef m) d) eqn:Htaken.
  - apply platformRefTaken_spec in Htaken. apply elem_of_app. by left.
  - apply Hall. apply elem_of_filter. split; [done|].
    rewrite valuesRow_ref, Htaken. done.
Qed.

(** When the table holds every ref of the batch the statement inserts
    nothing. *)
Lemma createMentions_present now (ms : list NewMention) d :
  ms <> [] ->
  (forall m, m ∈ ms -> storedRef m ∈ DB.platformRefs d) ->
  _createMentions now ms d = (Resolved (), d).
Proof.
  intros Hne Hall. unfold _createMentions. destruct ms as [|m0 ms0]; [done|].
  rewrite filter_none; [done|].
  intros row Hrow. apply list_elem_of_fmap in Hrow as (m & -> & Hm).
  rewrite valuesRow_ref. apply negb_false_iff, platformRefTaken_spec. by apply Hall.
Qed.

Lemma transformed_ref (comments : list Comment.t) taskId m :
  m ∈ _transformCommentsToMentions comments taskId ->
  exists c, c ∈ comments /\ storedRef m = default "" (Comment.commentId c).
Proof.
  unfold _transformCommentsToMentions. intros Hm.
  apply list_elem_of_fmap in Hm as (c & -> & Hc). by exists c.
Qed.

Lemma ref_of_comment (comments : list Comment.t) taskId c :
  c ∈ comments ->
  exists m, m ∈ _transformCommentsToMentions comments taskId
            /\ storedRef m = default "" (Comment.commentId c).
Proof.
  intros Hc. eexists. split; [apply list_elem_of_fmap; by exists c|done].
Qed.

(** Storing again what the table already holds changes nothing. *)
Lemma storeRepeatedly_present runs (comments : list Comment.t) d :
  (forall c, c ∈ comments -> default "" (Comment.commentId c) ∈ DB.platformRefs d) ->
  storeRepeatedly runs comments d = (Resolved (), d).
Proof.
  intros Hall. induction runs as [|[now taskId] runs IH]; simpl; [done|].
  unfold storeComments. destruct comments as [|c0 cs]; [done|].
  set (comments := c0 :: cs) in *.
  assert (Hstep : _createMentions now (_transformCommentsToMentions comments taskId) d
                  = (Resolved (), d)).
  { apply createMentions_present; [done|].
    intros m Hm. apply transformed_ref in Hm as (c & Hc & ->). by apply Hall. }
  change (_transformCommentsToMentions comments taskId) with
    (_transformCommentsToMentions (c0 :: cs) taskId) in *.
  cbn [_transformCommentsToMentions fmap list_fmap] in *. by rewrite Hstep.
Qed.

Lemma one_row_per_ref (rows : list Mention.t) ref :
  NoDup (Mention.socialMediaPlatformRef <$> rows) ->
  ref ∈ Mention.socialMediaPlatformRef <$> rows ->
  length (List.filter (fun m => bool_decide (Mention.socialMediaPlatformRef m = ref)) rows)
  = 1%nat.
Proof.
  induction rows as [|row rows IH]; intros Hnd Hin.
  - by apply elem_of_nil in Hin.
  - rewrite fmap_cons in Hnd, Hin. apply NoDup_cons in Hnd as [Hfresh Hnd]. simpl.
    case_bool_decide as Heq.
    + subst ref. simpl. f_equal. rewrite filter_none; [done|].
      intros m Hm. apply bool_decide_eq_false. intros Heq. apply Hfresh.
      rewrite <- Heq. apply list_elem_of_fmap. by exists m.
    + apply IH; [done|]. apply elem_of_cons in Hin as [->|Hin]; [done|done].
Qed.

(** C6.  Storing the same list of comments once or more, from a table whose
    platform refs are unique, never fails, appends rows only for refs the
    table did not hold, and leaves exactly one row for the ref of every
    comment; the stores after the first add nothing. *)
Theorem C6_ingestion_idempotent (comments : list Comment.t) (runs : list (Z * Z))
    (d : DB.t) :
  runs <> [] ->
  NoDup (DB.platformRefs d) ->
  exists added,
    let d' := DB.mk (DB.mentions d ++ added) (DB.tasks d) (DB.audits d)
                (DB.circuit_breaker_states d)
                (DB.mentions_id_seq d + Z.of_nat (length added))
                (DB.tasks_id_seq d) (DB.audits_id_seq d) in
    storeRepeatedly runs comments d = (Resolved (), d')
    /\ NoDup (DB.platformRefs d')
    /\ (forall c, c ∈ comments ->
          length (List.filter
                    (fun m => bool_decide (Mention.socialMediaPlatformRef m
                                           = default "" (Comment.commentId c)))
                    (DB.mentions d')) = 1%nat)
    /\ (forall row, row ∈ added -> Mention.socialMediaPlatformRef row ∉ DB.platformRefs d)
    /\ (forall now taskId, head runs = Some (now, taskId) ->
          storeComments now taskId comments d = (Resolved (), d')).
Proof.
  intros Hruns Hnd. destruct runs as [|[now taskId] runs]; [done|]. clear Hruns.
  destruct comments as [|c0 cs].
  - exists []. cbn zeta. rewrite app_nil_r, Z.add_0_r.
    assert (Hd : DB.mk (DB.mentions d) (DB.tasks d) (DB.audits d)
                   (DB.circuit_breaker_states d) (DB.mentions_id_seq d)
                   (DB.tasks_id_seq d) (DB.audits_id_seq d) = d) by by destruct d.
    rewrite Hd. split; [|split; [done|split; [|split]]].
    + cbn [storeRepeatedly storeComments]. apply storeRepeatedly_present.
      intros c Hc. by apply elem_of_nil in Hc.
    + intros c Hc. by apply elem_of_nil in Hc.
    + intros row Hrow. by apply elem_of_nil in Hrow.
    + by intros ? ? [= <- <-].
  - set (comments := c0 :: cs) in *.
    destruct (createMentions_spec now (_transformCommentsToMentions comments taskId) d)
      as (added & Hrun & Hnd' & Hall); [done|done|].
    exists added. cbn zeta.
    set (d' := DB.mk (DB.mentions d ++ added) _ _ _ _ _ _) in *.
    assert (Hrefs : DB.platformRefs d'
                    = DB.platformRefs d ++ (Mention.socialMediaPlatformRef <$> added)).
    { unfold DB.platformRefs, d'. simpl. by rewrite fmap_app. }
    assert (Hstore : storeComments now taskId comments d = (Resolved (), d')) by exact Hrun.
    assert (Hpresent : forall c, c ∈ comments ->
              default "" (Comment.commentId c) ∈ DB.platformRefs d').
    { intros c Hc. destruct (ref_of_comment comments taskId c Hc) as (m & Hm & <-).
      rewrite Hrefs. by apply Hall. }
    split; [|split; [|split; [|split]]].
    + cbn [storeRepeatedly]. rewrite Hstore. by apply storeRepeatedly_present.
    + by rewrite Hrefs.
    + intros c Hc. apply one_row_per_ref.
      * fold (DB.platformRefs d'). by rewrite Hrefs.
      * by apply Hpresent.
    + intros row Hrow Hin. apply NoDup_app in Hnd' as (_ & Hdisj & _).
      apply (Hdisj _ Hin). apply list_elem_of_fmap. by exists row.
    + by intros ? ? [= <- <-].
Qed.


(** C6 on the sample comments, stored twice into the empty store. *)
Lemma C6_ingestion_idempotent_witness :
  exists added,
    storeRepeatedly sampleRuns sampleComments DB.empty
      = (Resolved (), DB.mk added [] [] ∅ (1 + Z.of_nat (length added)) 1 1)
    /\ NoDup (Mention.socialMediaPlatformRef <$> added)
    /\ length (List.filter
                 (fun m => bool_decide (Mention.socialMediaPlatformRef m = "c1")) added)
       = 1%nat.
Proof.
  destruct (C6_ingestion_idempotent sampleComments sampleRuns DB.empty)
    as (added & Hrun & Hnd & Hone & _); [discriminate | apply NoDup_nil_2 |].
  exists added. split; [exact Hrun|]. split; [exact Hnd|].
  apply (Hone (Comment.mk (Some "c1") (Some "hi") (Some "x") "p1")).
  apply list_elem_of_here.
Defined.

End IngestionProofs.

(** ** The reply pipeline *)

Module ReplyProofs.
Import BaseMentionAdapter Samples.

(** *** The constraints of the tasks table along its statements *)

Lemma omap_filter_sublist {A B} (f : A -> option B) (g : A -> bool) (l : list A) :
  omap f (List.filter g l) `sublist_of` omap f l.
Proof.
  induction l as [|a l IH]; simpl; [done|].
  destruct (g a); simpl; destruct (f a); try done.
  - by apply sublist_skip.
  - by apply sublist_cons.
Qed.

Lemma fmap_filter_sublist {A B} (f : A -> B) (g : A -> bool) (l : list A) :
  f <$> List.filter g l `sublist_of` f <$> l.
Proof.
  induction l as [|a l IH]; simpl; [done|].
  destruct (g a); simpl.
  - by apply sublist_skip.
  - by apply sublist_cons.
Qed.

Lemma Forall_filter_stdlib {A} (P : A -> Prop) (g : A -> bool) (l : list A) :
  Forall P l -> Forall P (List.filter g l).
Proof.
  induction 1 as [|a l Ha Hl IH]; simpl; [done|].
  destruct (g a); [by constructor|done].
Qed.

Lemma consistent_same_tasks d d' :
  DB.tasks d' = DB.tasks d -> DB.tasks_id_seq d' = DB.tasks_id_seq d ->
  DB.consistent d -> DB.consistent d'.
Proof.
  intros Ht Hs [H1 H2 H3]. split; unfold DB.replyKeys; rewrite ?Ht, ?Hs; done.
Qed.

Lemma deleteTasks_consistent doomed d :
  DB.consistent d -> DB.consistent (DB.deleteTasks doomed d).
Proof.
  intros [H1 H2 H3]. split; simpl.
  - eapply sublist_NoDup; [exact H1|apply fmap_filter_sublist].
  - by apply Forall_filter_stdlib.
  - eapply sublist_NoDup; [exact H3|apply omap_filter_sublist].
Qed.

(** The key a row brings to [tasks_code_data_mentionid_idx]. *)
Lemma violatesMentionIdIdx_spec new d :
  DB.violatesMentionIdIdx new d = true <->
  exists m, DB.isReplyMention new = true
            /\ Task.mentionId (Task.data new) = Some m /\ m ∈ DB.replyKeys d.
Proof.
  unfold DB.violatesMentionIdIdx, DB.replyKeys. rewrite andb_true_iff, existsb_exists. split.
  - intros (Hnew & old & Hin & Hold). apply andb_true_iff in Hold as [Hr Hsame].
    unfold DB.sameMentionId in Hsame.
    destruct (Task.mentionId (Task.data new)) as [m|] eqn:Hm; [|done].
    destruct (Task.mentionId (Task.data old)) as [m'|] eqn:Hm'; [|done].
    apply bool_decide_eq_true in Hsame as <-.
    exists m. split; [done|]. split; [done|].
    apply list_elem_of_omap. exists old. rewrite Hr. by rewrite <- list_elem_of_In in Hin.
  - intros (m & Hnew & Hm & Hin). split; [done|].
    apply list_elem_of_omap in Hin as (old & Hin & Hkey).
    exists old. rewrite <- list_elem_of_In. split; [done|].
    destruct (DB.isReplyMention old); [|done]. simpl.
    unfold DB.sameMentionId. rewrite Hm, Hkey. by apply bool_decide_eq_true.
Qed.

Lemma violatesContentIdx_weaker new d :
  DB.violatesContentIdx new d = true -> DB.violatesMentionIdIdx new d = true.
Proof.
  unfold DB.violatesContentIdx, DB.violatesMentionIdIdx.
  rewrite !andb_true_iff, !existsb_exists.
  intros (Hnew & old & Hin & Hold). split; [done|]. exists old. split; [done|].
  by apply andb_true_iff in Hold as [Hold _].
Qed.

Lemma createTask_spec now code startedAt finishedAt createdBy data d :
  let new := Task.mk (DB.tasks_id_seq d) code data now startedAt finishedAt createdBy in
  DB.createTask now code startedAt finishedAt createdBy data d
  = if DB.violatesMentionIdIdx new d
    then (Rejected (UniqueConstraintError "tasks_code_data_mentionid_idx"), d)
    else (Resolved new, DB.appendTask new d).
Proof.
  cbn zeta. unfold DB.createTask.
  destruct (DB.violatesMentionIdIdx _ d) eqn:H1; [done|].
  destruct (DB.violatesContentIdx _ d) eqn:H2; [|done].
  apply violatesContentIdx_weaker in H2. congruence.
Qed.

Lemma appendTask_consistent new d :
  DB.consistent d ->
  Task.id new = DB.tasks_id_seq d ->
  DB.violatesMentionIdIdx new d = false ->
  DB.consistent (DB.appendTask new d).
Proof.
  intros [H1 H2 H3] Hid Hfree. split; simpl.
  - rewrite fmap_app. apply NoDup_app. split; [done|]. split; [|apply NoDup_singleton].
    intros i Hi Hi'. apply list_elem_of_singleton in Hi'. subst i.
    apply list_elem_of_fmap in Hi as (k & Hk & Hin).
    rewrite Forall_forall in H2. specialize (H2 k Hin). lia.
  - apply Forall_app. split.
    + eapply Forall_impl; [exact H2|]. simpl. intros k Hk. lia.
    + constructor; [lia|done].
  - unfold DB.replyKeys in *. simpl. rewrite omap_app. simpl.
    destruct (DB.isReplyMention new) eqn:Hr; [|by rewrite app_nil_r].
    destruct (Task.mentionId (Task.data new)) as [m|] eqn:Hm; [|by rewrite app_nil_r].
    apply NoDup_app. split; [done|]. split; [|apply NoDup_singleton].
    intros m' Hin Hm'. apply list_elem_of_singleton in Hm'. subst m'.
    assert (DB.violatesMentionIdIdx new d = true); [|congruence].
    apply violatesMentionIdIdx_spec. by exists m.
Qed.

Lemma updateTask_keys pk finishedAt data (l : list Task.t) :
  (forall k, k ∈ l -> Task.id k = pk ->
     Task.mentionId data = Task.mentionId (Task.data k)) ->
  omap (fun k => if DB.isReplyMention k then Task.mentionId (Task.data k) else None)
    ((fun k => if bool_decide (Task.id k = pk)
               then Task.mk (Task.id k) (Task.code k) data (Task.createdAt k)
                      (Task.startedAt k) finishedAt (Task.createdBy k)
               else k) <$> l)
  = omap (fun k => if DB.isReplyMention k then Task.mentionId (Task.data k) else None) l.
Proof.
  induction l as [|k l IH]; intros Hkey; [done|].
  csimpl. rewrite IH.
  - case_bool_decide as Hpk; [|done]. unfold DB.isReplyMention. simpl.
    rewrite (Hkey k); [done|apply list_elem_of_here|done].
  - intros k' Hk'. apply Hkey. by apply list_elem_of_further.
Qed.

Lemma updateTask_consistent pk finishedAt data d :
  DB.consistent d ->
  (forall k, k ∈ DB.tasks d -> Task.id k = pk ->
     Task.mentionId data = Task.mentionId (Task.data k)) ->
  DB.consistent (DB.updateTask pk finishedAt data d).
Proof.
  intros [H1 H2 H3] Hkey. split; simpl.
  - rewrite <- list_fmap_compose.
    erewrite list_fmap_ext; [exact H1|]. intros i k Hk. simpl. by case_bool_decide.
  - apply Forall_fmap. eapply Forall_impl; [exact H2|]. intros k Hk. simpl.
    by case_bool_decide.
  - unfold DB.replyKeys in *. simpl. by rewrite updateTask_keys.
Qed.

(** At most one row per key, so at most one unfinished row per mention. *)
Lemma inFlightReplies_bound m d :
  NoDup (DB.replyKeys d) -> (length (DB.inFlightReplies m d) <= 1)%nat.
Proof.
  unfold DB.replyKeys, DB.inFlightReplies. induction (DB.tasks d) as [|k l IH]; simpl; [lia|].
  intros Hnd. destruct (DB.isReplyMention k) eqn:Hr; simpl.
  - destruct (Task.mentionId (Task.data k)) as [m'|] eqn:Hm.
    + apply NoDup_cons in Hnd as [Hfresh Hnd]. case_bool_decide as Heq; simpl.
      * injection Heq as ->. destruct (bool_decide (Task.finishedAt k = None)); simpl; [|by apply IH].
        rewrite IngestionProofs.filter_none; [simpl; lia|].
        intros k' Hk'. destruct (DB.isReplyMention k') eqn:Hr'; [|done]. simpl.
        case_bool_decide as Hm'; [|done]. exfalso. apply Hfresh.
        apply list_elem_of_omap. exists k'. by rewrite Hr'.
      * by apply IH.
    + rewrite bool_decide_eq_false_2 by done. by apply IH.
  - by apply IH.
Qed.


Lemma NoDup_fmap_same {A B} (f : A -> B) (l : list A) a b :
  NoDup (f <$> l) -> a ∈ l -> b ∈ l -> f a = f b -> a = b.
Proof.
  induction l as [|x l IH]; intros Hnd Ha Hb Hf.
  - by apply elem_of_nil in Ha.
  - rewrite fmap_cons in Hnd. apply NoDup_cons in Hnd as [Hx Hnd].
    apply elem_of_cons in Ha as [->|Ha]; apply elem_of_cons in Hb as [->|Hb]; auto.
    + exfalso. apply Hx. rewrite Hf. apply list_elem_of_fmap. by exists b.
    + exfalso. apply Hx. rewrite <- Hf. apply list_elem_of_fmap. by exists a.
Qed.

Section reply.
Variable gateway :
  Mention.t -> option string -> ReqUser.t -> DB.t -> Outcome ReplyResponse.t * DB.t.
Variable toMention : ReplyResponse.t -> Mention.t -> Outcome ReplyFields.
(** The gateway writes no task. *)
Hypothesis gateway_tasks : forall m c u d,
  DB.tasks (gateway m c u d).2 = DB.tasks d
  /\ DB.tasks_id_seq (gateway m c u d).2 = DB.tasks_id_seq d.

Lemma recordReply_consistent now task mention result d :
  DB.consistent d -> task ∈ DB.tasks d ->
  DB.consistent (DB.transaction (recordReply toMention now task mention result) d).2.
Proof.
  intros Hc Hin.
  assert (Hfinish : forall d' fin,
            DB.tasks d' = DB.tasks d -> DB.tasks_id_seq d' = DB.tasks_id_seq d ->
            DB.consistent
              (DB.updateTask (Task.id task) fin
                 (Task.mkData (Task.mentionId (Task.data task)) (Task.content (Task.data task))
                    (Task.reqUser (Task.data task)) (Task.isIgnored (Task.data task))
                    (Task.error (Task.data task)) (Some result)
                    (Task.posts (Task.data task)) (Task.comments (Task.data task))) d')).
  { intros d' fin Ht Hs. apply updateTask_consistent.
    - by apply (consistent_same_tasks d).
    - rewrite Ht. intros k Hk Hid. simpl. f_equal. f_equal. symmetry.
      destruct Hc as [Hpk _ _]. by apply (NoDup_fmap_same Task.id (DB.tasks d)). }
  unfold DB.transaction, recordReply.
  destruct (bool_decide (ReplyResponse.status result = Some "success")).
  - destruct (toMention result mention) as [fields|e]; [|done].
    unfold DB.createMention, DB.insertMention. simpl.
    destruct (DB.platformRefTaken _ d); [done|]. simpl. by apply Hfinish.
  - simpl. by apply Hfinish.
Qed.

Lemma processReplyTask_consistent now task w :
  DB.consistent (db w) -> task ∈ DB.tasks (db w) ->
  DB.consistent (db (processReplyTask gateway toMention now task w).2).
Proof.
  intros Hc Hin. unfold processReplyTask.
  destruct (Task.isIgnored (Task.data task)); [done|].
  destruct (Task.reqUser (Task.data task)) as [user|]; [|done].
  destruct (DB.findMentionByPk _ (db w)) as [mention|]; [|done].
  destruct (gateway_tasks mention (Task.content (Task.data task)) user (db w)) as [Ht Hs].
  destruct (gateway mention (Task.content (Task.data task)) user (db w)) as [answer d1].
  simpl in Ht, Hs.
  assert (Hc1 : DB.consistent d1) by by apply (consistent_same_tasks (db w)).
  destruct answer as [result|e]; [|done].
  pose proof (recordReply_consistent now task mention result d1 Hc1) as Hrec.
  rewrite Ht in Hrec. specialize (Hrec Hin).
  by destruct (DB.transaction _ d1).
Qed.

Lemma ignoreReply_spec now mention content reqUser error w :
  ignoreReply now mention content reqUser error w
  = (Rejected error,
     mkWorld
       (DB.appendTask
          (Task.mk (DB.tasks_id_seq (db w)) REPLY_MENTION_IGNORED
             (Task.mkData (Some (Mention.id mention)) (Some content) (Some reqUser)
                false (Some error) None None None)
             now (Some now) (Some now) (ReqUser.email reqUser))
          (db w))
       (replyCalls w)).
Proof. unfold ignoreReply. by rewrite createTask_spec. Qed.

Lemma ignoreReply_consistent now mention content reqUser error w :
  DB.consistent (db w) ->
  DB.consistent (db (ignoreReply now mention content reqUser error w).2).
Proof. intros Hc. rewrite ignoreReply_spec. simpl. by apply appendTask_consistent. Qed.

Lemma reply_consistent now mention content reqUser w :
  DB.consistent (db w) ->
  DB.consistent (db (reply gateway toMention now mention content reqUser w).2).
Proof.
  intros Hc. unfold reply.
  set (d0 := DB.deleteTasks (staleReplyTask now (Mention.id mention)) (db w)).
  assert (Hc0 : DB.consistent d0) by by apply deleteTasks_consistent.
  unfold DB.transaction, openReplyTask. rewrite createTask_spec. cbn zeta.
  destruct (DB.violatesMentionIdIdx _ d0) eqn:Hfree.
  - by apply ignoreReply_consistent.
  - set (task := Task.mk _ _ _ _ _ _ _).
    set (w1 := mkWorld _ _).
    assert (Hc1 : DB.consistent (db w1)).
    { apply (consistent_same_tasks (DB.appendTask task d0)); [done|done|].
      by apply appendTask_consistent. }
    assert (Hin : task ∈ DB.tasks (db w1)).
    { simpl. apply elem_of_app. right. apply list_elem_of_here. }
    pose proof (processReplyTask_consistent now task w1 Hc1 Hin) as Hc2.
    destruct (processReplyTask gateway toMention now task w1) as [[[]|e] w2].
    + done.
    + by apply ignoreReply_consistent.
Qed.

(** C2.  The tasks table keeps one REPLY_MENTION row per mention at most,
    so at most one of them is in flight.  A reply whose task insert hits
    [tasks_code_data_mentionid_idx] is rejected with the error of the index;
    it leaves a REPLY_MENTION_IGNORED task with [startedAt = finishedAt = now]
    as its only trace, and no call reaches the gateway. *)
Theorem C2_reply_uniqueness now mention content reqUser w :
  DB.consistent (db w) ->
  let out := reply gateway toMention now mention content reqUser w in
  let d0 := DB.deleteTasks (staleReplyTask now (Mention.id mention)) (db w) in
  let ignored :=
    Task.mk (DB.tasks_id_seq d0) REPLY_MENTION_IGNORED
      (Task.mkData (Some (Mention.id mention)) (Some content) (Some reqUser) false
         (Some (UniqueConstraintError "tasks_code_data_mentionid_idx")) None None None)
      now (Some now) (Some now) (ReqUser.email reqUser) in
  DB.consistent (db out.2)
  /\ (forall m, (length (DB.inFlightReplies m (db out.2)) <= 1)%nat)
  /\ ((exists k, k ∈ DB.tasks d0 /\ Task.code k = REPLY_MENTION
                 /\ Task.mentionId (Task.data k) = Some (Mention.id mention)) ->
      out.1 = Rejected (UniqueConstraintError "tasks_code_data_mentionid_idx")
      /\ DB.tasks (db out.2) = DB.tasks d0 ++ [ignored]
      /\ DB.mentions (db out.2) = DB.mentions (db w)
      /\ DB.audits (db out.2) = DB.audits (db w)
      /\ replyCalls out.2 = replyCalls w).
Proof.
  intros Hc. cbn zeta.
  pose proof (reply_consistent now mention content reqUser w Hc) as Hc'.
  split; [done|]. split.
  - intros m. apply inFlightReplies_bound. by destruct Hc'.
  - intros (k & Hin & Hcode & Hm). unfold reply, DB.transaction, openReplyTask.
    rewrite createTask_spec. cbn zeta.
    set (d0 := DB.deleteTasks (staleReplyTask now (Mention.id mention)) (db w)) in *.
    assert (Hviol : DB.violatesMentionIdIdx
              (Task.mk (DB.tasks_id_seq d0) REPLY_MENTION
                 (Task.mkData (Some (Mention.id mention)) (Some content) (Some reqUser)
                    false None None None None)
                 now (Some now) None (ReqUser.email reqUser)) d0 = true).
    { apply violatesMentionIdIdx_spec. exists (Mention.id mention).
      split; [done|]. split; [done|].
      apply list_elem_of_omap. exists k. split; [done|].
      unfold DB.isReplyMention. by rewrite Hcode, bool_decide_eq_true_2. }
    rewrite Hviol. rewrite ignoreReply_spec. done.
Qed.

End reply.



(** *** processReplyTask *)

Lemma find_fmap {A} (p : A -> bool) (f : A -> A) (l : list A) :
  (forall x, p (f x) = p x) -> List.find p (f <$> l) = f <$> List.find p l.
Proof.
  intros Hp. induction l as [|x l IH]; [done|].
  csimpl. rewrite Hp. by destruct (p x).
Qed.

Lemma find_app_Some {A} (p : A -> bool) (l k : list A) x :
  List.find p l = Some x -> List.find p (l ++ k) = Some x.
Proof.
  induction l as [|y l IH]; [done|]. simpl. by destruct (p y).
Qed.

Lemma find_is_Some {A} (p : A -> bool) (l : list A) x :
  x ∈ l -> p x = true -> is_Some (List.find p l).
Proof.
  induction l as [|y l IH]; intros Hin Hp.
  - by apply elem_of_nil in Hin.
  - simpl. destruct (p y) eqn:Hy; [by eexists|].
    apply elem_of_cons in Hin as [->|Hin]; [congruence|by apply IH].
Qed.

Lemma findMentionByPk_id pk d mention :
  DB.findMentionByPk pk d = Some mention -> pk = Some (Mention.id mention).
Proof.
  unfold DB.findMentionByPk. destruct pk as [k|]; [|done].
  intros H. apply find_some in H as [_ H]. apply bool_decide_eq_true in H. by rewrite H.
Qed.

Lemma updated_mention_id pk s m :
  Mention.id (if bool_decide (Mention.id m = pk) then Mention.withState s m else m)
  = Mention.id m.
Proof. by destruct (bool_decide _). Qed.

Lemma updated_task_id pk finishedAt data k :
  Task.id (if bool_decide (Task.id k = pk)
           then Task.mk (Task.id k) (Task.code k) data (Task.createdAt k)
                  (Task.startedAt k) finishedAt (Task.createdBy k)
           else k)
  = Task.id k.
Proof. by destruct (bool_decide _). Qed.

(** The row of the primary key after [mention.update({ state })]. *)
Lemma findMentionByPk_updateMentionState pk s d :
  DB.findMentionByPk (Some pk) (DB.updateMentionState pk s d)
  = Mention.withState s <$> DB.findMentionByPk (Some pk) d.
Proof.
  unfold DB.findMentionByPk, DB.updateMentionState. simpl.
  rewrite find_fmap by (intros m; by rewrite updated_mention_id).
  destruct (List.find _ (DB.mentions d)) as [m|] eqn:Hfind; [|done].
  apply find_some in Hfind as [_ Hid]. simpl. by rewrite Hid.
Qed.

(** The row of the primary key after [Task.update({ finishedAt, data })]. *)
Lemma findTask_updateTask pk finishedAt data d task :
  task ∈ DB.tasks d -> Task.id task = pk ->
  Task.finishedAt <$> List.find (fun k => bool_decide (Task.id k = pk))
                        (DB.tasks (DB.updateTask pk finishedAt data d))
  = Some finishedAt.
Proof.
  intros Hin Hid. unfold DB.updateTask. simpl.
  rewrite find_fmap by (intros k; by rewrite updated_task_id).
  destruct (find_is_Some (fun k => bool_decide (Task.id k = pk)) (DB.tasks d) task)
    as [k Hk]; [done|by apply bool_decide_eq_true|].
  rewrite Hk. apply find_some in Hk as [_ Hk]. simpl. by rewrite Hk.
Qed.

Section processReplyTask.
Variable gateway :
  Mention.t -> option string -> ReqUser.t -> DB.t -> Outcome ReplyResponse.t * DB.t.

(** C1, as the code has it.  For a reply task that is not ignored, whose
    mention exists and whose gateway call leaves the store alone:
    - when the gateway answers a body with [status = 'success'] that holds
      the entry of the platform with a fresh comment id, exactly one child
      mention of type REPLY pointing at the parent is appended, the parent
      becomes REPLIED and the task gets [finishedAt = now];
    - when the gateway answers a body that carries neither [status =
      'success'] nor the [success] flag, the parent becomes PROVIDER_ERROR,
      no mention is added and [finishedAt] stays null;
    - when the gateway call throws, the error is thrown on and the store is
      as it was: the parent keeps its state and [finishedAt] stays as it is.
    In each case the gateway is called once. *)
Theorem C1_processReplyTask now task w user mention :
  Task.isIgnored (Task.data task) = false ->
  Task.reqUser (Task.data task) = Some user ->
  DB.findMentionByPk (Task.mentionId (Task.data task)) (db w) = Some mention ->
  task ∈ DB.tasks (db w) ->
  let out := processReplyTask gateway MentionCommentAdapter.processReplyResponseToMention
               now task w in
  let content := Task.content (Task.data task) in
  let parent := DB.findMentionByPk (Some (Mention.id mention)) (db out.2) in
  let finished :=
    Task.finishedAt <$> List.find (fun k => bool_decide (Task.id k = Task.id task))
                          (DB.tasks (db out.2)) in
  replyCalls out.2 = replyCalls w ++ [(Mention.id mention, content)]
  /\ (forall result entry,
        gateway mention content user (db w) = (Resolved result, db w) ->
        ReplyResponse.status result = Some "success" ->
        ReplyResponse.forPlatform result (Mention.platform mention) = Some entry ->
        DB.platformRefTaken (ReplyResponse.commentId entry) (db w) = false ->
        out.1 = Resolved ()
        /\ (exists child,
              DB.mentions (db out.2)
              = ((fun m => if bool_decide (Mention.id m = Mention.id mention)
                           then Mention.withState (Some REPLIED) m else m)
                   <$> DB.mentions (db w)) ++ [child]
              /\ Mention.type child = inr REPLY
              /\ Mention.mentionId child = Some (Mention.id mention)
              /\ Mention.content child = ReplyResponse.comment entry
              /\ Mention.socialMediaPlatformRef child = ReplyResponse.commentId entry)
        /\ Mention.state <$> parent = Some (Some REPLIED)
        /\ finished = Some (Some now))
  /\ (forall result,
        gateway mention content user (db w) = (Resolved result, db w) ->
        ReplyResponse.status result <> Some "success" ->
        ReplyResponse.success result = false ->
        out.1 = Resolved ()
        /\ length (DB.mentions (db out.2)) = length (DB.mentions (db w))
        /\ Mention.state <$> parent = Some (Some PROVIDER_ERROR)
        /\ finished = Some None)
  /\ (forall e,
        gateway mention content user (db w) = (Rejected e, db w) ->
        out.1 = Rejected e /\ db out.2 = db w).
Proof.
  intros Hignored Huser Hmention Hin. cbn zeta.
  pose proof (findMentionByPk_id _ _ _ Hmention) as Hpk.
  rewrite Hpk in Hmention.
  unfold processReplyTask. rewrite Hignored, Huser, Hpk, Hmention.
  destruct (gateway mention (Task.content (Task.data task)) user (db w))
    as [answer d1] eqn:Hgw.
  split; [by destruct answer; [destruct (DB.transaction _ d1)|]|].
  split; [|split].
  - intros result entry [= -> ->] Hstatus Hentry Hfresh.
    unfold DB.transaction, recordReply.
    rewrite bool_decide_eq_true_2 by done.
    unfold MentionCommentAdapter.processReplyResponseToMention. rewrite Hentry.
    unfold DB.createMention, DB.insertMention.
    cbn [Mention.socialMediaPlatformRef reply_socialMediaPlatformRef].
    rewrite Hfresh. cbn [fst snd db].
    split; [done|]. split; [|split].
    + eexists. unfold DB.updateTask, DB.updateMentionState, DB.appendMention.
      cbn [DB.mentions]. rewrite fmap_app. split; [reflexivity|].
      cbn [fmap list_fmap]. by case_bool_decide.
    + unfold DB.updateTask. cbn [DB.mentions].
      change (DB.findMentionByPk (Some (Mention.id mention)) ?d)
        with (List.find (fun m => bool_decide (Mention.id m = Mention.id mention))
                (DB.mentions d)).
      cbn [DB.findMentionByPk DB.mentions DB.updateMentionState DB.appendMention].
      rewrite fmap_app.
      erewrite find_app_Some.
      2:{ rewrite find_fmap by (intros m; by rewrite updated_mention_id).
          unfold DB.findMentionByPk in Hmention. rewrite Hmention. simpl.
          by rewrite bool_decide_eq_true_2. }
      done.
    + by apply (findTask_updateTask _ _ _ _ task); [exact Hin|].
  - intros result [= -> ->] Hstatus Hflag.
    unfold DB.transaction, recordReply.
    rewrite bool_decide_eq_false_2 by done. cbn [fst snd db].
    split; [done|]. split; [|split].
    + unfold DB.updateTask, DB.updateMentionState. cbn [DB.mentions].
      by rewrite length_fmap.
    + unfold DB.updateTask.
      pose proof (findMentionByPk_updateMentionState (Mention.id mention)
                    (Some PROVIDER_ERROR) (db w)) as Hfind.
      rewrite Hmention in Hfind. unfold DB.findMentionByPk in *. cbn [DB.mentions] in *.
      by rewrite Hfind.
    + by apply (findTask_updateTask _ _ _ _ task); [exact Hin|].
  - by intros e [= -> ->].
Qed.

End processReplyTask.


(** C1, as stated, fails at two inputs.  When the upstream call fails, the
    error leaves the transaction: the parent keeps REPLY_ATTEMPT and does not
    become PROVIDER_ERROR.  When the upstream answers a body that carries the
    [success] flag of the interface but no [status], the error branch is
    taken: no child is inserted, the parent becomes PROVIDER_ERROR and
    [finishedAt] stays null. *)
Lemma C1_counterexample :
  let failed := processReplyTask (failing (HttpError (Some 500)))
                  MentionCommentAdapter.processReplyResponseToMention
                  400000 sampleReplyTask sampleWorld in
  let flagged := processReplyTask (answering successFlagBody)
                   MentionCommentAdapter.processReplyResponseToMention
                   400000 sampleReplyTask sampleWorld in
  (failed.1 = Rejected (HttpError (Some 500))
   /\ Mention.state <$> DB.findMentionByPk (Some 1) (db failed.2)
      = Some (Some REPLY_ATTEMPT)
   /\ Mention.state <$> DB.findMentionByPk (Some 1) (db failed.2)
      <> Some (Some PROVIDER_ERROR))
  /\ (ReplyResponse.success successFlagBody = true
      /\ flagged.1 = Resolved ()
      /\ Mention.state <$> DB.findMentionByPk (Some 1) (db flagged.2)
         = Some (Some PROVIDER_ERROR)
      /\ Task.finishedAt <$> DB.tasks (db flagged.2) = [None]
      /\ length (DB.mentions (db flagged.2)) = 1%nat).
Proof.
  cbn zeta. split.
  - split; [reflexivity|]. split; [reflexivity|discriminate].
  - repeat split; reflexivity.
Qed.

(** The two branches of C1 on the sample store: a body with [status:
    'success'], and a body that reports an error. *)
Lemma C1_processReplyTask_witness :
  let out := processReplyTask (answering statusBody)
               MentionCommentAdapter.processReplyResponseToMention
               400000 sampleReplyTask sampleWorld in
  let refused := processReplyTask (answering errorBody)
                   MentionCommentAdapter.processReplyResponseToMention
                   400000 sampleReplyTask sampleWorld in
  (out.1 = Resolved ()
   /\ Mention.state <$> DB.findMentionByPk (Some 1) (db out.2) = Some (Some REPLIED)
   /\ Task.finishedAt <$> List.find (fun k => bool_decide (Task.id k = 1))
                             (DB.tasks (db out.2)) = Some (Some 400000))
  /\ (Mention.state <$> DB.findMentionByPk (Some 1) (db refused.2)
        = Some (Some PROVIDER_ERROR)
      /\ Task.finishedAt <$> List.find (fun k => bool_decide (Task.id k = 1))
                                (DB.tasks (db refused.2)) = Some None).
Proof.
  cbn zeta. split.
  - pose proof (C1_processReplyTask (answering statusBody) 400000 sampleReplyTask sampleWorld
                  sampleUser (Mention.withState (Some REPLY_ATTEMPT) sampleMention)
                  eq_refl eq_refl eq_refl (list_elem_of_here _ _)) as H.
    cbn zeta in H. destruct H as (_ & Hok & _ & _).
    destruct (Hok statusBody (ReplyResponse.mkEntry "thanks" "reply-1")
                eq_refl eq_refl eq_refl eq_refl) as (H1 & _ & H3 & H4).
    exact (conj H1 (conj H3 H4)).
  - pose proof (C1_processReplyTask (answering errorBody) 400000 sampleReplyTask sampleWorld
                  sampleUser (Mention.withState (Some REPLY_ATTEMPT) sampleMention)
                  eq_refl eq_refl eq_refl (list_elem_of_here _ _)) as H.
    cbn zeta in H. destruct H as (_ & _ & Herr & _).
    destruct (Herr errorBody eq_refl ltac:(discriminate) eq_refl) as (_ & _ & H3 & H4).
    exact (conj H3 H4).
Defined.

(** [replyComment], the reply operation of the gateway among the sources,
    writes no task: it can stand for the gateway in C2. *)
Lemma replyComment_tasks now request mention d :
  DB.tasks (SocialMediaService.replyComment now request mention d).2 = DB.tasks d
  /\ DB.tasks_id_seq (SocialMediaService.replyComment now request mention d).2
     = DB.tasks_id_seq d.
Proof.
  unfold SocialMediaService.replyComment.
  destruct request as [body|e]; [|done].
  destruct (ReplyResponse.success body); [|done].
  destruct (ReplyResponse.forPlatform body (Mention.platform mention)); [|done].
  unfold DB.createMention, DB.insertMention. simpl.
  by destruct (DB.platformRefTaken _ d).
Qed.

Lemma sampleReplyStore_consistent : DB.consistent sampleReplyStore.
Proof.
  split; simpl.
  - apply NoDup_singleton.
  - by repeat constructor.
  - apply NoDup_singleton.
Qed.

(** C2 on the sample store: a second reply while the first task is in
    flight. *)
Lemma C2_reply_uniqueness_witness :
  let out := reply (answering statusBody) MentionCommentAdapter.processReplyResponseToMention
               400000 sampleMention "hello again" sampleUser sampleWorld in
  out.1 = Rejected (UniqueConstraintError "tasks_code_data_mentionid_idx")
  /\ Task.code <$> DB.tasks (db out.2) = [REPLY_MENTION; REPLY_MENTION_IGNORED]
  /\ replyCalls out.2 = []
  /\ (forall m, (length (DB.inFlightReplies m (db out.2)) <= 1)%nat).
Proof.
  cbn zeta.
  pose proof (C2_reply_uniqueness (answering statusBody)
                MentionCommentAdapter.processReplyResponseToMention
                (fun _ _ _ _ => conj eq_refl eq_refl)
                400000 sampleMention "hello again" sampleUser sampleWorld
                sampleReplyStore_consistent) as H.
  cbn zeta in H. destruct H as (_ & Hbound & Hignored).
  destruct Hignored as (H1 & H2 & _ & _ & H5).
  { exists sampleReplyTask. split; [apply list_elem_of_here|]. by split. }
  split; [exact H1|]. split; [by rewrite H2|]. split; [exact H5|exact Hbound].
Defined.

End ReplyProofs.

(** ** The fetch pipeline *)

Module FetchProofs.
Import BaseMentionAdapter MentionCommentAdapter Samples.

Lemma includes_spec existing id :
  includes existing id = true <-> Task.PostId id ∈ existing.
Proof.
  unfold includes. rewrite existsb_exists. split.
  - intros (e & Hin & He). destruct e as [post|s]; [done|].
    apply bool_decide_eq_true in He as ->. by apply list_elem_of_In.
  - intros Hin. exists (Task.PostId id). split; [by apply list_elem_of_In|].
    by apply bool_decide_eq_true.
Qed.

(** A post whose id a recent task lists is left out of the new task. *)
Lemma listed_posts_excluded existing seen posts post :
  post ∈ filterPosts existing seen posts -> Task.PostId (Post.id post) ∉ existing.
Proof.
  revert seen. induction posts as [|p posts IH]; intros seen Hin.
  - by apply elem_of_nil in Hin.
  - simpl in Hin. apply elem_of_app in Hin as [Hin|Hin]; [|by eapply IH].
    destruct (includes existing (Post.id p)) eqn:Hinc; simpl in Hin.
    + by apply elem_of_nil in Hin.
    + destruct (bool_decide (Post.id p ∈ seen)); simpl in Hin.
      * by apply elem_of_nil in Hin.
      * apply list_elem_of_singleton in Hin as ->.
        rewrite <- includes_spec. by rewrite Hinc.
Qed.

(** No task is created when no post is left. *)
Lemma nothing_to_fetch findAllPosts findAllComments now reqUser d :
  filterPosts (_findFreshlyFetchedPostIds now d) [] findAllPosts = [] ->
  fetchAndSyncMentions findAllPosts findAllComments now reqUser d = (Resolved (), d).
Proof. intros H. unfold fetchAndSyncMentions. by rewrite H. Qed.

(** C7 at the failing input.  One minute after a FETCH_COMMENTS task for
    the posts p1 and p2 was created, and while it is still in flight,
    [fetchAndSyncMentions] sees the same two posts in the history: the
    elements of [data.posts] of the task in flight are post objects, none of
    them equals a post id, and a second task is created for p1 and p2. *)
Theorem C7_in_flight_posts_fetched_again :
  let out := fetchAndSyncMentions samplePosts (fun _ => []) 60000 sampleUser
               sampleInFlightFetch in
  Task.finishedAt <$> recentTasks 60000 FETCH_COMMENTS
                        SOCIAL_MEDIA_API_TASK_FETCH_COMMENTS_INTERVAL sampleInFlightFetch
    = [None]
  /\ _findFreshlyFetchedPostIds 60000 sampleInFlightFetch = Task.PostObject <$> samplePosts
  /\ filterPosts (_findFreshlyFetchedPostIds 60000 sampleInFlightFetch) [] samplePosts
     = samplePosts
  /\ out.1 = Resolved ()
  /\ (fun k => Task.posts (Task.data k)) <$> DB.tasks out.2
     = [Some (Task.PostObject <$> samplePosts); Some [Task.PostId "p1"; Task.PostId "p2"]].
Proof. cbn zeta. repeat split; reflexivity. Qed.

End FetchProofs.

(** ** The validation of a reply *)

Module ValidationProofs.
Import BaseMentionAdapter MentionDataService Samples.

Lemma typeof_parseInt v : typeof (parseInt v) = TNumber.
Proof.
  destruct v; try done. simpl. by destruct (parseIntString s).
Qed.

Lemma truthy_content text : truthy (JsString text) = true <-> text <> "".
Proof. simpl. rewrite negb_true_iff, bool_decide_eq_false. done. Qed.

Lemma content_guards v :
  contentOk v <->
  (negb (truthy v) || negb (bool_decide (typeof v = TString))) = false
  /\ (10000 <? lengthOf v) = false.
Proof.
  unfold contentOk. split.
  - intros (text & -> & Hne & Hlen). split.
    + apply orb_false_iff. split; [|done].
      apply negb_false_iff. by apply truthy_content.
    + simpl. lia.
  - intros [Hguard Hlen]. apply orb_false_iff in Hguard as [Htruthy Htype].
    apply negb_false_iff in Htruthy. apply negb_false_iff, bool_decide_eq_true in Htype.
    destruct v; try done. exists s. split; [done|]. split.
    + by apply truthy_content.
    + simpl in Hlen. lia.
Qed.

Lemma actor_guards u :
  actorOk u <->
  (negb (truthy (actorId u)) || negb (truthy (actorEmail u))) = false.
Proof.
  unfold actorOk, actorId, actorEmail. split.
  - intros (uid & email & -> & Hid & Hemail). simpl.
    apply orb_false_iff. split; apply negb_false_iff, negb_true_iff.
    + by apply Z.eqb_neq.
    + by apply bool_decide_eq_false.
  - intros Hguard. apply orb_false_iff in Hguard as [Hid Hemail].
    apply negb_false_iff in Hid, Hemail.
    destruct u as [[[uid|] [email|]]|]; try done. simpl in *.
    exists uid, email. split; [done|]. split.
    + apply negb_true_iff, Z.eqb_neq in Hid. done.
    + by apply negb_true_iff, bool_decide_eq_false in Hemail.
Qed.

Section service.
Variable gateway :
  Mention.t -> option string -> ReqUser.t -> DB.t -> Outcome ReplyResponse.t * DB.t.

(** C9, as the code has it.  [reply] rejects with a validation error when
    [mentionId] is falsy, or the content is not a non-empty string of at
    most 10 000 characters, or the id or the email of the user is missing;
    the store and the calls to the gateway are then as they were.  It passes
    validation when [mentionId] is truthy and parses as an integer, of
    either sign, and content and user are in order. *)
Theorem C9_reply_validation now params w :
  (truthy (mentionId params) = false \/ ~ contentOk (content params)
     \/ ~ actorOk (reqUser params) ->
   exists message,
     validate params = inl (PlainError message)
     /\ message ∈ ["Invalid mentionId"; "Invalid content";
                   "Content exceeds maximum length"; "Invalid user"]
     /\ reply gateway now params w = (Rejected (PlainError message), w))
  /\ (truthy (mentionId params) = true ->
      (exists n, parseInt (mentionId params) = JsNumber n) ->
      contentOk (content params) ->
      actorOk (reqUser params) ->
      exists text user, validate params = inr (text, user)
                        /\ content params = JsString text)
  /\ (forall e, validate params = inl e -> reply gateway now params w = (Rejected e, w)).
Proof.
  assert (Hthird : forall e, validate params = inl e ->
                     reply gateway now params w = (Rejected e, w)).
  { intros e He. unfold reply. by rewrite He. }
  split; [|split; [|done]].
  - intros Hbad.
    assert (Hmsg : exists message,
              validate params = inl (PlainError message)
              /\ message ∈ ["Invalid mentionId"; "Invalid content";
                            "Content exceeds maximum length"; "Invalid user"]).
    { unfold validate. rewrite typeof_parseInt, bool_decide_eq_true_2 by done.
      rewrite orb_false_r.
      destruct (truthy (mentionId params)) eqn:Hid; simpl.
      2:{ eexists. split; [done|]. apply list_elem_of_here. }
      destruct Hbad as [Hbad|[Hbad|Hbad]]; [done| |].
      - destruct (negb (truthy (content params))
                  || negb (bool_decide (typeof (content params) = TString))) eqn:Hg1.
        { eexists. split; [done|]. apply list_elem_of_further, list_elem_of_here. }
        destruct (10000 <? lengthOf (content params)) eqn:Hg2.
        { eexists. split; [done|]. do 2 apply list_elem_of_further. apply list_elem_of_here. }
        exfalso. apply Hbad. by apply content_guards.
      - destruct (negb (truthy (content params))
                  || negb (bool_decide (typeof (content params) = TString))) eqn:Hg1.
        { eexists. split; [done|]. apply list_elem_of_further, list_elem_of_here. }
        destruct (10000 <? lengthOf (content params)) eqn:Hg2.
        { eexists. split; [done|]. do 2 apply list_elem_of_further. apply list_elem_of_here. }
        destruct (negb (truthy (actorId (reqUser params)))
                  || negb (truthy (actorEmail (reqUser params)))) eqn:Hg3.
        { eexists. split; [done|]. do 3 apply list_elem_of_further. apply list_elem_of_here. }
        exfalso. apply Hbad. by apply actor_guards. }
    destruct Hmsg as (message & Hv & Hin). exists message.
    split; [done|]. split; [done|]. by apply Hthird.
  - intros Hid _ Hcontent Hactor. unfold validate.
    rewrite typeof_parseInt, bool_decide_eq_true_2 by done. rewrite Hid. simpl.
    pose proof Hcontent as Hc. apply content_guards in Hc as [-> ->].
    pose proof Hactor as Ha. apply actor_guards in Ha as ->.
    destruct Hcontent as (text & -> & _). destruct Hactor as (uid & email & -> & _).
    simpl. by eexists _, _.
Qed.

End service.

(** C9, as stated, fails at two inputs.  -5 is not a positive integer, yet
    the request passes validation and fails later, on the lookup of the
    mention.  The text 'abc' is no integer either and passes as well: the
    guard on the parsed id never fires, [typeof NaN] being ['number']. *)
Lemma C9_counterexample :
  (validate negativeIdRequest = inr ("hi"%string, sampleUser)
   /\ reply (answering statusBody) 400000 negativeIdRequest sampleWorld
      = (Rejected (PlainError "Mention not found"), sampleWorld))
  /\ (parseInt (mentionId textIdRequest) = JsNaN
      /\ validate textIdRequest = inr ("hi"%string, sampleUser)).
Proof. repeat split; reflexivity. Qed.

(** C9 on two requests: one without an email, one with a negative id. *)
Lemma C9_reply_validation_witness :
  let missingEmail :=
    mkReplyParams (JsNumber 1) (JsString "hi") (Some (mkActor (Some 7) None)) in
  (exists message,
     validate missingEmail = inl (PlainError message)
     /\ reply (answering statusBody) 400000 missingEmail sampleWorld
        = (Rejected (PlainError message), sampleWorld))
  /\ (exists text user, validate negativeIdRequest = inr (text, user)).
Proof.
  cbn zeta. split.
  - destruct (proj1 (C9_reply_validation (answering statusBody) 400000
                       (mkReplyParams (JsNumber 1) (JsString "hi")
                          (Some (mkActor (Some 7) None))) sampleWorld))
      as (message & Hv & _ & Hr).
    + right. right. intros (uid & email & Heq & _). discriminate Heq.
    + exists message. by split.
  - destruct (proj1 (proj2 (C9_reply_validation (answering statusBody) 400000
                              negativeIdRequest sampleWorld)))
      as (text & user & Hv & _).
    + reflexivity.
    + by exists (-5).
    + exists "hi"%string. split; [reflexivity|]. split; [discriminate|simpl; lia].
    + exists 7, "test@example.com"%string. split; [reflexivity|]. split; discriminate.
    + by exists text, user.
Defined.

End ValidationProofs.
(** ** More about the circuit breaker *)

Module CircuitBreakerFacts.
Import CircuitBreaker CircuitBreakerState Samples.

Section facts.
Context {V : Type}.
Variable p : Params.

Lemma execute_initialized now (fn : option (Outcome V)) b :
  stateInitialized (after (execute p now fn b)) = true.
Proof.
  unfold execute. destruct (initializeState p b) as [st f l n]. cbn [state].
  destruct st; simpl.
  - destruct fn as [[v|e]|]; simpl; [done| |]; destruct (maxFailures p <=? f + 1); done.
  - destruct (toNumber n <=? now); simpl; [|done].
    destruct fn as [[v|e]|]; done.
  - destruct fn as [[v|e]|]; done.
Qed.

(** X1.  Between two calls a breaker is closed or open: whatever state a
    call starts from, loaded or not, and however the wrapped function
    settles, the call does not leave the breaker half-open. *)
Theorem X1_rests_closed_or_open now (fn : option (Outcome V)) b :
  getState (after (execute p now fn b)) = CLOSED
  \/ getState (after (execute p now fn b)) = OPEN.
Proof.
  unfold execute, getState. destruct (initializeState p b) as [st f l n]. cbn [state].
  destruct st; simpl.
  - destruct fn as [[v|e]|]; simpl; [by left| |];
      destruct (maxFailures p <=? f + 1); simpl; auto.
  - destruct (toNumber n <=? now); simpl; [|by right].
    destruct fn as [[v|e]|]; simpl; auto.
  - destruct fn as [[v|e]|]; simpl; auto.
Qed.

(** X2.  A call gives a value only by calling the wrapped function, once,
    and it then leaves the breaker closed with its memory of failures
    erased. *)
Theorem X2_value_resets now (fn : option (Outcome V)) b v :
  outcome (execute p now fn b) = Resolved v ->
  fn = Some (Resolved v)
  /\ invocations (execute p now fn b) = 1%nat
  /\ localState (after (execute p now fn b)) = initialLocalState.
Proof.
  unfold execute. destruct (initializeState p b) as [st f l n]. cbn [state].
  destruct st; simpl.
  - destruct fn as [[v'|e]|]; simpl.
    + intros [= ->]. done.
    + destruct (maxFailures p <=? f + 1); done.
    + destruct (maxFailures p <=? f + 1); done.
  - destruct (toNumber n <=? now); simpl; [|done].
    destruct fn as [[v'|e]|]; simpl; [|done|done].
    intros [= ->]. done.
  - destruct fn as [[v'|e]|]; simpl; [|done|done].
    intros [= ->]. done.
Qed.

Lemma ceilDiv_bounds x d :
  0 < d -> d * (ceilDiv x d - 1) < x <= d * ceilDiv x d.
Proof.
  intros Hd. unfold ceilDiv.
  pose proof (Z.div_mod (- x) d ltac:(lia)) as Hdm.
  pose proof (Z.mod_pos_bound (- x) d Hd) as Hm.
  nia.
Qed.

(** X3.  The wait announced by the rejection of an open circuit covers the
    time that is left until the next attempt, rounded up to whole seconds:
    it is at least one second and less than a second too long. *)
Theorem X3_announced_wait now (fn : option (Outcome V)) b next :
  state (initializeState p b) = OPEN ->
  nextAttemptTime (initializeState p b) = Some next ->
  now < next ->
  exists waitTime,
    outcome (execute p now fn b)
    = Rejected (CircuitOpenError (failures (initializeState p b)) waitTime)
    /\ 1 <= waitTime
    /\ 1000 * (waitTime - 1) < next - now <= 1000 * waitTime.
Proof.
  intros Hst Hnext Hlt. unfold execute.
  destruct (initializeState p b) as [st f l n]. simpl in *. subst st n. simpl.
  destruct (Z.leb_spec next now); [lia|]. simpl.
  eexists. split; [done|].
  pose proof (ceilDiv_bounds (next - now) 1000 ltac:(lia)). lia.
Qed.

(** X4.  Loading degrades to the local state: when the loader throws, when
    it finds no row, when the key is missing or empty, and on every call
    after the first, a call behaves as that of a breaker without a loader. *)
Theorem X4_load_degrades now (fn : option (Outcome V)) b :
  stateInitialized b = true
  \/ truthyKey (stateKey p) = None
  \/ (exists load key,
        loadStateFn p = Some load /\ truthyKey (stateKey p) = Some key
        /\ (load key = LoadThrows \/ load key = Loaded None)) ->
  execute p now fn b = execute (withoutLoader p) now fn b.
Proof.
  intros H.
  assert (Hinit : initializeState p b = initializeState (withoutLoader p) b).
  { unfold initializeState. simpl.
    destruct (stateInitialized b); [done|].
    destruct H as [H|[H|(load & key & Hl & Hk & H)]]; [done| |].
    - rewrite H. by destruct (loadStateFn p).
    - rewrite Hl, Hk. by destruct H as [-> | ->]. }
  unfold execute. rewrite <- Hinit. done.
Qed.

(** X5.  A stored row that says OPEN and holds no instant of a next attempt
    does not block: the first call of a breaker that loads it enters
    HALF_OPEN and calls the wrapped function once, as a probe.  A probe that
    succeeds closes the circuit with its counters reset; a probe that fails
    opens it again until [now + resetTimeout], one failure above the count
    of the row, whatever the threshold is. *)
Theorem X5_open_row_without_instant now (r : Outcome V) b load key ext :
  stateInitialized b = false ->
  loadStateFn p = Some load ->
  truthyKey (stateKey p) = Some key ->
  load key = Loaded (Some ext) ->
  ext_state ext = Some OPEN ->
  orNull (ext_nextAttemptTime ext) = None ->
  0 <= now ->
  let ex := execute p now (Some r) b in
  invocations ex = 1%nat
  /\ head (entered (trace ex)) = Some HALF_OPEN
  /\ match r with
     | Resolved v =>
         outcome ex = Resolved v
         /\ localState (after ex) = initialLocalState
         /\ entered (trace ex) = [HALF_OPEN; CLOSED]
     | Rejected e =>
         outcome ex = Rejected (CircuitTrippedError false (default 0 (ext_failures ext) + 1)
                                  (ceilDiv (resetTimeout p) 1000) e)
         /\ localState (after ex)
            = mkLocalState OPEN (default 0 (ext_failures ext) + 1) (Some now)
                (Some (now + resetTimeout p))
         /\ entered (trace ex) = [HALF_OPEN; OPEN]
     end.
Proof.
  intros Hb Hl Hk Hload Hst Hnext Hnow. cbn zeta.
  assert (Hinit : initializeState p b
                  = mkLocalState OPEN (default 0 (ext_failures ext))
                      (orNull (ext_lastFailureTime ext)) None).
  { unfold initializeState. by rewrite Hb, Hl, Hk, Hload, Hst, Hnext. }
  rewrite CircuitBreakerProofs.execute_probe by (rewrite Hinit; simpl; done).
  cbn zeta. rewrite Hinit. cbn [failures lastFailureTime nextAttemptTime].
  assert (Hcons : forall (ev : Effect) l, ev :: l = [ev] ++ l) by done.
  assert (Hentered : forall s f l n ls',
            entered (Entered s :: (if onStateChange p then [Notified s f l n] else [])
                       ++ persistState p now ls') = [s]).
  { intros s f l n ls'.
    rewrite Hcons, !CircuitBreakerProofs.entered_app, CircuitBreakerProofs.entered_notified.
    by rewrite CircuitBreakerProofs.entered_persistState. }
  destruct r as [v|e]; cbn [outcome after invocations trace localState];
    rewrite CircuitBreakerProofs.entered_app, !Hentered; auto 10.
Qed.

(** X6.  A call without a function, neither given nor configured, is a
    failure of the circuit: nothing is called, the error is that of the
    missing function and, in the closed state below the threshold, the
    count of failures goes up by one. *)
Theorem X6_missing_function_counts now b :
  state (initializeState p b) = CLOSED ->
  failures (initializeState p b) + 1 < maxFailures p ->
  let ex := execute (V:=V) p now None b in
  outcome ex = Rejected NoFunctionProvided
  /\ invocations ex = 0%nat
  /\ failures (localState (after ex)) = failures (initializeState p b) + 1
  /\ lastFailureTime (localState (after ex)) = Some now
  /\ getState (after ex) = CLOSED.
Proof.
  intros Hst Hlt. cbn zeta. unfold execute, getState.
  destruct (initializeState p b) as [st f l n]. simpl in *. subst st. simpl.
  destruct (Z.leb_spec (maxFailures p) (f + 1)); [lia|]. done.
Qed.

Lemma execute_atRest now (r : Outcome V) ls :
  1 <= maxFailures p ->
  atRest p ls ->
  atRest p (localState (after (execute p now (Some r) (mkBreaker ls true)))).
Proof.
  intros Hmax Hrest. unfold execute, initializeState. cbn [stateInitialized localState].
  destruct ls as [st f l n]. unfold atRest in *. cbn [state failures nextAttemptTime lastFailureTime] in *.
  destruct st; [| |done].
  - destruct Hrest as [Hf ->]. destruct r as [v|e]; simpl.
    + split; [lia|done].
    + destruct (Z.leb_spec (maxFailures p) (f + 1)); simpl.
      * split; [lia|]. by exists now.
      * split; [lia|done].
  - destruct Hrest as (Hf & t & -> & ->). simpl.
    destruct (Z.leb_spec (t + resetTimeout p) now); simpl.
    + destruct r as [v|e]; simpl.
      * split; [lia|done].
      * split; [lia|]. by exists now.
    + split; [done|]. by exists t.
Qed.

(** X7.  What a serial run keeps true of a breaker that started from the
    defaults: when it rests closed the count of failures is below the
    threshold and no next attempt is scheduled; when it rests open the
    count is at or above the threshold and the next attempt is
    [resetTimeout] after the last failure. *)
Theorem X7_rest_invariant (calls : list (Z * Outcome V)) ls :
  1 <= maxFailures p ->
  atRest p ls ->
  atRest p (localState (run p calls (mkBreaker ls true)).1).
Proof.
  intros Hmax. revert ls. induction calls as [|[now r] calls IH]; intros ls Hrest.
  - done.
  - cbn [run].
    pose proof (execute_atRest now r ls Hmax Hrest) as Hstep.
    pose proof (execute_initialized now (Some r) (mkBreaker ls true)) as Hinit.
    destruct (after (execute p now (Some r) (mkBreaker ls true))) as [ls' i'].
    simpl in Hinit, Hstep. subst i'.
    specialize (IH ls' Hstep).
    by destruct (run p calls (mkBreaker ls' true)).
Qed.

End facts.

(** X2 on a probe that succeeds. *)
Lemma X2_value_resets_witness :
  let b := mkBreaker (mkLocalState OPEN 3 (Some 30) (Some 1030)) true in
  outcome (execute sampleParams 2000 (Some (Resolved 7)) b) = Resolved 7
  /\ localState (after (execute sampleParams 2000 (Some (Resolved 7)) b))
     = initialLocalState.
Proof.
  cbn zeta. split; [reflexivity|].
  apply (X2_value_resets sampleParams 2000 (Some (Resolved 7))
           (mkBreaker (mkLocalState OPEN 3 (Some 30) (Some 1030)) true) 7).
  reflexivity.
Defined.

(** X3 on a circuit opened until 1030, called at 40. *)
Lemma X3_announced_wait_witness :
  exists waitTime,
    outcome (execute sampleParams 40 (Some (Resolved 7))
               (mkBreaker (mkLocalState OPEN 3 (Some 30) (Some 1030)) true))
    = Rejected (CircuitOpenError 3 waitTime)
    /\ 1 <= waitTime
    /\ 1000 * (waitTime - 1) < 1030 - 40 <= 1000 * waitTime.
Proof.
  apply (X3_announced_wait sampleParams 40 (Some (Resolved 7))
           (mkBreaker (mkLocalState OPEN 3 (Some 30) (Some 1030)) true) 1030);
    [reflexivity|reflexivity|lia].
Defined.

(** X4 on a loader that throws. *)
Lemma X4_load_degrades_witness :
  let p := mkParams 3 1000 (Some "bluesky") (Some (fun _ => LoadThrows)) true true in
  execute p 10 (Some (Resolved 7)) create
  = execute (withoutLoader p) 10 (Some (Resolved 7)) create.
Proof.
  cbn zeta.
  apply (X4_load_degrades
           (mkParams 3 1000 (Some "bluesky") (Some (fun _ => LoadThrows)) true true)
           10 (Some (Resolved 7)) create).
  right. right. exists (fun _ => LoadThrows), "bluesky".
  split; [reflexivity|]. split; [reflexivity|]. left. reflexivity.
Defined.

(** X5 on a row that holds the state alone: a probe that succeeds. *)
Lemma X5_open_row_without_instant_witness :
  let row := mkExternalState (Some OPEN) None None None in
  let p := mkParams 3 1000 (Some "bluesky") (Some (fun _ => Loaded (Some row))) true true in
  let ex := execute p 10 (Some (Resolved 7)) create in
  invocations ex = 1%nat
  /\ head (entered (trace ex)) = Some HALF_OPEN
  /\ outcome ex = Resolved 7
  /\ localState (after ex) = initialLocalState
  /\ entered (trace ex) = [HALF_OPEN; CLOSED].
Proof.
  cbn zeta.
  apply (X5_open_row_without_instant
           (mkParams 3 1000 (Some "bluesky")
              (Some (fun _ => Loaded (Some (mkExternalState (Some OPEN) None None None))))
              true true)
           10 (Resolved 7) create
           (fun _ => Loaded (Some (mkExternalState (Some OPEN) None None None)))
           "bluesky" (mkExternalState (Some OPEN) None None None));
    try reflexivity.
  lia.
Defined.

(** X6 on a new breaker with a threshold of 3. *)
Lemma X6_missing_function_counts_witness :
  let ex := execute (V:=Z) sampleParams 10 None create in
  outcome ex = Rejected NoFunctionProvided
  /\ invocations ex = 0%nat
  /\ failures (localState (after ex)) = failures (initializeState sampleParams create) + 1
  /\ lastFailureTime (localState (after ex)) = Some 10
  /\ getState (after ex) = CLOSED.
Proof.
  apply (X6_missing_function_counts (V:=Z) sampleParams 10 create); [reflexivity|].
  vm_compute. reflexivity.
Defined.

(** X7 on three failures, a rejected call, a failed probe and a probe that
    succeeds. *)
Lemma X7_rest_invariant_witness :
  atRest sampleParams
    (localState
       (run sampleParams
          [(10, Rejected (HttpError (Some 500))); (20, Rejected (HttpError None));
           (30, Rejected (HttpError (Some 503))); (40, Resolved 7);
           (1030, Rejected (HttpError (Some 500))); (2030, Resolved 7)]
          (mkBreaker initialLocalState true)).1).
Proof.
  apply (X7_rest_invariant sampleParams); [vm_compute; discriminate|].
  split; [|reflexivity]. split; [vm_compute; discriminate|reflexivity].
Defined.

End CircuitBreakerFacts.

(** ** The circuit table shared by the handlers *)

Module SharedCircuitFacts.
Import CircuitBreaker CircuitBreakerState SocialMediaService.

Section facts.
Context {V : Type}.
Variable tbl : gmap string StateData.
Variable platform : string.
Hypothesis platform_named : platform <> "".

Lemma truthyKey_platform : truthyKey (Some platform) = Some platform.
Proof. unfold truthyKey. by rewrite decide_False. Qed.


Lemma load_landed (tr : list Effect) key d rest :
  writes tr = rest ++ [(key, d)] ->
  landed tr tbl !! key = Some d.
Proof.
  intros Hw. unfold landed. rewrite Hw, foldl_app. simpl. apply lookup_insert_eq.
Qed.

Lemma landed_other (tr : list Effect) other :
  Forall (fun w => w.1 = platform) (writes tr) ->
  other <> platform ->
  landed tr tbl !! other = tbl !! other.
Proof.
  unfold landed. generalize (writes tr). intros ws. revert tbl.
  induction ws as [|[k d] ws IH]; intros t Hall Hne; [done|].
  apply Forall_cons in Hall as [Hk Hall]. simpl in *. subst k.
  rewrite IH by done. by apply lookup_insert_ne.
Qed.

Lemma initializeState_loaded t d :
  t !! platform = Some d ->
  initializeState (breakerParams t platform) create
  = {| state := state (snapshot d); failures := failures (snapshot d);
       lastFailureTime := orNull (lastFailureTime (snapshot d));
       nextAttemptTime := orNull (nextAttemptTime (snapshot d)) |}.
Proof.
  intros Hd. unfold initializeState.
  cbn [stateInitialized create loadStateFn stateKey breakerParams].
  rewrite truthyKey_platform. unfold loadCircuitState. by rewrite Hd.
Qed.

(** What the calls of a handler write, and where: every write is under the
    key of the platform, and when a call writes, its last write holds the
    local state the call ends in. *)
Lemma execute_writes now (fn : option (Outcome V)) b :
  let ex := execute (breakerParams tbl platform) now fn b in
  Forall (fun w => w.1 = platform) (writes (trace ex))
  /\ (writes (trace ex) <> [] ->
      exists rest,
        writes (trace ex) = rest ++ [(platform, mkStateData (localState (after ex)) now)]).
Proof.
  cbn zeta. unfold execute.
  destruct (initializeState (breakerParams tbl platform) b) as [st f l n]. cbn [state].
  unfold changeState, persistState. cbn [saveStateFn stateKey onStateChange breakerParams].
  rewrite truthyKey_platform.
  destruct st; simpl.
  - destruct fn as [[v|e]|]; simpl.
    + split; [done|]. done.
    + destruct (5 <=? f + 1); simpl.
      * split; [by repeat constructor|]. intros _. by exists [].
      * split; [by repeat constructor|]. intros _. by exists [].
    + destruct (5 <=? f + 1); simpl.
      * split; [by repeat constructor|]. intros _. by exists [].
      * split; [by repeat constructor|]. intros _. by exists [].
  - destruct (toNumber n <=? now); simpl; [|done].
    destruct fn as [[v|e]|]; simpl.
    + split; [by repeat constructor|]. intros _. by eexists [_].
    + split; [by repeat constructor|]. intros _. by eexists [_].
    + split; [by repeat constructor|]. intros _. by eexists [_].
  - destruct fn as [[v|e]|]; simpl.
    + split; [by repeat constructor|]. intros _. by exists [].
    + split; [by repeat constructor|]. intros _. by exists [].
    + split; [by repeat constructor|]. intros _. by exists [].
Qed.

Lemma saved_state_is_loaded now (fn : option (Outcome V)) b :
  writes (trace (execute (breakerParams tbl platform) now fn b)) <> [] ->
  initializeState
    (breakerParams (landed (trace (execute (breakerParams tbl platform) now fn b)) tbl)
       platform) create
  = reloaded (localState (after (execute (breakerParams tbl platform) now fn b))).
Proof.
  intros Hw.
  destruct (execute_writes now fn b) as [_ Hlast].
  destruct (Hlast Hw) as [rest Hrest].
  by rewrite (initializeState_loaded _ _ (load_landed _ _ _ _ Hrest)).
Qed.

(** X8.  Saving and loading are inverse to each other up to [x || null]:
    when a call of a handler writes, a breaker created afterwards for the
    same platform starts from the local state that call ended in, with an
    instant of zero read back as null; the rows of the other platforms are
    as they were. *)
Theorem X8_saved_state_is_loaded now (fn : option (Outcome V)) b :
  let ex := execute (breakerParams tbl platform) now fn b in
  writes (trace ex) <> [] ->
  initializeState (breakerParams (landed (trace ex) tbl) platform) create
  = reloaded (localState (after ex))
  /\ forall other, other <> platform -> landed (trace ex) tbl !! other = tbl !! other.
Proof.
  cbn zeta. intros Hw. split.
  - by apply saved_state_is_loaded.
  - intros other Hne. apply landed_other; [|done].
    by destruct (execute_writes now fn b).
Qed.


(** The report is healthy exactly when every stored circuit is closed. *)
Lemma findHealth_code (t : gmap string StateData) :
  (StatusController.findHealth t).1 = 200
  <-> map_Forall (fun _ d => state (snapshot d) = CLOSED) t.
Proof.
  unfold StatusController.findHealth, findHealth. cbn [fst report_status].
  rewrite map_Forall_to_list.
  destruct (forallb h_healthy (rowHealth <$> map_to_list t)) eqn:Hall.
  - rewrite bool_decide_eq_true_2 by done. split; [intros _|done].
    rewrite forallb_forall in Hall. apply Forall_forall. intros [k d] Hin.
    specialize (Hall (rowHealth (k, d))). simpl in *.
    eapply bool_decide_eq_true_1. apply Hall. apply list_elem_of_In.
    apply list_elem_of_fmap. by exists (k, d).
  - rewrite bool_decide_eq_false_2 by done. split; [done|]. intros Hclosed.
    exfalso. apply not_true_iff_false in Hall. apply Hall.
    apply forallb_forall. intros h Hin. apply list_elem_of_In in Hin.
    apply list_elem_of_fmap in Hin as ([k d] & -> & Hin).
    rewrite Forall_forall in Hclosed. specialize (Hclosed (k, d) Hin). simpl in *.
    by apply bool_decide_eq_true_2.
Qed.

(** X27.  The health endpoint answers from the circuit table: 200 when every
    stored circuit is closed, which includes the empty table, and 503
    otherwise.  A call of a handler that writes and does not end closed
    turns the answer into 503, whatever the other circuits are. *)
Theorem X27_health_reads_the_table now (fn : option (Outcome V)) b :
  ((StatusController.findHealth tbl).1 = 200
   <-> map_Forall (fun _ d => state (snapshot d) = CLOSED) tbl)
  /\ ((StatusController.findHealth tbl).1 = 200
      \/ (StatusController.findHealth tbl).1 = 503)
  /\ (let ex := execute (breakerParams tbl platform) now fn b in
      writes (trace ex) <> [] ->
      getState (after ex) <> CLOSED ->
      (StatusController.findHealth (landed (trace ex) tbl)).1 = 503).
Proof.
  split; [apply findHealth_code|]. split.
  - unfold StatusController.findHealth. cbn [fst]. case_bool_decide; auto.
  - cbn zeta. intros Hw Hopen.
    destruct (execute_writes now fn b) as [_ Hlast].
    destruct (Hlast Hw) as [rest Hrest].
    pose proof (load_landed _ _ _ _ Hrest) as Hrow.
    assert (Hnot : (StatusController.findHealth
                      (landed (trace (execute (breakerParams tbl platform) now fn b)) tbl)).1
                   <> 200).
    { intros Hcode. apply findHealth_code in Hcode.
      specialize (Hcode _ _ Hrow). simpl in Hcode. by apply Hopen. }
    revert Hnot. unfold StatusController.findHealth. cbn [fst]. by case_bool_decide.
Qed.

End facts.

(** X8 on the first failure of a new handler over an empty table. *)
Lemma X8_saved_state_is_loaded_witness :
  let ex := execute (V:=Z) (breakerParams ∅ "bluesky") 10
              (Some (Rejected (HttpError (Some 500)))) create in
  initializeState (breakerParams (landed (trace ex) ∅) "bluesky") create
  = reloaded (localState (after ex))
  /\ forall other, other <> "bluesky" ->
       landed (trace ex) ∅ !! other = (∅ : gmap string StateData) !! other.
Proof.
  apply (X8_saved_state_is_loaded (V:=Z) ∅ "bluesky" ltac:(discriminate) 10
           (Some (Rejected (HttpError (Some 500)))) create).
  vm_compute. discriminate.
Defined.


(** X27 on the empty table, and on the table after a fifth failure. *)
Lemma X27_health_reads_the_table_witness :
  let b := mkBreaker (mkLocalState CLOSED 4 (Some 5) None) true in
  let ex := execute (V:=Z) (breakerParams ∅ "bluesky") 10
              (Some (Rejected (HttpError (Some 500)))) b in
  (StatusController.findHealth ∅).1 = 200
  /\ (StatusController.findHealth (landed (trace ex) ∅)).1 = 503.
Proof.
  cbn zeta.
  destruct (X27_health_reads_the_table (V:=Z) ∅ "bluesky" ltac:(discriminate) 10
              (Some (Rejected (HttpError (Some 500))))
              (mkBreaker (mkLocalState CLOSED 4 (Some 5) None) true))
    as (H1 & _ & H3).
  split.
  - apply H1. apply map_Forall_empty.
  - apply H3; vm_compute; discriminate.
Defined.

End SharedCircuitFacts.

(** ** More about the retry engine *)

Module RetryFacts.
Import ExponentialBackoff ExponentialBackoffCall.

Section facts.
Context {St V : Type}.
Variable p : Params.
Variable executeFunction : nat -> St -> Outcome V * St.
Variable shouldRetry : Error -> St -> bool.
Variable random : nat -> Q.

(** X10.  With a negative [maxRetries] the loop has no iteration: the
    operation is not called, nothing sleeps, and the call resolves to
    [undefined]. *)
Theorem X10_negative_maxRetries s :
  maxRetries p < 0 ->
  retry p executeFunction shouldRetry random s = mkRun ReturnedUndefined s 0%nat [].
Proof.
  intros Hneg. unfold retry.
  by replace (Z.to_nat (maxRetries p + 1)) with 0%nat by lia.
Qed.

(** The loop when every attempt fails with an error that is retried: it
    runs to the attempt at [maxRetries], which throws its error. *)
Lemma loop_exhausted fuel attempt s :
  (1 <= fuel)%nat ->
  Z.of_nat (attempt + fuel) = maxRetries p + 1 ->
  (forall k s0, isRejected (executeFunction k s0).1 = true) ->
  (forall e s0, shouldRetry e s0 = true) ->
  let r := loop p executeFunction shouldRetry random fuel attempt s in
  executions r = fuel
  /\ length (sleeps r) = pred fuel
  /\ exists s0 e,
       executeFunction (Z.to_nat (maxRetries p)) s0 = (Rejected e, final r)
       /\ settled r = Thrown e.
Proof.
  intros Hfuel Hsum Hfail Hretry. cbn zeta.
  revert attempt s Hfuel Hsum. induction fuel as [|fuel IH]; intros attempt s Hfuel Hsum; [lia|].
  simpl. pose proof (Hfail attempt s) as Hrej.
  destruct (executeFunction attempt s) as [[v|e] s'] eqn:Hex; [done|]. simpl.
  rewrite Hretry. simpl. rewrite orb_false_r.
  case_bool_decide as Hlast; simpl.
  - assert (fuel = 0%nat) as -> by lia.
    split; [done|]. split; [done|]. exists s, e.
    replace (Z.to_nat (maxRetries p)) with attempt by lia. done.
  - destruct (IH (S attempt) s') as (Hn & Hs & Hthrown); [lia|lia|].
    rewrite Hn, Hs. split; [done|]. split; [lia|]. done.
Qed.

(** X11.  When every attempt fails and every error is retried, the operation
    is executed exactly [maxRetries + 1] times with [maxRetries] sleeps in
    between, and the error thrown is the one of the last attempt. *)
Theorem X11_exhausted s :
  0 <= maxRetries p ->
  (forall k s0, isRejected (executeFunction k s0).1 = true) ->
  (forall e s0, shouldRetry e s0 = true) ->
  let r := retry p executeFunction shouldRetry random s in
  executions r = Z.to_nat (maxRetries p + 1)
  /\ length (sleeps r) = Z.to_nat (maxRetries p)
  /\ exists s0 e,
       executeFunction (Z.to_nat (maxRetries p)) s0 = (Rejected e, final r)
       /\ settled r = Thrown e.
Proof.
  intros Hmax Hfail Hretry. cbn zeta. unfold retry.
  destruct (loop_exhausted (Z.to_nat (maxRetries p + 1)) 0 s) as (Hn & Hs & Hthrown);
    [lia|lia|done|done|].
  split; [done|]. split; [|done]. rewrite Hs. lia.
Qed.

Lemma totalSleep_bound (l : list Z) m :
  Forall (fun w => w <= m) l -> totalSleep l <= Z.of_nat (length l) * m.
Proof.
  induction 1 as [|w l Hw Hl IH]; simpl; [lia|].
  unfold totalSleep in *. simpl. lia.
Qed.

(** X12.  The time a call spends sleeping is bounded by the configuration,
    whatever the operation and the random source do: it is at most
    [maxRetries * maxDelay]. *)
Theorem X12_total_sleep_bound s :
  0 <= maxRetries p ->
  0 <= maxDelay p ->
  totalSleep (sleeps (retry p executeFunction shouldRetry random s))
  <= maxRetries p * maxDelay p.
Proof.
  intros Hmax Hdelay. unfold retry.
  set (fuel := Z.to_nat (maxRetries p + 1)).
  set (r := loop p executeFunction shouldRetry random fuel 0 s).
  assert (Hlen : (length (sleeps r) <= Z.to_nat (maxRetries p))%nat).
  { unfold r. rewrite RetryProofs.loop_sleeps_length by (unfold fuel; lia).
    pose proof (RetryProofs.loop_executions p executeFunction shouldRetry random fuel 0 s).
    unfold fuel in *. lia. }
  assert (Hall : Forall (fun w => w <= maxDelay p) (sleeps r)).
  { apply Forall_lookup. intros i w Hi.
    apply RetryProofs.loop_sleeps_lookup in Hi as ->. unfold waitTime. lia. }
  pose proof (totalSleep_bound _ _ Hall). nia.
Qed.

(** The loop when the attempt of index [k] is the first that succeeds. *)
Lemma loop_first_success (k : nat) v fuel attempt s :
  Z.of_nat k <= maxRetries p ->
  (attempt <= k)%nat ->
  (k - attempt < fuel)%nat ->
  (forall j s0, (j < k)%nat ->
     exists e s1, executeFunction j s0 = (Rejected e, s1) /\ shouldRetry e s1 = true) ->
  (forall s0, exists s1, executeFunction k s0 = (Resolved v, s1)) ->
  let r := loop p executeFunction shouldRetry random fuel attempt s in
  settled r = Returned v
  /\ executions r = S (k - attempt)
  /\ sleeps r = waitTime p random <$> seq attempt (k - attempt).
Proof.
  intros Hk Hle Hfuel Hbefore Hat. cbn zeta.
  revert attempt s Hle Hfuel. induction fuel as [|fuel IH]; intros attempt s Hle Hfuel; [lia|].
  simpl. destruct (decide (attempt = k)) as [->|Hne].
  - destruct (Hat s) as [s1 ->]. simpl. by rewrite Nat.sub_diag.
  - destruct (Hbefore attempt s) as (e & s1 & -> & Hretry); [lia|]. simpl.
    rewrite Hretry. simpl. rewrite orb_false_r.
    rewrite bool_decide_eq_false_2 by lia. simpl.
    destruct (IH (S attempt) s1) as (H1 & H2 & H3); [lia|lia|].
    rewrite H1, H2, H3.
    replace (k - attempt)%nat with (S (k - S attempt)) by lia. done.
Qed.

(** X13.  The first success ends the call: when the attempts before the one
    of index [k] fail with errors that are retried and that attempt
    succeeds, within the budget, its value is returned after [k + 1]
    executions and [k] sleeps, the sleep after the attempt of index [j]
    being [waitTime j]. *)
Theorem X13_first_success (k : nat) v s :
  Z.of_nat k <= maxRetries p ->
  (forall j s0, (j < k)%nat ->
     exists e s1, executeFunction j s0 = (Rejected e, s1) /\ shouldRetry e s1 = true) ->
  (forall s0, exists s1, executeFunction k s0 = (Resolved v, s1)) ->
  let r := retry p executeFunction shouldRetry random s in
  settled r = Returned v
  /\ executions r = S k
  /\ sleeps r = waitTime p random <$> seq 0 k.
Proof.
  intros Hk Hbefore Hat. cbn zeta. unfold retry.
  destruct (loop_first_success k v (Z.to_nat (maxRetries p + 1)) 0 s) as (H1 & H2 & H3);
    [done|lia|lia|done|done|].
  rewrite Nat.sub_0_r in *. done.
Qed.

(** The loop over an operation that fails with the same error and leaves
    the state alone. *)
Lemma loop_constant_failure e0 fuel attempt (s : St) :
  (1 <= fuel)%nat ->
  Z.of_nat (attempt + fuel) = maxRetries p + 1 ->
  (forall k s0, executeFunction k s0 = (Rejected e0, s0)) ->
  (forall e s0, shouldRetry e s0 = true) ->
  let r := loop p executeFunction shouldRetry random fuel attempt s in
  settled r = Thrown e0
  /\ final r = s
  /\ executions r = fuel
  /\ length (sleeps r) = pred fuel.
Proof.
  intros Hfuel Hsum Hfail Hretry. cbn zeta.
  revert attempt Hfuel Hsum. induction fuel as [|fuel IH]; intros attempt Hfuel Hsum; [lia|].
  simpl. rewrite Hfail. simpl. rewrite Hretry. simpl. rewrite orb_false_r.
  case_bool_decide as Hlast; simpl.
  - assert (fuel = 0%nat) as -> by lia. done.
  - destruct (IH (S attempt)) as (H1 & H2 & H3 & H4); [lia|lia|].
    rewrite H1, H2, H3, H4. repeat split; lia.
Qed.

End facts.

(** X14.  A call that has no function to execute, neither given nor
    configured, does not fail at once: under the default [shouldRetry] the
    error of the missing function is retried like any other, so it is thrown
    after [maxRetries + 1] executions and [maxRetries] sleeps. *)
Theorem X14_missing_function_is_retried {St V} (p : Params) (random : nat -> Q) (s : St) :
  0 <= maxRetries p ->
  let r := retry (V:=V) p (ExponentialBackoffCall.executeFunction None None)
             defaultShouldRetry random s in
  settled r = Thrown NoFunctionProvided
  /\ final r = s
  /\ executions r = Z.to_nat (maxRetries p + 1)
  /\ length (sleeps r) = Z.to_nat (maxRetries p).
Proof.
  intros Hmax. cbn zeta. unfold retry.
  destruct (loop_constant_failure (V:=V) p
              (ExponentialBackoffCall.executeFunction None None) defaultShouldRetry random
              NoFunctionProvided (Z.to_nat (maxRetries p + 1)) 0 s)
    as (H1 & H2 & H3 & H4); [lia|lia|done|done|].
  rewrite H4. repeat split; try done. lia.
Qed.


(** X10 on [maxRetries = -1]. *)
Lemma X10_negative_maxRetries_witness :
  retry (mkParams (-1) 1000 10000 2)
    (fun _ (calls : nat) => (Resolved 7, S calls)) (fun _ _ => true) (fun _ => 1 # 2) 0%nat
  = mkRun ReturnedUndefined 0%nat 0%nat [].
Proof.
  apply (X10_negative_maxRetries (mkParams (-1) 1000 10000 2)
           (fun _ (calls : nat) => (Resolved 7, S calls)) (fun _ _ => true)
           (fun _ => 1 # 2) 0%nat).
  reflexivity.
Defined.

(** X11 on the default configuration and an operation that always fails. *)
Lemma X11_exhausted_witness :
  let r := retry (V:=unit) defaultParams
             (fun _ (calls : nat) => (Rejected (HttpError (Some 503)), S calls))
             (fun _ _ => true) (fun _ => 1 # 2) 0%nat in
  executions r = Z.to_nat (maxRetries defaultParams + 1)
  /\ length (sleeps r) = Z.to_nat (maxRetries defaultParams)
  /\ exists s0 e,
       (Rejected (V:=unit) (HttpError (Some 503)), S s0) = (Rejected e, final r)
       /\ settled r = Thrown e.
Proof.
  apply (X11_exhausted (V:=unit) defaultParams
           (fun _ (calls : nat) => (Rejected (HttpError (Some 503)), S calls))
           (fun _ _ => true) (fun _ => 1 # 2) 0%nat);
    [vm_compute; discriminate|reflexivity|reflexivity].
Defined.

(** X12 on the default configuration: at most fifty seconds of sleep. *)
Lemma X12_total_sleep_bound_witness :
  totalSleep
    (sleeps (retry (V:=unit) defaultParams
               (fun _ (calls : nat) => (Rejected (HttpError (Some 503)), S calls))
               (fun _ _ => true) (fun _ => 1 # 2) 0%nat))
  <= 5 * 10000.
Proof.
  apply (X12_total_sleep_bound (V:=unit) defaultParams
           (fun _ (calls : nat) => (Rejected (HttpError (Some 503)), S calls))
           (fun _ _ => true) (fun _ => 1 # 2) 0%nat);
    vm_compute; discriminate.
Defined.

(** X13 on an operation that fails twice and then succeeds. *)
Lemma X13_first_success_witness :
  let r := retry defaultParams
             (fun attempt (calls : nat) =>
                (if (attempt <? 2)%nat then Rejected (HttpError None) else Resolved 7,
                 S calls))
             (fun _ _ => true) (fun _ => 1 # 2) 0%nat in
  settled r = Returned 7
  /\ executions r = 3%nat
  /\ sleeps r = waitTime defaultParams (fun _ => 1 # 2) <$> seq 0 2.
Proof.
  apply (X13_first_success defaultParams
           (fun attempt (calls : nat) =>
              (if (attempt <? 2)%nat then Rejected (HttpError None) else Resolved 7,
               S calls))
           (fun _ _ => true) (fun _ => 1 # 2) 2%nat 7 0%nat).
  - vm_compute. discriminate.
  - intros j s0 Hj. exists (HttpError None), (S s0).
    destruct (Nat.ltb_spec j 2); [done|lia].
  - intros s0. by exists (S s0).
Defined.

(** X14 on the default configuration. *)
Lemma X14_missing_function_is_retried_witness :
  let r := retry (St:=unit) (V:=unit) defaultParams
             (ExponentialBackoffCall.executeFunction None None)
             defaultShouldRetry (fun _ => 1 # 2) () in
  settled r = Thrown NoFunctionProvided
  /\ final r = ()
  /\ executions r = Z.to_nat (maxRetries defaultParams + 1)
  /\ length (sleeps r) = Z.to_nat (maxRetries defaultParams).
Proof.
  apply (X14_missing_function_is_retried (St:=unit) (V:=unit) defaultParams
           (fun _ => 1 # 2) ()).
  vm_compute. discriminate.
Defined.

End RetryFacts.

(** ** The retrying HTTP client *)

Module WithRetryFacts.
Import ExponentialBackoff WithRetry.

Section facts.
Context {V : Type}.
Variable options : Options.
Variable request : nat -> Outcome V.
Variable random : nat -> Q.

(** The state of the wrapper counts the calls of the client. *)
Lemma loop_counts_requests q (shouldRetry : Error -> nat -> bool) fuel attempt calls :
  let r := loop q (fun k n => (request k, S n)) shouldRetry random
             fuel attempt calls in
  final r = (calls + executions r)%nat.
Proof.
  cbn zeta. revert attempt calls.
  induction fuel as [|fuel IH]; intros attempt calls; simpl; [lia|].
  destruct (request attempt) as [v|e]; simpl; [lia|].
  case_match; simpl; [lia|]. rewrite IH. lia.
Qed.

(** X15.  The client wrapped by [withRetry] with the default condition
    retries server errors, rate limits and network errors, and nothing else.
    A response with a status below 500 other than 429 is thrown after one
    request and no sleep.  When every request fails with a status of 500 or
    more, with 429 or without a response, the client is called exactly
    [maxRetries + 1] times, four by default, and the error of the last
    request is thrown. *)
Theorem X15_withRetry_retries_server_errors :
  0 <= ExponentialBackoff.maxRetries (params options) ->
  WithRetry.shouldRetry options = None ->
  let r := retryWrapper options request random in
  (forall status,
     request 0%nat = Rejected (HttpError (Some status)) ->
     status < 500 -> status <> 429 ->
     settled r = Thrown (HttpError (Some status))
     /\ final r = 1%nat
     /\ sleeps r = [])
  /\ ((forall k, exists e, request k = Rejected e /\ shouldRetryHttpError e = true) ->
      final r = Z.to_nat (ExponentialBackoff.maxRetries (params options) + 1)
      /\ length (sleeps r) = Z.to_nat (ExponentialBackoff.maxRetries (params options))
      /\ exists e, request (Z.to_nat (ExponentialBackoff.maxRetries (params options))) = Rejected e
                   /\ settled r = Thrown e).
Proof.
  intros Hmax Hcond. cbn zeta. unfold retryWrapper, retryCondition. rewrite Hcond.
  cbn [ExponentialBackoffCall.executeFunction default from_option id].
  split.
  - intros status Hreq Hlo Hne. unfold retry. revert Hmax.
    generalize (params options). intros q Hmax.
    destruct (Z.to_nat (ExponentialBackoff.maxRetries q + 1)) as [|fuel] eqn:Hfuel; [lia|].
    assert (Hno : shouldRetryHttpError (HttpError (Some status)) = false).
    { unfold shouldRetryHttpError. simpl.
      destruct (Z.leb_spec 500 status); [lia|].
      by destruct (Z.eqb_spec status 429). }
    simpl. rewrite Hreq. simpl. rewrite Hno. simpl. by rewrite orb_true_r.
  - intros Hfail. unfold retry. revert Hmax.
    generalize (params options). intros q Hmax.
    pose proof (loop_counts_requests q (fun error _ => shouldRetryHttpError error)
                  (Z.to_nat (ExponentialBackoff.maxRetries q + 1))
                  0%nat 0%nat) as Hcount.
    cbn zeta in Hcount.
    (* every error met is retried: the predicate can be taken constant *)
    set (r := loop q (fun k n => (request k, S n))
                (fun error _ => shouldRetryHttpError error) random
                (Z.to_nat (ExponentialBackoff.maxRetries q + 1)) 0%nat 0%nat)
      in *.
    assert (Hrun : executions r = Z.to_nat (ExponentialBackoff.maxRetries q + 1)
                   /\ length (sleeps r) = Z.to_nat (ExponentialBackoff.maxRetries q)
                   /\ exists e, request (Z.to_nat (ExponentialBackoff.maxRetries q)) = Rejected e
                                /\ settled r = Thrown e).
    { unfold r. clear r Hcount.
      assert (Hgen : forall fuel attempt calls,
                (1 <= fuel)%nat ->
                Z.of_nat (attempt + fuel) = ExponentialBackoff.maxRetries q + 1 ->
                let r := loop q (fun k n => (request k, S n))
                           (fun error _ => shouldRetryHttpError error) random
                           fuel attempt calls in
                executions r = fuel /\ length (sleeps r) = pred fuel
                /\ exists e, request (Z.to_nat (ExponentialBackoff.maxRetries q)) = Rejected e
                             /\ settled r = Thrown e).
      { induction fuel as [|fuel IH]; intros attempt calls Hfuel Hsum; [lia|].
        simpl. destruct (Hfail attempt) as (e & Hreq & Hretry). rewrite Hreq. simpl.
        rewrite Hretry. simpl. rewrite orb_false_r.
        case_bool_decide as Hlast; simpl.
        - assert (fuel = 0%nat) as -> by lia. split; [done|]. split; [done|].
          exists e. replace (Z.to_nat (ExponentialBackoff.maxRetries q)) with attempt by lia.
          done.
        - destruct (IH (S attempt) (S calls)) as (H1 & H2 & H3); [lia|lia|].
          rewrite H1, H2. split; [done|]. split; [lia|done]. }
      destruct (Hgen (Z.to_nat (ExponentialBackoff.maxRetries q + 1)) 0%nat 0%nat)
        as (H1 & H2 & H3); [lia|lia|].
      split; [done|]. split; [|done]. rewrite H2. lia. }
    destruct Hrun as (H1 & H2 & H3). rewrite Hcount, H1. done.
Qed.

End facts.

(** X15 without options: a 404 is thrown at once, a service that keeps
    answering 503 is called four times. *)
Lemma X15_withRetry_retries_server_errors_witness :
  let notFound := retryWrapper (V:=unit) noOptions (fun _ => Rejected (HttpError (Some 404)))
                    (fun _ => 1 # 2) in
  let unavailable := retryWrapper (V:=unit) noOptions
                       (fun _ => Rejected (HttpError (Some 503))) (fun _ => 1 # 2) in
  (settled notFound = Thrown (HttpError (Some 404))
   /\ final notFound = 1%nat /\ sleeps notFound = [])
  /\ (final unavailable = 4%nat /\ length (sleeps unavailable) = 3%nat).
Proof.
  cbn zeta. split.
  - apply (X15_withRetry_retries_server_errors noOptions
             (fun _ => Rejected (V:=unit) (HttpError (Some 404))) (fun _ => 1 # 2));
      [vm_compute; discriminate|reflexivity|reflexivity|lia|lia].
  - destruct (X15_withRetry_retries_server_errors noOptions
                (fun _ => Rejected (V:=unit) (HttpError (Some 503))) (fun _ => 1 # 2))
      as [_ H]; [vm_compute; discriminate|reflexivity|].
    destruct H as (H1 & H2 & _).
    + intros k. exists (HttpError (Some 503)). split; reflexivity.
    + split; [exact H1|exact H2].
Defined.

End WithRetryFacts.

(** ** Batches of promises *)

Module ProcessPromisesFacts.
Import ProcessPromises Scenarios.

Lemma promiseAll_resolved {A} (vals : list A) :
  promiseAll (Resolved <$> vals) = Resolved vals.
Proof.
  induction vals as [|v vals IH]; [done|].
  rewrite fmap_cons. cbn [promiseAll]. by rewrite IH.
Qed.

Lemma promiseAll_rejected {A} (ps : list (Outcome A)) e :
  Rejected e ∈ ps -> isRejected (promiseAll ps) = true.
Proof.
  induction ps as [|[v|e'] ps IH]; intros Hin.
  - by apply elem_of_nil in Hin.
  - apply elem_of_cons in Hin as [Hin|Hin]; [done|]. simpl.
    specialize (IH Hin). by destruct (promiseAll ps).
  - done.
Qed.

Section facts.
Context {E V : Type}.
Variable promiseFunc : E -> nat -> list (option V) -> Outcome V.
Variable promisesLimit : Z.
Variable breakOnError : bool.
Variable delay : bool.

Lemma batch_positive : (1 <= batch promisesLimit)%nat.
Proof. unfold batch. lia. Qed.

(** A batch is awaited when it has [batch] promises. *)
Lemma flush_spec (k : nat) :
  (1 <= k)%nat -> (promisesLimit <=? Z.of_nat k) = bool_decide (batch promisesLimit <= k)%nat.
Proof.
  intros Hk. unfold batch.
  destruct (Z.leb_spec promisesLimit (Z.of_nat k)).
  - by rewrite bool_decide_eq_true_2 by lia.
  - by rewrite bool_decide_eq_false_2 by lia.
Qed.

Lemma before_spec index (st : State V) :
  betweenIterations promisesLimit index st -> collectedBefore promisesLimit index = length (data st).
Proof.
  intros (Hsum & Hpend & [q Hq] & _). unfold collectedBefore.
  pose proof batch_positive.
  rewrite <- (Nat.div_unique index (batch promisesLimit) q (length (promises st))) by lia. lia.
Qed.

Lemma before_le index : (collectedBefore promisesLimit index <= index)%nat.
Proof.
  unfold collectedBefore. pose proof batch_positive.
  pose proof (Nat.div_mod_eq index (batch promisesLimit)). lia.
Qed.

Lemma invariant_initial : betweenIterations promisesLimit 0 (initial (V:=V)).
Proof.
  pose proof batch_positive. repeat split; simpl; [lia| |done].
  exists 0%nat. lia.
Qed.

(** One iteration whose promise resolves. *)
Lemma handlePromise_resolved index x (st : State V) vals :
  betweenIterations promisesLimit index st ->
  promises st = Resolved <$> vals ->
  exists st',
    handlePromise promisesLimit delay (Resolved x) st = (Resolved (), st')
    /\ betweenIterations promisesLimit (S index) st'
    /\ (exists vals', promises st' = Resolved <$> vals'
                      /\ data st' ++ vals' = data st ++ vals ++ [x])
    /\ started st' = started st
    /\ reported st' = reported st.
Proof.
  intros (Hsum & Hpend & [q Hq] & Hpeak) Hvals. unfold handlePromise.
  pose proof batch_positive as Hsize.
  rewrite Hvals in *. rewrite length_fmap in *.
  rewrite length_app, length_fmap. simpl.
  rewrite flush_spec by lia.
  replace ((Resolved <$> vals) ++ [Resolved x]) with (Resolved <$> (vals ++ [x]))
    by (by rewrite fmap_app).
  case_bool_decide as Hfull.
  - rewrite promiseAll_resolved. eexists. split; [done|]. simpl.
    split.
    + repeat split; simpl.
      * rewrite !length_app. simpl. lia.
      * lia.
      * exists (S q). rewrite !length_app. simpl. lia.
      * apply Forall_app. split; [done|]. repeat constructor. lia.
    + split; [|done]. exists []. split; [done|]. by rewrite app_nil_r.
  - eexists. split; [done|]. simpl. split.
    + repeat split; simpl.
      * rewrite length_fmap, length_app. simpl. lia.
      * rewrite length_fmap, length_app. simpl. lia.
      * by exists q.
      * apply Forall_app. split; [done|]. repeat constructor. lia.
    + split; [|done]. by exists (vals ++ [x]).
Qed.

(** The loop when no promise handed to [handlePromise] rejects: because
    errors do not break, or because no call fails. *)
Lemma loop_resolved (rest done : list E) (st : State V) vals :
  breakOnError = false \/ (forall e i d, isRejected (promiseFunc e i d) = false) ->
  betweenIterations promisesLimit (length done) st ->
  promises st = Resolved <$> vals ->
  (forall i e, done !! i = Some e ->
     (data st ++ vals) !! i
     = Some (stored (promiseFunc e i (take (collectedBefore promisesLimit i) (data st ++ vals))))) ->
  exists st' vals',
    loop promiseFunc promisesLimit breakOnError delay (length done) rest st
    = (Resolved (), st')
    /\ betweenIterations promisesLimit (length (done ++ rest)) st'
    /\ promises st' = Resolved <$> vals'
    /\ (forall i e, (done ++ rest) !! i = Some e ->
          (data st' ++ vals') !! i
          = Some (stored (promiseFunc e i (take (collectedBefore promisesLimit i) (data st' ++ vals')))))
    /\ started st' = started st ++ seq (length done) (length rest).
Proof.
  intros Hok. revert done st vals.
  induction rest as [|entity rest IH]; intros done st vals Hinv Hvals Hdone.
  - exists st, vals. rewrite app_nil_r. simpl. by rewrite app_nil_r.
  - cbn [loop].
    set (settled := promiseFunc entity (length done) (data st)).
    assert (Hguard : exists st1,
              guarded breakOnError (length done) settled st = (Resolved (stored settled), st1)
              /\ promises st1 = promises st /\ data st1 = data st
              /\ pending st1 = pending st
              /\ started st1 = started st ++ [length done]).
    { unfold guarded. destruct settled as [v|err] eqn:Hs.
      - eexists. split; [done|]. done.
      - destruct Hok as [->|Hall].
        + eexists. split; [done|]. done.
        + specialize (Hall entity (length done) (data st)).
          fold settled in Hall. by rewrite Hs in Hall. }
    destruct Hguard as (st1 & -> & Hp1 & Hd1 & Hpk1 & Hs1).
    assert (Hinv1 : betweenIterations promisesLimit (length done) st1).
    { unfold betweenIterations in *. by rewrite Hp1, Hd1, Hpk1. }
    destruct (handlePromise_resolved (length done) (stored settled) st1 vals Hinv1)
      as (st2 & -> & Hinv2 & (vals2 & Hvals2 & Hfull) & Hs2 & _); [by rewrite Hp1|].
    rewrite Hd1 in Hfull.
    assert (Hlen : length (data st ++ vals) = length done).
    { destruct Hinv as (Hsum & _). rewrite Hvals, length_fmap in Hsum.
      rewrite length_app. lia. }
    destruct (IH (done ++ [entity]) st2 vals2) as (st' & vals' & Hloop & Hinv' & Hvals' & Hall & Hst).
    + rewrite length_app. simpl. by rewrite Nat.add_1_r.
    + done.
    + intros i e Hi. rewrite Hfull, app_assoc.
      apply lookup_app_Some in Hi as [Hi|[Hge Hi]].
      * pose proof (lookup_lt_Some _ _ _ Hi) as Hlt.
        rewrite lookup_app_l by lia. rewrite (Hdone i e Hi).
        rewrite (take_app_le (data st ++ vals)); [done|]. pose proof (before_le i). lia.
      * destruct (i - length done)%nat as [|k] eqn:Hk; [|done].
        simpl in Hi. injection Hi as <-.
        assert (i = length done) as -> by lia.
        rewrite lookup_app_r by lia. rewrite Hlen, Nat.sub_diag. simpl.
        rewrite (before_spec _ _ Hinv). rewrite <- app_assoc.
        by rewrite take_app_length.
    + rewrite length_app in Hloop. simpl in Hloop. rewrite Nat.add_1_r in Hloop.
      exists st', vals'. rewrite <- app_assoc in *. simpl in *.
      split; [done|]. split; [done|]. split; [done|]. split; [done|].
      rewrite Hst, Hs2, Hs1, <- app_assoc. simpl.
      rewrite length_app. simpl. by rewrite Nat.add_1_r.
Qed.

(** X16.  When errors do not break, or when no call of [promiseFunc] fails,
    the call resolves with one element per entity, in the order of the
    entities, whatever the size of the batches: the element of an entity is
    the result of its promise, or [undefined] when the promise was rejected;
    [promiseFunc] is called once per entity, in order, and the [data] it
    sees holds the results of the batches completed before its own.  When
    [promiseFunc] does not look at [data], the elements do not depend on
    the batch size. *)
Theorem X16_one_result_per_entity (entities : list E) :
  breakOnError = false \/ (forall e i d, isRejected (promiseFunc e i d) = false) ->
  let out := processPromises promiseFunc promisesLimit breakOnError delay entities in
  exists results,
    out.1 = Resolved results
    /\ length results = length entities
    /\ (forall i e, entities !! i = Some e ->
          results !! i
          = Some (stored (promiseFunc e i (take (collectedBefore promisesLimit i) results))))
    /\ started out.2 = seq 0 (length entities)
    /\ ((forall e i d d', promiseFunc e i d = promiseFunc e i d') ->
        results = imap (fun i e => stored (promiseFunc e i [])) entities).
Proof.
  intros Hok. cbn zeta. unfold processPromises.
  destruct (loop_resolved entities [] initial [] Hok invariant_initial)
    as (st & vals & Hloop & Hinv & Hvals & Hall & Hst); [done|done|].
  simpl in Hloop, Hinv, Hall, Hst. rewrite Hloop.
  assert (Hlen : length (data st ++ vals) = length entities).
  { destruct Hinv as (Hsum & _). rewrite Hvals, length_fmap in Hsum.
    rewrite length_app. lia. }
  assert (Hrest : forall results,
            results = data st ++ vals ->
            length results = length entities
            /\ (forall i e, entities !! i = Some e ->
                  results !! i
                  = Some (stored (promiseFunc e i (take (collectedBefore promisesLimit i) results))))
            /\ ((forall e i d d', promiseFunc e i d = promiseFunc e i d') ->
                results = imap (fun i e => stored (promiseFunc e i [])) entities)).
  { intros results ->. split; [done|]. split; [done|].
    intros Hblind. apply list_eq. intros i. rewrite list_lookup_imap.
    destruct (entities !! i) as [e|] eqn:Hi; simpl.
    - rewrite (Hall i e Hi). f_equal. f_equal. apply Hblind.
    - apply lookup_ge_None. apply lookup_ge_None in Hi. lia. }
  destruct (promises st) as [|promise remaining] eqn:Hp.
  - destruct vals as [|? ?]; [|done]. rewrite app_nil_r in *.
    exists (data st). destruct (Hrest (data st) eq_refl) as (H1 & H2 & H3). done.
  - rewrite Hvals, promiseAll_resolved. exists (data st ++ vals).
    destruct (Hrest (data st ++ vals) eq_refl) as (H1 & H2 & H3). done.
Qed.

(** One iteration, however its promise settles. *)
Lemma handlePromise_step index promise (st : State V) :
  betweenIterations promisesLimit index st ->
  exists o st',
    handlePromise promisesLimit delay promise st = (o, st')
    /\ started st' = started st
    /\ Forall (fun n => (n <= batch promisesLimit)%nat) (pending st')
    /\ (o = Resolved () ->
        betweenIterations promisesLimit (S index) st'
        /\ ((promises st' = promises st ++ [promise] /\ data st' = data st)
            \/ exists result, promiseAll (promises st ++ [promise]) = Resolved result)).
Proof.
  intros (Hsum & Hpend & [q Hq] & Hpeak). unfold handlePromise.
  pose proof batch_positive as Hsize.
  rewrite length_app. simpl. rewrite flush_spec by lia.
  assert (Hpeak' : Forall (fun n => (n <= batch promisesLimit)%nat)
                     (pending st ++ [(length (promises st) + 1)%nat])).
  { apply Forall_app. split; [done|]. repeat constructor. lia. }
  case_bool_decide as Hfull.
  - destruct (promiseAll (promises st ++ [promise])) as [result|err] eqn:Hall.
    + eexists _, _. split; [done|]. simpl. split; [done|]. split; [done|].
      intros _. split; [|right; by exists result].
      assert (Hres : length result = length (promises st ++ [promise])).
      { clear -Hall. revert result Hall.
        induction (promises st ++ [promise]) as [|[v|e] l IH]; intros result Hall; simpl in *.
        - by injection Hall as <-.
        - destruct (promiseAll l) as [vs|e]; [|done]. injection Hall as <-.
          simpl. by rewrite (IH vs).
        - done. }
      rewrite length_app in Hres. simpl in Hres.
      repeat split; simpl.
      * rewrite length_app. lia.
      * lia.
      * exists (S q). rewrite length_app. lia.
      * done.
    + eexists _, _. split; [done|]. simpl. split; [done|]. split; [done|]. done.
  - eexists _, _. split; [done|]. simpl. split; [done|]. split; [done|].
    intros _. split; [|by left].
    repeat split; simpl.
    + rewrite length_app. simpl. lia.
    + rewrite length_app. simpl. lia.
    + by exists q.
    + done.
Qed.

(** The bound on the indexes that are started when the entity of index [i]
    is bound to fail. *)
Lemma started_bound i index (st : State V) :
  betweenIterations promisesLimit index st ->
  ((i < index)%nat -> (length (data st) <= i)%nat) ->
  (index < batch promisesLimit * (i / batch promisesLimit + 1))%nat.
Proof.
  intros (Hsum & Hpend & [q Hq] & _) Hkept.
  pose proof batch_positive as Hsize.
  pose proof (Nat.div_mod_eq i (batch promisesLimit)) as Hdm.
  pose proof (Nat.mod_upper_bound i (batch promisesLimit) ltac:(lia)) as Hmod.
  destruct (decide (i < index)%nat) as [Hlt|Hge]; [|nia].
  specialize (Hkept Hlt).
  assert (q <= i / batch promisesLimit)%nat.
  { apply Nat.div_le_lower_bound; lia. }
  nia.
Qed.

(** The loop when errors break.  [i] is the index of an entity whose promise
    is bound to reject, if there is one: once it is started its promise
    stays in the batch, and the batch is not collected. *)
Lemma loop_breaking i (rest done : list E) (st : State V) :
  breakOnError = true ->
  betweenIterations promisesLimit (length done) st ->
  ((i < length done)%nat ->
     (length (data st) <= i)%nat
     /\ exists err, promises st !! (i - length (data st))%nat = Some (Rejected err)) ->
  (forall e, (done ++ rest) !! i = Some e ->
     forall d, isRejected (promiseFunc e i d) = true) ->
  exists o st' n,
    loop promiseFunc promisesLimit breakOnError delay (length done) rest st = (o, st')
    /\ Forall (fun n => (n <= batch promisesLimit)%nat) (pending st')
    /\ started st' = started st ++ seq (length done) n
    /\ (n <= length rest)%nat
    /\ (n = 0%nat
        \/ (length done + n <= batch promisesLimit * (i / batch promisesLimit + 1))%nat)
    /\ (o = Resolved () ->
        betweenIterations promisesLimit (length (done ++ rest)) st'
        /\ ((i < length (done ++ rest))%nat ->
            exists err, Rejected err ∈ promises st')).
Proof.
  intros Hbreak. revert done st.
  induction rest as [|entity rest IH]; intros done st Hinv Hkept Hfail.
  - exists (Resolved ()), st, 0%nat. simpl. rewrite !app_nil_r.
    split; [done|]. split; [by destruct Hinv as (_ & _ & _ & ?)|].
    split; [done|]. split; [done|]. split; [by left|].
    intros _. split; [done|]. intros Hlt.
    destruct (Hkept Hlt) as (_ & err & Hl). exists err. by eapply list_elem_of_lookup_2.
  - cbn [loop]. unfold guarded. rewrite Hbreak.
    set (settled := promiseFunc entity (length done) (data st)).
    set (st1 := mkState (promises st) (data st) (started st ++ [length done]) (pending st)
                  (reported st) (waits st)).
    set (promise := match settled with
                    | Resolved v => Resolved (Some v)
                    | Rejected err => Rejected err
                    end).
    replace (match settled with
             | Resolved v => (Resolved (Some v), st1)
             | Rejected err => (Rejected err, st1)
             end) with (promise, st1) by (unfold promise; by destruct settled).
    assert (Hinv1 : betweenIterations promisesLimit (length done) st1) by done.
    assert (Hhere : (length done < batch promisesLimit * (i / batch promisesLimit + 1))%nat).
    { apply (started_bound i (length done) st Hinv). intros Hlt. by destruct (Hkept Hlt). }
    destruct (handlePromise_step (length done) promise st1 Hinv1)
      as (o & st2 & -> & Hs2 & Hpk2 & Hnext).
    destruct o as [[]|err].
    + destruct (Hnext eq_refl) as [Hinv2 Hcases]. clear Hnext.
      assert (Hbound : i = length done -> exists err, promise = Rejected err).
      { intros ->. specialize (Hfail entity). rewrite lookup_app_r in Hfail by lia.
        rewrite Nat.sub_diag in Hfail. specialize (Hfail eq_refl (data st)).
        fold settled in Hfail. unfold promise. destruct settled as [v|err]; [done|].
        by exists err. }
      assert (Hkept2 : (i < length (done ++ [entity]))%nat ->
                (length (data st2) <= i)%nat
                /\ exists err, promises st2 !! (i - length (data st2))%nat
                               = Some (Rejected err)).
      { rewrite length_app. simpl. intros Hlt.
        destruct Hcases as [[Hp2 Hd2]|[result Hall]].
        - rewrite Hp2, Hd2. simpl.
          destruct (decide (i = length done)) as [Heq|Hne].
          + destruct (Hbound Heq) as [err ->]. subst i.
            destruct Hinv as (Hsum & _). split; [lia|]. exists err.
            rewrite lookup_app_r by lia.
            replace (length done - length (data st) - length (promises st))%nat
              with 0%nat by lia. done.
          + destruct Hkept as (Hle & err & Hl); [lia|]. split; [done|]. exists err.
            by apply lookup_app_l_Some.
        - exfalso. simpl in Hall.
          assert (exists err, Rejected err ∈ promises st ++ [promise]) as [err Hin].
          { destruct (decide (i = length done)) as [Heq|Hne].
            - destruct (Hbound Heq) as [err ->]. exists err.
              apply elem_of_app. right. apply list_elem_of_here.
            - destruct Hkept as (_ & err & Hl); [lia|]. exists err.
              apply elem_of_app. left. by eapply list_elem_of_lookup_2. }
          apply promiseAll_rejected in Hin. by rewrite Hall in Hin. }
      destruct (IH (done ++ [entity]) st2) as (o & st' & n & Hloop & Hpk & Hst & Hn & Hb & Hres).
      * rewrite length_app. simpl. by rewrite Nat.add_1_r.
      * done.
      * intros e. rewrite <- app_assoc. apply Hfail.
      * rewrite length_app in Hloop, Hst, Hb. simpl in Hloop, Hst, Hb.
        rewrite Nat.add_1_r in Hloop, Hst. rewrite Hbreak in Hloop. rewrite Hloop.
        exists o, st', (S n). split; [done|]. split; [done|].
        split; [by rewrite Hst, Hs2; simpl; rewrite <- app_assoc|].
        split; [simpl; lia|]. split; [right; lia|].
        by rewrite <- app_assoc in Hres.
    + exists (Rejected err), st2, 1%nat. split; [done|]. split; [done|].
      split; [by rewrite Hs2|]. split; [simpl; lia|]. split; [right; lia|]. done.
Qed.

(** X17.  No batch is larger than the limit: the number of promises that are
    pending at the same time never exceeds [promisesLimit], or one when the
    limit is smaller than one, whatever the promises settle to. *)
Theorem X17_pending_promises_bounded (entities : list E) :
  Forall (fun n => (n <= batch promisesLimit)%nat)
    (pending (processPromises promiseFunc promisesLimit breakOnError delay entities).2).
Proof.
  unfold processPromises. destruct breakOnError eqn:Hbreak.
  - destruct (loop_breaking (length entities) entities [] initial Hbreak invariant_initial)
      as (o & st & n & Hloop & Hpk & _); [simpl; lia| |].
    { intros e Hi. apply lookup_lt_Some in Hi. simpl in Hi. lia. }
    simpl in Hloop. rewrite Hbreak in Hloop. rewrite Hloop.
    destruct o as [[]|err]; [|done].
    destruct (promises st); [done|].
    by destruct (promiseAll _).
  - destruct (loop_resolved entities [] initial [] (or_introl Hbreak) invariant_initial)
      as (st & vals & Hloop & Hinv & Hvals & _); [done|done|].
    simpl in Hloop. rewrite Hbreak in Hloop. rewrite Hloop.
    destruct Hinv as (_ & _ & _ & Hpk).
    destruct (promises st); [done|].
    by destruct (promiseAll _).
Qed.

(** X18.  When errors break, a promise that rejects ends the call with a
    rejection, and no entity beyond the batch of that promise is started:
    the indexes [promiseFunc] is called with stay below the end of the
    batch that holds the failing index. *)
Theorem X18_fails_fast (entities : list E) i e :
  breakOnError = true ->
  entities !! i = Some e ->
  (forall d, isRejected (promiseFunc e i d) = true) ->
  let out := processPromises promiseFunc promisesLimit breakOnError delay entities in
  isRejected out.1 = true
  /\ Forall (fun j => (j < batch promisesLimit * (i / batch promisesLimit + 1))%nat)
       (started out.2).
Proof.
  intros Hbreak Hi Hfail. cbn zeta. unfold processPromises.
  destruct (loop_breaking i entities [] initial Hbreak invariant_initial)
    as (o & st & n & Hloop & _ & Hst & Hn & Hb & Hres); [simpl; lia| |].
  { intros e' Hi'. simpl in Hi'. rewrite Hi in Hi'. by injection Hi' as <-. }
  simpl in Hloop, Hst, Hb, Hres. rewrite Hloop.
  assert (Hstarted : Forall (fun j => (j < batch promisesLimit
                                            * (i / batch promisesLimit + 1))%nat)
                       (started st)).
  { rewrite Hst. apply Forall_forall. intros j Hj. apply elem_of_seq in Hj. lia. }
  destruct o as [[]|err]; [|done].
  destruct (Hres eq_refl) as [_ Hrej].
  destruct Hrej as [err Hin]; [by eapply lookup_lt_Some|].
  destruct (promises st) as [|promise remaining] eqn:Hp; [by apply elem_of_nil in Hin|].
  apply promiseAll_rejected in Hin.
  destruct (promiseAll (promise :: remaining)); [done|]. simpl. by rewrite Hbreak.
Qed.

End facts.

(** X16 on five entities in batches of two, the third of which fails, when
    errors do not break. *)
Lemma X16_one_result_per_entity_witness :
  let out := processPromises failsOnThird 2 false false [1; 2; 3; 4; 5] in
  out.1 = Resolved [Some 10; Some 20; None; Some 40; Some 50]
  /\ exists results,
       out.1 = Resolved results
       /\ length results = 5%nat
       /\ (forall i e, [1; 2; 3; 4; 5] !! i = Some e ->
             results !! i
             = Some (stored (failsOnThird e i (take (collectedBefore 2 i) results))))
       /\ started out.2 = seq 0 5
       /\ ((forall e i d d', failsOnThird e i d = failsOnThird e i d') ->
           results = imap (fun i e => stored (failsOnThird e i [])) [1; 2; 3; 4; 5]).
Proof.
  cbn zeta. split; [reflexivity|].
  apply (X16_one_result_per_entity
           failsOnThird
           2 false false [1; 2; 3; 4; 5]).
  left. reflexivity.
Defined.

(** X18 on the same entities when errors break: the fifth is not started. *)
Lemma X18_fails_fast_witness :
  let out := processPromises failsOnThird 2 true false [1; 2; 3; 4; 5] in
  started out.2 = [0; 1; 2; 3]%nat
  /\ isRejected out.1 = true
  /\ Forall (fun j => (j < batch 2 * (2 / batch 2 + 1))%nat) (started out.2).
Proof.
  cbn zeta. split; [reflexivity|].
  apply (X18_fails_fast
           failsOnThird
           2 true false [1; 2; 3; 4; 5] 2%nat 3);
    [reflexivity|reflexivity|intros d; reflexivity].
Defined.

End ProcessPromisesFacts.

(** ** More about the reply pipeline *)

Module ReplyFacts.
Import BaseMentionAdapter Samples Scenarios ReplyProofs.

(** The REPLY_MENTION row that [reply] proposes, and the store after the
    transaction that inserts it. *)
Lemma reply_spec gateway toMention now mention content reqUser w :
  let d0 := DB.deleteTasks (staleReplyTask now (Mention.id mention)) (db w) in
  let task :=
    Task.mk (DB.tasks_id_seq d0) REPLY_MENTION
      (Task.mkData (Some (Mention.id mention)) (Some content) (Some reqUser)
         false None None None None)
      now (Some now) None (ReqUser.email reqUser) in
  let d2 :=
    DB.updateMentionState (Mention.id mention) (Some REPLY_ATTEMPT)
      (DB.createAudit REPLY_ATTEMPT (Mention.id mention) (Some (Task.id task))
         (ReqUser.email reqUser) (DB.appendTask task d0)) in
  reply gateway toMention now mention content reqUser w
  = if DB.violatesMentionIdIdx task d0
    then ignoreReply now mention content reqUser
           (UniqueConstraintError "tasks_code_data_mentionid_idx")
           (mkWorld d0 (replyCalls w))
    else
      match processReplyTask gateway toMention now task (mkWorld d2 (replyCalls w)) with
      | (Rejected e, w2) => ignoreReply now mention content reqUser e w2
      | (Resolved _, w2) => (Resolved (), w2)
      end.
Proof.
  cbn zeta. unfold reply, DB.transaction, openReplyTask.
  rewrite createTask_spec. cbn zeta.
  by destruct (DB.violatesMentionIdIdx _ _).
Qed.

Lemma stale_unfinished now m k :
  staleReplyTask now m k = true -> Task.finishedAt k = None.
Proof.
  unfold staleReplyTask. rewrite !andb_true_iff. intros [[[_ _] H] _].
  by apply bool_decide_eq_true in H.
Qed.

Lemma elem_of_deleteTasks doomed d k :
  k ∈ DB.tasks (DB.deleteTasks doomed d) <-> k ∈ DB.tasks d /\ doomed k = false.
Proof.
  unfold DB.deleteTasks. simpl. rewrite list_elem_of_In, filter_In, <- list_elem_of_In.
  by rewrite negb_true_iff.
Qed.

Lemma replyKeys_spec m d :
  m ∈ DB.replyKeys d <->
  exists k, k ∈ DB.tasks d /\ Task.code k = REPLY_MENTION
            /\ Task.mentionId (Task.data k) = Some m.
Proof.
  unfold DB.replyKeys. rewrite list_elem_of_omap. split.
  - intros (k & Hin & Hk). exists k. split; [done|].
    unfold DB.isReplyMention in Hk. case_bool_decide; [done|done].
  - intros (k & Hin & Hcode & Hm). exists k. split; [done|].
    unfold DB.isReplyMention. by rewrite bool_decide_eq_true_2.
Qed.

(** The insert of [reply] goes through exactly when no REPLY_MENTION row of
    the mention is left after the stale ones are cleared. *)
Lemma reply_insert_free now mention content reqUser d :
  let task :=
    Task.mk (DB.tasks_id_seq d) REPLY_MENTION
      (Task.mkData (Some (Mention.id mention)) (Some content) (Some reqUser)
         false None None None None)
      now (Some now) None (ReqUser.email reqUser) in
  DB.violatesMentionIdIdx task d = true <->
  exists k, k ∈ DB.tasks d /\ Task.code k = REPLY_MENTION
            /\ Task.mentionId (Task.data k) = Some (Mention.id mention).
Proof.
  cbn zeta. rewrite violatesMentionIdIdx_spec. split.
  - intros (m & _ & [= <-] & Hin). by apply replyKeys_spec.
  - intros Hk. exists (Mention.id mention). split; [done|]. split; [done|].
    by apply replyKeys_spec.
Qed.

Section facts.
Variable gateway :
  Mention.t -> option string -> ReqUser.t -> DB.t -> Outcome ReplyResponse.t * DB.t.
Variable toMention : ReplyResponse.t -> Mention.t -> Outcome ReplyFields.

(** X19.  A reply that was sent blocks every later reply to its mention: a
    REPLY_MENTION task that is finished is never cleared, so whenever a reply
    to the same mention is asked for again, with whatever content and by
    whomever, it is refused with the error of the unique index, nothing
    reaches the gateway, and the attempt is kept as an ignored task. *)
Theorem X19_finished_reply_blocks now mention content reqUser w k t :
  k ∈ DB.tasks (db w) ->
  Task.code k = REPLY_MENTION ->
  Task.mentionId (Task.data k) = Some (Mention.id mention) ->
  Task.finishedAt k = Some t ->
  let out := reply gateway toMention now mention content reqUser w in
  out.1 = Rejected (UniqueConstraintError "tasks_code_data_mentionid_idx")
  /\ replyCalls out.2 = replyCalls w
  /\ DB.mentions (db out.2) = DB.mentions (db w)
  /\ DB.audits (db out.2) = DB.audits (db w)
  /\ k ∈ DB.tasks (db out.2)
  /\ exists ignored,
       last (DB.tasks (db out.2)) = Some ignored
       /\ Task.code ignored = REPLY_MENTION_IGNORED
       /\ Task.startedAt ignored = Some now
       /\ Task.finishedAt ignored = Some now.
Proof.
  intros Hin Hcode Hm Hfin. cbn zeta. rewrite reply_spec. cbn zeta.
  set (d0 := DB.deleteTasks (staleReplyTask now (Mention.id mention)) (db w)).
  assert (Hkept : k ∈ DB.tasks d0).
  { apply elem_of_deleteTasks. split; [done|].
    destruct (staleReplyTask now (Mention.id mention) k) eqn:Hs; [|done].
    apply stale_unfinished in Hs. congruence. }
  rewrite (proj2 (reply_insert_free now mention content reqUser d0)) by by exists k.
  rewrite ignoreReply_spec. simpl.
  split; [done|]. split; [done|]. split; [done|]. split; [done|].
  split; [apply elem_of_app; by left|].
  eexists. split; [apply last_snoc|]. done.
Qed.

(** The tasks after the transaction of [processReplyTask]: as they were, or
    with the task of the reply updated in place. *)
Lemma recordReply_tasks now task mention result d :
  let out := DB.transaction (recordReply toMention now task mention result) d in
  DB.tasks out.2 = DB.tasks d
  \/ exists finishedAt data,
       Task.mentionId data = Task.mentionId (Task.data task)
       /\ Task.content data = Task.content (Task.data task)
       /\ DB.tasks out.2 = DB.tasks (DB.updateTask (Task.id task) finishedAt data d).
Proof.
  cbn zeta. unfold DB.transaction, recordReply.
  destruct (bool_decide (ReplyResponse.status result = Some "success")).
  - destruct (toMention result mention) as [fields|e]; [|by left].
    unfold DB.createMention, DB.insertMention.
    destruct (DB.platformRefTaken _ d); [by left|].
    right. do 2 eexists. split; [|split]. 3: reflexivity. all: reflexivity.
  - right. do 2 eexists. split; [|split]. 3: reflexivity. all: reflexivity.
Qed.

(** An update by primary key leaves the rows of other keys alone. *)
Lemma updateTask_others pk finishedAt data (l : list Task.t) :
  Forall (fun k => Task.id k <> pk) l ->
  (fun k => if bool_decide (Task.id k = pk)
            then Task.mk (Task.id k) (Task.code k) data (Task.createdAt k)
                   (Task.startedAt k) finishedAt (Task.createdBy k)
            else k) <$> l
  = l.
Proof.
  induction 1 as [|k l Hk _ IH]; [done|].
  csimpl. rewrite IH. by rewrite bool_decide_eq_false_2.
Qed.

(** X20.  A reply task that was left in flight for more than five minutes
    does not block.  When every REPLY_MENTION task of the mention is stale,
    the gateway is called with the mention and the content.  For a gateway
    that writes no task, and task ids below the sequence, the tasks after
    the call are the tasks that were not stale, among which no REPLY_MENTION
    task of the mention is left, then the new REPLY_MENTION task of the
    mention, created and started at [now] with the content, and after it,
    when the reply fails, the ignored task that holds the error. *)
Theorem X20_stale_reply_is_cleared now mention content reqUser w stored :
  (forall k, k ∈ DB.tasks (db w) -> Task.code k = REPLY_MENTION ->
     Task.mentionId (Task.data k) = Some (Mention.id mention) ->
     staleReplyTask now (Mention.id mention) k = true) ->
  DB.findMentionByPk (Some (Mention.id mention)) (db w) = Some stored ->
  let out := reply gateway toMention now mention content reqUser w in
  let kept :=
    List.filter (fun k => negb (staleReplyTask now (Mention.id mention) k))
      (DB.tasks (db w)) in
  replyCalls out.2 = replyCalls w ++ [(Mention.id mention, Some content)]
  /\ (forall k, k ∈ kept ->
        ~ (Task.code k = REPLY_MENTION
           /\ Task.mentionId (Task.data k) = Some (Mention.id mention)))
  /\ ((forall m c u d, DB.tasks (gateway m c u d).2 = DB.tasks d) ->
      Forall (fun k => Task.id k < DB.tasks_id_seq (db w)) (DB.tasks (db w)) ->
      exists task rest,
        DB.tasks (db out.2) = kept ++ task :: rest
        /\ Task.id task = DB.tasks_id_seq (db w)
        /\ Task.code task = REPLY_MENTION
        /\ Task.mentionId (Task.data task) = Some (Mention.id mention)
        /\ Task.content (Task.data task) = Some content
        /\ Task.createdAt task = now
        /\ Task.startedAt task = Some now
        /\ match out.1 with
           | Resolved _ => rest = []
           | Rejected e =>
               exists ignored,
                 rest = [ignored]
                 /\ Task.code ignored = REPLY_MENTION_IGNORED
                 /\ Task.error (Task.data ignored) = Some e
           end).
Proof.
  intros Hstale Hstored. cbn zeta.
  assert (Hkept : forall k,
            k ∈ List.filter (fun k => negb (staleReplyTask now (Mention.id mention) k))
                  (DB.tasks (db w)) ->
            ~ (Task.code k = REPLY_MENTION
               /\ Task.mentionId (Task.data k) = Some (Mention.id mention))).
  { intros k Hin [Hcode Hm].
    apply list_elem_of_In, filter_In in Hin as [Hin Hno].
    apply list_elem_of_In in Hin. by rewrite (Hstale k Hin Hcode Hm) in Hno. }
  rewrite reply_spec. cbn zeta.
  set (d0 := DB.deleteTasks (staleReplyTask now (Mention.id mention)) (db w)).
  destruct (DB.violatesMentionIdIdx _ d0) eqn:Hviol.
  { apply reply_insert_free in Hviol as (k & Hin & Hcode & Hm).
    apply elem_of_deleteTasks in Hin as [Hin Hno].
    rewrite (Hstale k Hin Hcode Hm) in Hno. done. }
  unfold processReplyTask. cbn [Task.data Task.isIgnored Task.reqUser Task.mentionId db].
  rewrite findMentionByPk_updateMentionState.
  change (DB.findMentionByPk (Some (Mention.id mention)) (DB.createAudit _ _ _ _ _))
    with (DB.findMentionByPk (Some (Mention.id mention)) (db w)).
  rewrite Hstored. cbn [fmap option_fmap option_map].
  assert (Hid : Mention.id (Mention.withState (Some REPLY_ATTEMPT) stored)
                = Mention.id mention).
  { apply findMentionByPk_id in Hstored. by injection Hstored as ->. }
  rewrite Hid. cbn [Task.content replyCalls].
  set (task := Task.mk (DB.tasks_id_seq d0) REPLY_MENTION
                 (Task.mkData (Some (Mention.id mention)) (Some content) (Some reqUser)
                    false None None None None)
                 now (Some now) None (ReqUser.email reqUser)).
  set (d2 := DB.updateMentionState _ _ _).
  assert (Htasks2 : DB.tasks d2 = DB.tasks d0 ++ [task]) by done.
  pose proof (fun H : forall m c u d, DB.tasks (gateway m c u d).2 = DB.tasks d =>
                H (Mention.withState (Some REPLY_ATTEMPT) stored) (Some content) reqUser d2)
    as Hgateway.
  destruct (gateway _ _ _ d2) as [[result|e] d1].
  - pose proof (recordReply_tasks now task
                  (Mention.withState (Some REPLY_ATTEMPT) stored) result d1) as Hrecord.
    cbn zeta in Hrecord.
    destruct (DB.transaction _ d1) as [r d3]. cbn [snd] in Hrecord.
    assert (Hthen : (forall m c u d, DB.tasks (gateway m c u d).2 = DB.tasks d) ->
                    Forall (fun k => Task.id k < DB.tasks_id_seq (db w)) (DB.tasks (db w)) ->
                    exists task',
                      DB.tasks d3 = DB.tasks d0 ++ [task']
                      /\ Task.id task' = DB.tasks_id_seq (db w)
                      /\ Task.code task' = REPLY_MENTION
                      /\ Task.mentionId (Task.data task') = Some (Mention.id mention)
                      /\ Task.content (Task.data task') = Some content
                      /\ Task.createdAt task' = now
                      /\ Task.startedAt task' = Some now).
    { intros Hwrites Hseq. specialize (Hgateway Hwrites). cbn [snd] in Hgateway.
      destruct Hrecord as [Hsame|(fin & data & Hm & Hc & Hupdated)].
      - exists task. by rewrite Hsame, Hgateway, Htasks2.
      - eexists. rewrite Hupdated. unfold DB.updateTask. cbn [DB.tasks].
        rewrite Hgateway, Htasks2, fmap_app.
        rewrite updateTask_others.
        + cbn [fmap list_fmap Task.id task]. rewrite bool_decide_eq_true_2 by done.
          split; [reflexivity|]. by rewrite ?Hm, ?Hc.
        + apply Forall_forall. intros k Hk.
          apply elem_of_deleteTasks in Hk as [Hk _].
          rewrite Forall_forall in Hseq. specialize (Hseq k Hk).
          change (Task.id task) with (DB.tasks_id_seq (db w)). lia. }
    destruct r as [[]|e].
    + cbn [fst snd db replyCalls].
      split; [done|]. split; [exact Hkept|]. intros Hwrites Hseq.
      destruct (Hthen Hwrites Hseq) as (task' & Ht & Hrest).
      exists task', []. rewrite Ht. split; [reflexivity|].
      destruct Hrest as (H1 & H2 & H3 & H4 & H5 & H6). by repeat split.
    + rewrite ignoreReply_spec. cbn [fst snd db replyCalls].
      split; [done|]. split; [exact Hkept|]. intros Hwrites Hseq.
      destruct (Hthen Hwrites Hseq) as (task' & Ht & Hrest).
      eexists task', [_]. cbn [DB.appendTask DB.tasks]. rewrite Ht, <- app_assoc.
      split; [reflexivity|].
      destruct Hrest as (H1 & H2 & H3 & H4 & H5 & H6).
      repeat (split; [done|]). by eexists.
  - rewrite ignoreReply_spec. cbn [fst snd db replyCalls].
    split; [done|]. split; [exact Hkept|]. intros Hwrites Hseq.
    specialize (Hgateway Hwrites). cbn [snd] in Hgateway.
    eexists task, [_]. cbn [DB.appendTask DB.tasks]. rewrite Hgateway, Htasks2, <- app_assoc.
    split; [reflexivity|]. repeat (split; [done|]). by eexists.
Qed.

(** What is left when no REPLY_MENTION row of the mention survives the
    clearing of the stale ones. *)
Lemma reply_insert_goes_through now mention content reqUser w :
  (forall k, k ∈ DB.tasks (db w) -> Task.code k = REPLY_MENTION ->
     Task.mentionId (Task.data k) = Some (Mention.id mention) ->
     staleReplyTask now (Mention.id mention) k = true) ->
  let d0 := DB.deleteTasks (staleReplyTask now (Mention.id mention)) (db w) in
  DB.violatesMentionIdIdx
    (Task.mk (DB.tasks_id_seq d0) REPLY_MENTION
       (Task.mkData (Some (Mention.id mention)) (Some content) (Some reqUser)
          false None None None None)
       now (Some now) None (ReqUser.email reqUser)) d0 = false.
Proof.
  intros Hstale. cbn zeta.
  destruct (DB.violatesMentionIdIdx _ _) eqn:Hviol; [|done].
  apply reply_insert_free in Hviol as (k & Hin & Hcode & Hm).
  apply elem_of_deleteTasks in Hin as [Hin Hno].
  rewrite (Hstale k Hin Hcode Hm) in Hno. done.
Qed.

Lemma platformRefs_updateMentionState pk s d :
  DB.platformRefs (DB.updateMentionState pk s d) = DB.platformRefs d.
Proof.
  unfold DB.platformRefs, DB.updateMentionState. simpl.
  rewrite <- list_fmap_compose. apply list_fmap_ext. intros i m _. simpl.
  by destruct (bool_decide _).
Qed.

(** X21.  A reply whose call of the gateway fails is thrown on and leaves
    its traces behind: the REPLY_MENTION task stays in flight with no
    [finishedAt], an ignored task records the error, the audit row of the
    attempt is kept and the mention stays in REPLY_ATTEMPT, because the
    transaction that opened the task was committed before the call. *)
Theorem X21_failed_call_stays_in_flight now mention content reqUser w stored e :
  (forall k, k ∈ DB.tasks (db w) -> Task.code k = REPLY_MENTION ->
     Task.mentionId (Task.data k) = Some (Mention.id mention) ->
     staleReplyTask now (Mention.id mention) k = true) ->
  DB.findMentionByPk (Some (Mention.id mention)) (db w) = Some stored ->
  (forall m c u d, gateway m c u d = (Rejected e, d)) ->
  let out := reply gateway toMention now mention content reqUser w in
  let d0 := DB.deleteTasks (staleReplyTask now (Mention.id mention)) (db w) in
  let task :=
    Task.mk (DB.tasks_id_seq d0) REPLY_MENTION
      (Task.mkData (Some (Mention.id mention)) (Some content) (Some reqUser)
         false None None None None)
      now (Some now) None (ReqUser.email reqUser) in
  let ignored :=
    Task.mk (DB.tasks_id_seq d0 + 1) REPLY_MENTION_IGNORED
      (Task.mkData (Some (Mention.id mention)) (Some content) (Some reqUser)
         false (Some e) None None None)
      now (Some now) (Some now) (ReqUser.email reqUser) in
  out.1 = Rejected e
  /\ DB.tasks (db out.2) = DB.tasks d0 ++ [task; ignored]
  /\ Mention.state <$> DB.findMentionByPk (Some (Mention.id mention)) (db out.2)
     = Some (Some REPLY_ATTEMPT)
  /\ DB.audits (db out.2)
     = DB.audits (db w)
       ++ [Audit.mk (DB.audits_id_seq (db w)) REPLY_ATTEMPT (Mention.id mention)
             (Some (Task.id task)) (ReqUser.email reqUser)]
  /\ replyCalls out.2 = replyCalls w ++ [(Mention.id mention, Some content)].
Proof.
  intros Hstale Hstored Hgateway. cbn zeta. rewrite reply_spec. cbn zeta.
  rewrite reply_insert_goes_through by done.
  unfold processReplyTask. cbn [Task.data Task.isIgnored Task.reqUser Task.mentionId db].
  rewrite findMentionByPk_updateMentionState.
  change (DB.findMentionByPk (Some (Mention.id mention)) (DB.createAudit _ _ _ _ _))
    with (DB.findMentionByPk (Some (Mention.id mention)) (db w)).
  rewrite Hstored. cbn [fmap option_fmap option_map].
  assert (Hid : Mention.id (Mention.withState (Some REPLY_ATTEMPT) stored)
                = Mention.id mention).
  { apply findMentionByPk_id in Hstored. by injection Hstored as ->. }
  rewrite Hid, Hgateway. rewrite ignoreReply_spec. cbn [fst snd db replyCalls Task.content].
  split; [done|]. split; [|split; [|split]].
  - simpl. by rewrite <- app_assoc.
  - change (DB.findMentionByPk (Some (Mention.id mention)) (DB.appendTask _ ?d))
      with (DB.findMentionByPk (Some (Mention.id mention)) d).
    rewrite findMentionByPk_updateMentionState.
    change (DB.findMentionByPk (Some (Mention.id mention)) (DB.createAudit _ _ _ _ _))
      with (DB.findMentionByPk (Some (Mention.id mention)) (db w)).
    by rewrite Hstored.
  - done.
  - done.
Qed.

End facts.

Section sent.
Variable gateway :
  Mention.t -> option string -> ReqUser.t -> DB.t -> Outcome ReplyResponse.t * DB.t.

(** X22.  A reply from end to end.  When no REPLY_MENTION task of the
    mention is in the way, the gateway answers a body with [status =
    'success'] that holds the entry of the platform, and the comment id of
    the entry is new, [reply] resolves; one child mention of type REPLY is
    appended, the mention ends in REPLIED, the audit row of the attempt is
    written, and the REPLY_MENTION task is finished at [now] with the body
    in its data: the task that blocks every later reply to the mention. *)
Theorem X22_reply_is_sent now mention content reqUser w stored result entry :
  (forall k, k ∈ DB.tasks (db w) -> Task.code k = REPLY_MENTION ->
     Task.mentionId (Task.data k) = Some (Mention.id mention) ->
     staleReplyTask now (Mention.id mention) k = true) ->
  DB.findMentionByPk (Some (Mention.id mention)) (db w) = Some stored ->
  (forall m c u d, gateway m c u d = (Resolved result, d)) ->
  ReplyResponse.status result = Some "success" ->
  ReplyResponse.forPlatform result (Mention.platform stored) = Some entry ->
  DB.platformRefTaken (ReplyResponse.commentId entry) (db w) = false ->
  let out := reply gateway MentionCommentAdapter.processReplyResponseToMention
               now mention content reqUser w in
  out.1 = Resolved ()
  /\ Mention.state <$> DB.findMentionByPk (Some (Mention.id mention)) (db out.2)
     = Some (Some REPLIED)
  /\ (exists child,
        DB.mentions (db out.2)
        = ((fun m => if bool_decide (Mention.id m = Mention.id mention)
                     then Mention.withState (Some REPLIED) m else m)
             <$> DB.mentions (db w)) ++ [child]
        /\ Mention.type child = inr REPLY
        /\ Mention.mentionId child = Some (Mention.id mention)
        /\ Mention.content child = ReplyResponse.comment entry
        /\ Mention.socialMediaPlatformRef child = ReplyResponse.commentId entry)
  /\ (exists k,
        k ∈ DB.tasks (db out.2)
        /\ Task.code k = REPLY_MENTION
        /\ Task.mentionId (Task.data k) = Some (Mention.id mention)
        /\ Task.finishedAt k = Some now
        /\ Task.result (Task.data k) = Some result)
  /\ DB.audits (db out.2)
     = DB.audits (db w)
       ++ [Audit.mk (DB.audits_id_seq (db w)) REPLY_ATTEMPT (Mention.id mention)
             (Some (DB.tasks_id_seq (db w))) (ReqUser.email reqUser)]
  /\ replyCalls out.2 = replyCalls w ++ [(Mention.id mention, Some content)].
Proof.
  intros Hstale Hstored Hgateway Hstatus Hentry Hfresh. cbn zeta.
  rewrite reply_spec. cbn zeta.
  rewrite reply_insert_goes_through by done.
  unfold processReplyTask. cbn [Task.data Task.isIgnored Task.reqUser Task.mentionId db].
  rewrite findMentionByPk_updateMentionState.
  change (DB.findMentionByPk (Some (Mention.id mention)) (DB.createAudit _ _ _ _ _))
    with (DB.findMentionByPk (Some (Mention.id mention)) (db w)).
  rewrite Hstored. cbn [fmap option_fmap option_map].
  assert (Hid : Mention.id (Mention.withState (Some REPLY_ATTEMPT) stored)
                = Mention.id mention).
  { apply findMentionByPk_id in Hstored. by injection Hstored as ->. }
  rewrite Hid, Hgateway.
  unfold DB.transaction, recordReply.
  rewrite bool_decide_eq_true_2 by done.
  unfold MentionCommentAdapter.processReplyResponseToMention.
  cbn [Mention.platform Mention.withState]. rewrite Hentry.
  unfold DB.createMention, DB.insertMention.
  cbn [Mention.socialMediaPlatformRef reply_socialMediaPlatformRef].
  assert (Hfresh' : forall d',
            DB.platformRefs d' = DB.platformRefs (db w) ->
            DB.platformRefTaken (ReplyResponse.commentId entry) d' = false).
  { intros d' Hrefs. unfold DB.platformRefTaken in *. by rewrite Hrefs. }
  rewrite Hfresh' by (by rewrite platformRefs_updateMentionState).
  cbn [fst snd db replyCalls Task.content Task.id Mention.id Mention.withState].
  assert (Hid' : Mention.id stored = Mention.id mention) by done.
  rewrite ?Hid'.
  split; [done|]. split; [|split; [|split; [|split]]].
  - unfold DB.updateTask. cbn [DB.findMentionByPk DB.mentions DB.updateMentionState
                                 DB.appendMention DB.createAudit DB.appendTask
                                 DB.deleteTasks].
    rewrite fmap_app.
    erewrite (find_app_Some _ _ _
                (Mention.withState (Some REPLIED)
                   (Mention.withState (Some REPLY_ATTEMPT) stored))); [done|].
    rewrite <- list_fmap_compose.
    rewrite find_fmap by (intros m; simpl; by rewrite !updated_mention_id).
    unfold DB.findMentionByPk in Hstored. rewrite Hstored. simpl.
    apply find_some in Hstored as [_ Hstored]. rewrite Hstored. simpl.
    by rewrite bool_decide_eq_true_2.
  - eexists. unfold DB.updateTask.
    cbn [DB.mentions DB.updateMentionState DB.appendMention DB.createAudit DB.appendTask
           DB.deleteTasks].
    rewrite fmap_app. split.
    + f_equal.
      rewrite <- list_fmap_compose. apply list_fmap_ext. intros i m _.
      cbn [compose].
      destruct (bool_decide (Mention.id m = Mention.id mention)) eqn:Hm;
        cbn [Mention.id Mention.withState]; by rewrite Hm.
    + cbn [fmap list_fmap]. by case_bool_decide.
  - eexists. split.
    + unfold DB.updateTask.
      cbn [DB.tasks DB.updateMentionState DB.appendMention DB.createAudit DB.appendTask].
      rewrite fmap_app. apply elem_of_app. right. cbn [fmap list_fmap].
      rewrite bool_decide_eq_true_2 by done. apply list_elem_of_here.
    + done.
  - done.
  - done.
Qed.

End sent.

Lemma sampleReplyTask_stale k :
  k ∈ DB.tasks (db sampleWorld) -> Task.code k = REPLY_MENTION ->
  Task.mentionId (Task.data k) = Some (Mention.id sampleMention) ->
  staleReplyTask 1000000 (Mention.id sampleMention) k = true.
Proof. intros Hin _ _. apply list_elem_of_singleton in Hin as ->. reflexivity. Qed.

(** X19 on the store of a reply that was sent, asked again much later. *)
Lemma X19_finished_reply_blocks_witness :
  let out := reply (answering statusBody) MentionCommentAdapter.processReplyResponseToMention
               1000000000 sampleMention "hello again" sampleUser sampleSentWorld in
  out.1 = Rejected (UniqueConstraintError "tasks_code_data_mentionid_idx")
  /\ replyCalls out.2 = []
  /\ Task.code <$> DB.tasks (db out.2) = [REPLY_MENTION; REPLY_MENTION_IGNORED].
Proof.
  cbn zeta.
  destruct (X19_finished_reply_blocks (answering statusBody)
              MentionCommentAdapter.processReplyResponseToMention
              1000000000 sampleMention "hello again" sampleUser sampleSentWorld
              sampleFinishedTask 391000) as (H1 & H2 & _);
    [apply list_elem_of_here|reflexivity|reflexivity|reflexivity|].
  split; [exact H1|]. split; [exact H2|reflexivity].
Defined.

(** X20 on the sample store, ten minutes after the task in flight was
    started: the stale task is gone and the new task is the only one. *)
Lemma X20_stale_reply_is_cleared_witness :
  let out := reply (answering statusBody) MentionCommentAdapter.processReplyResponseToMention
               1000000 sampleMention "hello again" sampleUser sampleWorld in
  replyCalls out.2 = [(1, Some "hello again")]
  /\ exists task rest,
       DB.tasks (db out.2) = task :: rest
       /\ Task.id task = 2
       /\ Task.code task = REPLY_MENTION
       /\ Task.mentionId (Task.data task) = Some 1
       /\ Task.content (Task.data task) = Some "hello again"
       /\ Task.createdAt task = 1000000
       /\ Task.startedAt task = Some 1000000
       /\ match out.1 with
          | Resolved _ => rest = []
          | Rejected e =>
              exists ignored,
                rest = [ignored]
                /\ Task.code ignored = REPLY_MENTION_IGNORED
                /\ Task.error (Task.data ignored) = Some e
          end.
Proof.
  cbn zeta.
  destruct (X20_stale_reply_is_cleared (answering statusBody)
              MentionCommentAdapter.processReplyResponseToMention
              1000000 sampleMention "hello again" sampleUser sampleWorld
              (Mention.withState (Some REPLY_ATTEMPT) sampleMention))
    as (Hcalls & _ & Htasks).
  - exact sampleReplyTask_stale.
  - reflexivity.
  - split; [exact Hcalls|]. apply Htasks.
    + intros m c u d. reflexivity.
    + constructor; [reflexivity|constructor].
Defined.

(** X21 on the sample store and a gateway that answers 500. *)
Lemma X21_failed_call_stays_in_flight_witness :
  let out := reply (failing (HttpError (Some 500)))
               MentionCommentAdapter.processReplyResponseToMention
               1000000 sampleMention "hello again" sampleUser sampleWorld in
  out.1 = Rejected (HttpError (Some 500))
  /\ Task.code <$> DB.tasks (db out.2) = [REPLY_MENTION; REPLY_MENTION_IGNORED]
  /\ Task.finishedAt <$> DB.tasks (db out.2) = [None; Some 1000000]
  /\ Mention.state <$> DB.findMentionByPk (Some 1) (db out.2) = Some (Some REPLY_ATTEMPT).
Proof.
  cbn zeta.
  destruct (X21_failed_call_stays_in_flight (failing (HttpError (Some 500)))
              MentionCommentAdapter.processReplyResponseToMention
              1000000 sampleMention "hello again" sampleUser sampleWorld
              (Mention.withState (Some REPLY_ATTEMPT) sampleMention)
              (HttpError (Some 500))) as (H1 & H2 & H3 & _);
    [exact sampleReplyTask_stale|reflexivity|reflexivity|].
  split; [exact H1|]. split; [by rewrite H2|]. split; [by rewrite H2|exact H3].
Defined.

(** X22 on the sample store and a gateway that answers the body of a
    success. *)
Lemma X22_reply_is_sent_witness :
  let out := reply (answering statusBody) MentionCommentAdapter.processReplyResponseToMention
               1000000 sampleMention "hello again" sampleUser sampleWorld in
  out.1 = Resolved ()
  /\ Mention.state <$> DB.findMentionByPk (Some 1) (db out.2) = Some (Some REPLIED)
  /\ Mention.socialMediaPlatformRef <$> DB.mentions (db out.2) = ["test-ref-1"; "reply-1"]
  /\ Task.finishedAt <$> DB.tasks (db out.2) = [Some 1000000].
Proof.
  cbn zeta.
  destruct (X22_reply_is_sent (answering statusBody)
              1000000 sampleMention "hello again" sampleUser sampleWorld
              (Mention.withState (Some REPLY_ATTEMPT) sampleMention)
              statusBody (ReplyResponse.mkEntry "thanks" "reply-1"))
    as (H1 & H2 & _);
    [exact sampleReplyTask_stale|reflexivity|reflexivity|reflexivity|reflexivity
    |reflexivity|].
  split; [exact H1|]. split; [exact H2|]. split; reflexivity.
Defined.

End ReplyFacts.

(** ** More about the fetch pipeline *)

Module FetchFacts.
Import BaseMentionAdapter MentionCommentAdapter BaseMentionSweep SocialMediaPosts.
Import Samples FetchProofs IngestionProofs.

Lemma filterPosts_sublist existing seen posts :
  filterPosts existing seen posts `sublist_of` posts.
Proof.
  revert seen. induction posts as [|p posts IH]; intros seen; simpl; [done|].
  destruct (negb _ && negb _); simpl.
  - by apply sublist_skip.
  - by apply sublist_cons.
Qed.

Lemma filterPosts_seen existing seen posts post :
  post ∈ filterPosts existing seen posts -> Post.id post ∉ seen.
Proof.
  revert seen. induction posts as [|p posts IH]; intros seen Hin.
  - by apply elem_of_nil in Hin.
  - simpl in Hin. apply elem_of_app in Hin as [Hin|Hin].
    + destruct (includes existing (Post.id p)); simpl in Hin;
        [by apply elem_of_nil in Hin|].
      case_bool_decide as Hseen; simpl in Hin; [by apply elem_of_nil in Hin|].
      by apply list_elem_of_singleton in Hin as ->.
    + apply IH in Hin. intros Hs. apply Hin. apply elem_of_app. by left.
Qed.

Lemma filterPosts_NoDup existing seen posts :
  NoDup (Post.id <$> filterPosts existing seen posts).
Proof.
  revert seen. induction posts as [|p posts IH]; intros seen; simpl; [apply NoDup_nil_2|].
  rewrite fmap_app. apply NoDup_app. split; [|split; [|apply IH]].
  - destruct (negb _ && negb _); simpl; [apply NoDup_singleton|apply NoDup_nil_2].
  - intros id Hhere Hlater.
    destruct (negb _ && negb _); simpl in Hhere; [|by apply elem_of_nil in Hhere].
    apply list_elem_of_singleton in Hhere as ->.
    apply list_elem_of_fmap in Hlater as (post & Hid & Hin).
    apply filterPosts_seen in Hin. apply Hin. rewrite <- Hid.
    apply elem_of_app. right. apply list_elem_of_here.
Qed.

Lemma filterPosts_complete existing seen posts post :
  post ∈ posts ->
  Task.PostId (Post.id post) ∉ existing ->
  Post.id post ∉ seen ->
  Post.id post ∈ Post.id <$> filterPosts existing seen posts.
Proof.
  revert seen. induction posts as [|p posts IH]; intros seen Hin Hnew Hseen.
  - by apply elem_of_nil in Hin.
  - simpl. rewrite fmap_app. apply elem_of_app.
    destruct (decide (Post.id p = Post.id post)) as [Heq|Hne].
    + left. rewrite Heq.
      assert (includes existing (Post.id post) = false) as ->.
      { destruct (includes existing (Post.id post)) eqn:Hinc; [|done].
        by apply includes_spec in Hinc. }
      rewrite bool_decide_eq_false_2 by done. simpl.
      rewrite <- Heq. apply list_elem_of_here.
    + right. apply elem_of_cons in Hin as [->|Hin]; [done|].
      apply IH; [done|done|]. intros Hs. apply elem_of_app in Hs as [Hs|Hs]; [done|].
      apply list_elem_of_singleton in Hs. congruence.
Qed.

(** X23.  The posts of a new fetch task: they are posts of the history in
    the order of the history, no two of them have the same id, none of them
    has an id that a recent task lists, and every id of the history that no
    recent task lists is among them.  A post that the histories of two
    platforms both hold is fetched once. *)
Theorem X23_posts_to_fetch existing posts :
  let selected := filterPosts existing [] posts in
  selected `sublist_of` posts
  /\ NoDup (Post.id <$> selected)
  /\ (forall post, post ∈ selected -> Task.PostId (Post.id post) ∉ existing)
  /\ (forall post, post ∈ posts -> Task.PostId (Post.id post) ∉ existing ->
        Post.id post ∈ Post.id <$> selected).
Proof.
  cbn zeta. split; [apply filterPosts_sublist|]. split; [apply filterPosts_NoDup|].
  split; [apply listed_posts_excluded|].
  intros post Hin Hnew. apply filterPosts_complete; [done|done|]. apply not_elem_of_nil.
Qed.

Lemma filterPosts_all_listed existing seen posts :
  (forall post, post ∈ posts -> Task.PostId (Post.id post) ∈ existing) ->
  filterPosts existing seen posts = [].
Proof.
  revert seen. induction posts as [|p posts IH]; intros seen Hall; [done|].
  simpl. rewrite (proj2 (includes_spec existing (Post.id p))).
  - simpl. apply IH. intros post Hin. apply Hall. by apply elem_of_cons; right.
  - apply Hall. apply list_elem_of_here.
Qed.

(** *** The statements of a fetch leave the tasks alone *)

Lemma insertAll_tasks rows d :
  exists d', insertAll rows d = (Resolved (), d')
             /\ DB.tasks d' = DB.tasks d /\ DB.tasks_id_seq d' = DB.tasks_id_seq d.
Proof.
  revert d. induction rows as [|row rows IH]; intros d; simpl; [by exists d|].
  unfold DB.insertMention. destruct (DB.platformRefTaken _ d).
  - apply IH.
  - destruct (IH (DB.appendMention (row (DB.mentions_id_seq d)) d)) as (d' & H1 & H2 & H3).
    by exists d'.
Qed.

Lemma storeComments_tasks now taskId comments d :
  exists d', storeComments now taskId comments d = (Resolved (), d')
             /\ DB.tasks d' = DB.tasks d /\ DB.tasks_id_seq d' = DB.tasks_id_seq d.
Proof.
  unfold storeComments. destruct comments as [|c comments]; [by exists d|].
  destruct (_transformCommentsToMentions (c :: comments) taskId) as [|m ms] eqn:Hms;
    [by exists d|].
  unfold _createMentions, DB.transaction.
  destruct (insertAll_tasks
              (List.filter
                 (fun row => negb (DB.platformRefTaken
                                     (Mention.socialMediaPlatformRef (row 0)) d))
                 (valuesRow now <$> m :: ms)) d) as (d' & -> & H2 & H3).
  by exists d'.
Qed.

Section fetch.
Variable findAllComments : Post.t -> list Comment.t.

Lemma fetchPosts_tasks now taskId posts d :
  exists batches d',
    fetchPosts findAllComments now taskId posts d = (Resolved batches, d')
    /\ DB.tasks d' = DB.tasks d /\ DB.tasks_id_seq d' = DB.tasks_id_seq d.
Proof.
  revert d. induction posts as [|post posts IH]; intros d; simpl; [by exists [], d|].
  destruct (storeComments_tasks now taskId (findAllComments post) d) as (d1 & -> & H2 & H3).
  destruct (IH d1) as (batches & d2 & -> & H4 & H5).
  eexists _, d2. split; [done|]. split; congruence.
Qed.

Lemma omap_PostObject (posts : list Post.t) :
  omap (fun e => match e with
                 | Task.PostObject post => Some post
                 | Task.PostId _ => None
                 end) (Task.PostObject <$> posts)
  = posts.
Proof. induction posts as [|p posts IH]; [done|]. csimpl. by rewrite IH. Qed.

Lemma filter_empty {A} (f : A -> bool) (l : list A) a :
  List.filter f l = [] -> a ∈ l -> f a = false.
Proof.
  intros Hnil Hin. destruct (f a) eqn:Hf; [|done].
  assert (a ∈ List.filter f l) as Hin' by by apply elem_of_filter.
  rewrite Hnil in Hin'. by apply elem_of_nil in Hin'.
Qed.

(** A task that is not recent does not become recent. *)
Lemma recentTasks_later now1 now2 code interval d :
  now1 <= now2 ->
  recentTasks now1 code interval d = [] ->
  recentTasks now2 code interval d = [].
Proof.
  intros Hle Hnil. unfold recentTasks in *. apply filter_none. intros k Hk.
  pose proof (filter_empty _ _ k Hnil Hk) as Hold. simpl in Hold.
  destruct (bool_decide (Task.code k = code)); [|done]. simpl in *.
  apply Z.leb_gt in Hold. apply Z.leb_gt. lia.
Qed.

(** The first fetch from a store without a recent fetch task. *)
Lemma first_fetch posts now1 now2 user d :
  recentTasks now1 FETCH_COMMENTS SOCIAL_MEDIA_API_TASK_FETCH_COMMENTS_INTERVAL d = [] ->
  now1 <= now2 <= now1 + SOCIAL_MEDIA_API_TASK_FETCH_COMMENTS_INTERVAL ->
  exists d' listed,
    fetchAndSyncMentions posts findAllComments now1 user d = (Resolved (), d')
    /\ recentTasks now2 FETCH_COMMENTS SOCIAL_MEDIA_API_TASK_FETCH_COMMENTS_INTERVAL d'
       = listed
    /\ Forall (fun k => Task.finishedAt k <> None) listed
    /\ (forall post, post ∈ posts ->
          Task.PostId (Post.id post)
          ∈ concat ((fun k => default [] (Task.posts (Task.data k))) <$> listed)).
Proof.
  intros Hnone Hnow.
  pose proof (recentTasks_later now1 now2 _ _ d (proj1 Hnow) Hnone) as Hlater.
  assert (Hexisting : _findFreshlyFetchedPostIds now1 d = []).
  { unfold _findFreshlyFetchedPostIds. by rewrite Hnone. }
  unfold fetchAndSyncMentions. rewrite Hexisting.
  destruct (filterPosts [] [] posts) as [|p selected] eqn:Hselected.
  - exists d, []. split; [done|]. split; [done|]. split; [done|].
    intros post Hin. exfalso.
    pose proof (filterPosts_complete [] [] posts post Hin) as Hid.
    rewrite Hselected in Hid. apply (not_elem_of_nil (Post.id post)).
    apply Hid; apply not_elem_of_nil.
  - rewrite <- Hselected.
    set (taskData := Task.mkData None None (Some user) false None None
                       (Some (Task.PostObject <$> filterPosts [] [] posts)) None).
    unfold DB.createTask, DB.violatesMentionIdIdx, DB.violatesContentIdx.
    set (task := Task.mk (DB.tasks_id_seq d) FETCH_COMMENTS taskData now1 (Some now1) None
                   (ReqUser.email user)).
    replace (DB.isReplyMention task) with false by done. cbn [andb].
    unfold processFetchTask.
    assert (Hposts : postsOf task = filterPosts [] [] posts).
    { unfold postsOf, task, taskData. cbn [Task.data Task.posts default from_option id].
      apply omap_PostObject. }
    rewrite Hposts.
    destruct (fetchPosts_tasks now1 (Task.id task) (filterPosts [] [] posts)
                (DB.appendTask task d)) as (batches & d1 & -> & Htasks & Hseq).
    set (finished := Task.mkData _ _ _ _ _ _ _ _).
    eexists _, _. split; [done|]. split; [done|].
    assert (Hrecent : recentTasks now2 FETCH_COMMENTS
                        SOCIAL_MEDIA_API_TASK_FETCH_COMMENTS_INTERVAL
                        (DB.updateTask (Task.id task) (Some now1) finished d1)
                      = [Task.mk (Task.id task) FETCH_COMMENTS finished now1 (Some now1)
                           (Some now1) (ReqUser.email user)]).
    { unfold recentTasks, DB.updateTask. cbn [DB.tasks]. rewrite Htasks.
      cbn [DB.appendTask DB.tasks]. rewrite filter_fmap.
      rewrite (List.filter_ext _
                 (fun k => bool_decide (Task.code k = FETCH_COMMENTS)
                           && (now2 - SOCIAL_MEDIA_API_TASK_FETCH_COMMENTS_INTERVAL
                               <=? Task.createdAt k)))
        by (intros k; by destruct (bool_decide (Task.id k = Task.id task))).
      rewrite List.filter_app. fold (recentTasks now2 FETCH_COMMENTS
                                      SOCIAL_MEDIA_API_TASK_FETCH_COMMENTS_INTERVAL d).
      rewrite Hlater. cbn [app List.filter].
      change (Task.code task) with FETCH_COMMENTS.
      change (Task.createdAt task) with now1.
      rewrite bool_decide_eq_true_2 by done. cbn [andb].
      destruct (Z.leb_spec (now2 - SOCIAL_MEDIA_API_TASK_FETCH_COMMENTS_INTERVAL) now1);
        [|lia].
      cbn [fmap list_fmap]. by rewrite bool_decide_eq_true_2. }
    rewrite Hrecent. split; [by repeat constructor|].
    intros post Hin.
    cbn [fmap list_fmap concat Task.data Task.posts finished default from_option id].
    rewrite app_nil_r.
    pose proof (filterPosts_complete [] [] posts post Hin) as Hid.
    apply list_elem_of_fmap in Hid as (q & Hq & Hqin);
      [|apply not_elem_of_nil|apply not_elem_of_nil].
    apply list_elem_of_fmap. exists q. by rewrite Hq.
Qed.

End fetch.

(** X24.  A fetch is not repeated within ten minutes.  From a store without
    a recent fetch task, [fetchAndSyncMentions] resolves and leaves no fetch
    in flight; called again within the interval with the same history,
    whatever the comments are by then, it creates no task and leaves the
    store as it is: the posts of the finished task are listed by their id. *)
Theorem X24_second_fetch_is_idle posts comments1 comments2 now1 now2 user1 user2 d :
  recentTasks now1 FETCH_COMMENTS SOCIAL_MEDIA_API_TASK_FETCH_COMMENTS_INTERVAL d = [] ->
  now1 <= now2 <= now1 + SOCIAL_MEDIA_API_TASK_FETCH_COMMENTS_INTERVAL ->
  let out1 := fetchAndSyncMentions posts comments1 now1 user1 d in
  out1.1 = Resolved ()
  /\ isSyncingFetch now2 out1.2 = false
  /\ fetchAndSyncMentions posts comments2 now2 user2 out1.2 = (Resolved (), out1.2).
Proof.
  intros Hnone Hnow. cbn zeta.
  destruct (first_fetch comments1 posts now1 now2 user1 d Hnone Hnow)
    as (d' & listed & -> & Hrecent & Hfinished & Hlisted).
  cbn [fst snd]. split; [done|]. split.
  - unfold isSyncingFetch. rewrite Hrecent.
    apply not_true_is_false. intros Hex. apply existsb_exists in Hex as (k & Hk & Hnull).
    apply bool_decide_eq_true in Hnull. rewrite Forall_forall in Hfinished.
    apply (Hfinished k); [by apply list_elem_of_In|done].
  - apply nothing_to_fetch. apply filterPosts_all_listed.
    unfold _findFreshlyFetchedPostIds. by rewrite Hrecent.
Qed.


(** *** The history *)

Lemma findAllPosts_fold platforms (httpRequest : string -> Outcome (option (list Post.t)))
    acc post :
  post ∈ foldl (fun posts platform =>
                  match httpRequest platform with
                  | Resolved history => posts ++ default [] history
                  | Rejected _ => posts
                  end) acc platforms
  <-> post ∈ acc
      \/ exists platform history,
           platform ∈ platforms /\ httpRequest platform = Resolved (Some history)
           /\ post ∈ history.
Proof.
  revert acc. induction platforms as [|platform platforms IH]; intros acc; simpl.
  - split; [by left|]. intros [H|(? & ? & H & _)]; [done|by apply elem_of_nil in H].
  - rewrite IH. split.
    + intros [Hacc|(pf & history & Hin & Hreq & Hpost)].
      * destruct (httpRequest platform) as [[history|]|e] eqn:Hreq; simpl in Hacc.
        -- apply elem_of_app in Hacc as [Hacc|Hacc]; [by left|].
           right. exists platform, history. split; [apply list_elem_of_here|done].
        -- rewrite app_nil_r in Hacc. by left.
        -- by left.
      * right. exists pf, history. split; [by apply list_elem_of_further|done].
    + intros [Hacc|(pf & history & Hin & Hreq & Hpost)].
      * left. destruct (httpRequest platform) as [history|e]; [|done].
        apply elem_of_app. by left.
      * apply elem_of_cons in Hin as [->|Hin].
        -- left. rewrite Hreq. simpl. apply elem_of_app. by right.
        -- right. by exists pf, history.
Qed.

(** X25.  The history survives the outage of a platform.  [findAllPosts]
    does not throw; it returns the posts of the platforms whose request
    succeeded, and only those.  When the request of every platform fails
    it returns no post, and [fetchAndSyncMentions] then creates no task and
    leaves the store as it is. *)
Theorem X25_history_survives_outages platforms
    (httpRequest : string -> Outcome (option (list Post.t))) :
  (forall post,
     post ∈ findAllPosts platforms httpRequest
     <-> exists platform history,
           platform ∈ platforms /\ httpRequest platform = Resolved (Some history)
           /\ post ∈ history)
  /\ ((forall platform, platform ∈ platforms -> isRejected (httpRequest platform) = true) ->
      findAllPosts platforms httpRequest = []
      /\ forall findAllComments now reqUser d,
           fetchAndSyncMentions (findAllPosts platforms httpRequest) findAllComments
             now reqUser d
           = (Resolved (), d)).
Proof.
  assert (Hspec : forall post,
            post ∈ findAllPosts platforms httpRequest
            <-> exists platform history,
                  platform ∈ platforms /\ httpRequest platform = Resolved (Some history)
                  /\ post ∈ history).
  { intros post. unfold findAllPosts. rewrite findAllPosts_fold. split.
    - intros [H|H]; [by apply elem_of_nil in H|done].
    - by right. }
  split; [done|]. intros Hout.
  assert (Hnil : findAllPosts platforms httpRequest = []).
  { assert (Hempty : forall post, post ∉ findAllPosts platforms httpRequest).
    { intros post Hin. apply Hspec in Hin as (platform & history & Hin & Hreq & _).
      specialize (Hout platform Hin). by rewrite Hreq in Hout. }
    destruct (findAllPosts platforms httpRequest) as [|post posts]; [done|].
    exfalso. apply (Hempty post). apply list_elem_of_here. }
  split; [done|]. intros findAllComments now reqUser d. rewrite Hnil.
  by apply nothing_to_fetch.
Qed.

(** *** The sweep of [init] *)

Lemma fetch_keeps_tasks_without_mention posts findAllComments now reqUser d :
  (forall k, k ∈ DB.tasks d -> Task.code k = FETCH_COMMENTS ->
     Task.mentionId (Task.data k) = None) ->
  forall k,
    k ∈ DB.tasks (fetchAndSyncMentions posts findAllComments now reqUser d).2 ->
    Task.code k = FETCH_COMMENTS -> Task.mentionId (Task.data k) = None.
Proof.
  intros Hd k. unfold fetchAndSyncMentions.
  destruct (filterPosts _ [] posts) as [|p selected] eqn:Hselected; [apply Hd|].
  unfold DB.createTask, DB.violatesMentionIdIdx, DB.violatesContentIdx.
  set (task := Task.mk _ _ _ _ _ _ _).
  replace (DB.isReplyMention task) with false by done. cbn [andb].
  unfold processFetchTask.
  destruct (fetchPosts_tasks findAllComments now (Task.id task) (postsOf task)
              (DB.appendTask task d)) as (batches & d1 & -> & Htasks & _).
  cbn [snd]. unfold DB.updateTask. cbn [DB.tasks]. rewrite Htasks. cbn [DB.appendTask DB.tasks].
  intros Hin Hcode. apply list_elem_of_fmap in Hin as (k0 & -> & Hin).
  destruct (bool_decide (Task.id k0 = Task.id task)); [done|].
  apply elem_of_app in Hin as [Hin|Hin]; [by apply Hd|].
  by apply list_elem_of_singleton in Hin as ->.
Qed.

(** X26.  The sweep that [init] runs over the tasks left in flight selects
    only tasks whose data names a mention of the type of the adapter.  A
    fetch task names no mention, so no fetch task is selected, whatever its
    age and whether it is finished or not: a fetch that was interrupted is
    not taken up again by the sweep.  Every task that [fetchAndSyncMentions]
    creates is of that kind. *)
Theorem X26_sweep_skips_fetch_tasks now type interval mentionType d :
  (forall k, k ∈ pendingTasks now type interval mentionType d ->
     k ∈ DB.tasks d /\ Task.code k = type /\ Task.finishedAt k = None
     /\ exists m, m ∈ DB.mentions d
                  /\ Task.mentionId (Task.data k) = Some (Mention.id m)
                  /\ Mention.type m = inr mentionType)
  /\ ((forall k, k ∈ DB.tasks d -> Task.code k = type ->
         Task.mentionId (Task.data k) = None) ->
      pendingTasks now type interval mentionType d = [])
  /\ (type = FETCH_COMMENTS ->
      (forall k, k ∈ DB.tasks d -> Task.code k = type ->
         Task.mentionId (Task.data k) = None) ->
      forall posts findAllComments at_ reqUser,
        pendingTasks now type interval mentionType
          (fetchAndSyncMentions posts findAllComments at_ reqUser d).2 = []).
Proof.
  assert (Hsel : forall d' k, k ∈ pendingTasks now type interval mentionType d' ->
            k ∈ DB.tasks d' /\ Task.code k = type /\ Task.finishedAt k = None
            /\ exists m, m ∈ DB.mentions d'
                         /\ Task.mentionId (Task.data k) = Some (Mention.id m)
                         /\ Mention.type m = inr mentionType).
  { intros d' k Hk. unfold pendingTasks in Hk. apply elem_of_filter in Hk as [Hin Hk].
    rewrite !andb_true_iff in Hk. destruct Hk as [[[[Hcode _] _] Hfin] Hm].
    apply bool_decide_eq_true in Hcode, Hfin.
    apply existsb_exists in Hm as (m & Hmin & Hm). apply andb_true_iff in Hm as [H1 H2].
    apply bool_decide_eq_true in H1, H2.
    split; [done|]. split; [done|]. split; [done|].
    exists m. by rewrite <- list_elem_of_In in Hmin. }
  assert (Hnone : forall d',
            (forall k, k ∈ DB.tasks d' -> Task.code k = type ->
               Task.mentionId (Task.data k) = None) ->
            pendingTasks now type interval mentionType d' = []).
  { intros d' Hd'. destruct (pendingTasks now type interval mentionType d') as [|k l] eqn:Hp;
      [done|].
    assert (k ∈ pendingTasks now type interval mentionType d') as Hk
      by (rewrite Hp; apply list_elem_of_here).
    apply Hsel in Hk as (Hin & Hcode & _ & m & _ & Hm & _).
    rewrite (Hd' k Hin Hcode) in Hm. done. }
  split; [apply Hsel|]. split; [apply Hnone|].
  intros -> Hd posts findAllComments at_ reqUser. apply Hnone.
  by apply fetch_keeps_tasks_without_mention.
Qed.

(** X24 on the sample posts: a fetch at 0 into the empty store and a fetch
    one minute later. *)
Lemma X24_second_fetch_is_idle_witness :
  let out1 := fetchAndSyncMentions samplePosts (fun _ => sampleComments) 0 sampleUser
                DB.empty in
  out1.1 = Resolved ()
  /\ isSyncingFetch 60000 out1.2 = false
  /\ fetchAndSyncMentions samplePosts (fun _ => []) 60000 sampleUser out1.2
     = (Resolved (), out1.2).
Proof.
  apply (X24_second_fetch_is_idle samplePosts (fun _ => sampleComments) (fun _ => [])
           0 60000 sampleUser sampleUser DB.empty).
  - reflexivity.
  - unfold SOCIAL_MEDIA_API_TASK_FETCH_COMMENTS_INTERVAL. lia.
Defined.

(** X25 on two platforms, the first of which is down. *)
Lemma X25_history_survives_outages_witness :
  let httpRequest := fun platform : string =>
                       if bool_decide (platform = "bluesky")
                       then Resolved (Some samplePosts)
                       else Rejected (CircuitOpenError 5 60) in
  findAllPosts ["twitter"; "bluesky"] httpRequest = samplePosts
  /\ forall post,
       post ∈ findAllPosts ["twitter"; "bluesky"] httpRequest
       <-> exists platform history,
             platform ∈ ["twitter"; "bluesky"]
             /\ httpRequest platform = Resolved (Some history) /\ post ∈ history.
Proof.
  cbn zeta. split; [reflexivity|].
  apply (X25_history_survives_outages ["twitter"; "bluesky"]
           (fun platform : string =>
              if bool_decide (platform = "bluesky")
              then Resolved (Some samplePosts)
              else Rejected (CircuitOpenError 5 60))).
Defined.

(** X26 on the store that holds a fetch task in flight, one minute after it
    was started. *)
Lemma X26_sweep_skips_fetch_tasks_witness :
  Task.finishedAt <$> DB.tasks sampleInFlightFetch = [None]
  /\ fetchSweep 60000 sampleInFlightFetch = [].
Proof.
  split; [reflexivity|].
  destruct (X26_sweep_skips_fetch_tasks 60000 FETCH_COMMENTS
              SOCIAL_MEDIA_API_TASK_FETCH_COMMENTS_INTERVAL COMMENT sampleInFlightFetch)
    as (_ & H & _).
  apply H. intros k Hin _. apply list_elem_of_singleton in Hin as ->. reflexivity.
Defined.

End FetchFacts.

(** ** More about the reply endpoint *)

Module ReplyRequestFacts.
Import BaseMentionAdapter MentionDataService Samples.

Lemma digitsPrefix_append s c rest acc :
  allDigits s = true -> digitOf c = None ->
  digitsPrefix (String.append s (String c rest)) acc = digitsPrefix s acc.
Proof.
  intros Hs Hc. revert acc. induction s as [|d s IH]; intros acc.
  - change (digitsPrefix (String c rest) acc = acc). simpl. by rewrite Hc.
  - change (digitsPrefix (String d (String.append s (String c rest))) acc
            = digitsPrefix (String d s) acc).
    simpl in Hs. apply andb_true_iff in Hs as [Hd Hs].
    apply bool_decide_eq_true in Hd as [n Hn].
    cbn [digitsPrefix]. rewrite Hn. by apply IH.
Qed.

Lemma append_empty s : String.append s EmptyString = s.
Proof.
  induction s as [|d s IH]; [done|].
  change (String d (String.append s EmptyString) = String d s). by rewrite IH.
Qed.

Lemma digit_codes c n : digitOf c = Some n -> 48 <= Z.of_N (Ascii.N_of_ascii c) <= 57.
Proof.
  unfold digitOf. intros H.
  destruct (Z.leb_spec 48 (Z.of_N (Ascii.N_of_ascii c))); [|done].
  destruct (Z.leb_spec (Z.of_N (Ascii.N_of_ascii c)) 57); [|done]. lia.
Qed.

Lemma parseIntString_digits s t :
  allDigits s = true -> s <> EmptyString ->
  parseIntString (String.append s t) = digitsPrefix (String.append s t) None.
Proof.
  intros Hs Hne. destruct s as [|d s]; [done|]. simpl in Hs.
  apply andb_true_iff in Hs as [Hd _]. apply bool_decide_eq_true in Hd as [n Hn].
  pose proof (digit_codes d n Hn) as Hcode.
  change (String.append (String d s) t) with (String d (String.append s t)).
  unfold parseIntString. cbn [trimStart].
  assert (Hws : isWhiteSpace d = false).
  { unfold isWhiteSpace. apply bool_decide_eq_false. intros Hin.
    repeat (apply elem_of_cons in Hin as [Hin|Hin]; [rewrite Hin in Hcode; simpl in Hcode; lia|]).
    by apply elem_of_nil in Hin. }
  rewrite Hws.
  rewrite bool_decide_eq_false_2 by (intros Heq; rewrite Heq in Hcode; simpl in Hcode; lia).
  rewrite bool_decide_eq_false_2 by (intros Heq; rewrite Heq in Hcode; simpl in Hcode; lia).
  done.
Qed.

Section service.
Variable gateway :
  Mention.t -> option string -> ReqUser.t -> DB.t -> Outcome ReplyResponse.t * DB.t.

(** X28.  The id of the route is read as [parseInt] reads it: the digits
    at its head count and what follows them is ignored.  A reply to the id
    ['12abc'] is in every respect the reply to the id ['12']: the same
    validation, the same mention, the same tasks and calls. *)
Theorem X28_id_is_read_by_its_digits now digits c rest content reqUser w :
  allDigits digits = true ->
  digits <> EmptyString ->
  digitOf c = None ->
  parseInt (JsString (String.append digits (String c rest))) = parseInt (JsString digits)
  /\ reply gateway now
       (mkReplyParams (JsString (String.append digits (String c rest))) content reqUser) w
     = reply gateway now (mkReplyParams (JsString digits) content reqUser) w.
Proof.
  intros Hd Hne Hc.
  assert (Hparse : parseInt (JsString (String.append digits (String c rest)))
                   = parseInt (JsString digits)).
  { unfold parseInt. rewrite parseIntString_digits by done.
    rewrite digitsPrefix_append by done.
    rewrite <- (append_empty digits) at 2.
    rewrite parseIntString_digits by done. by rewrite append_empty. }
  split; [done|].
  assert (Htruthy : truthy (JsString (String.append digits (String c rest)))
                    = truthy (JsString digits)).
  { destruct digits as [|d s]; [done|].
    change (String.append (String d s) (String c rest))
      with (String d (String.append s (String c rest))).
    done. }
  unfold reply, validate. cbn [mentionId MentionDataService.content MentionDataService.reqUser].
  by rewrite Hparse, Htruthy.
Qed.

End service.

(** X28 on the id ['1abc'] of the sample store. *)
Lemma X28_id_is_read_by_its_digits_witness :
  parseInt (JsString "1abc") = JsNumber 1
  /\ reply (answering statusBody) 1000000
       (mkReplyParams (JsString "1abc") (JsString "hi") (Some sampleActor)) sampleWorld
     = reply (answering statusBody) 1000000
         (mkReplyParams (JsString "1") (JsString "hi") (Some sampleActor)) sampleWorld.
Proof.
  split; [reflexivity|].
  apply (X28_id_is_read_by_its_digits (answering statusBody) 1000000 "1" (Ascii.ascii_of_nat 97) "bc"
           (JsString "hi") (Some sampleActor) sampleWorld);
    [reflexivity|discriminate|reflexivity].
Defined.

End ReplyRequestFacts.

(** ** Users and tokens *)

Module UserFacts.
Import UserDataService Scenarios.

Lemma findOne_Some email s user :
  findOne email s = Some user -> user ∈ rows s /\ UserDataService.email user = email.
Proof.
  unfold findOne. intros H. apply find_some in H as [Hin Hemail].
  apply bool_decide_eq_true in Hemail. by rewrite <- list_elem_of_In in Hin.
Qed.

Lemma findOne_None email s :
  findOne email s = None -> email ∉ UserDataService.email <$> rows s.
Proof.
  unfold findOne. intros H Hin. apply list_elem_of_fmap in Hin as (u & -> & Hin).
  apply list_elem_of_In in Hin.
  pose proof (find_none _ _ H u Hin) as Hno. simpl in Hno.
  by rewrite bool_decide_eq_true_2 in Hno.
Qed.

Lemma findOne_new email s user :
  findOne email s = None -> UserDataService.email user = email ->
  findOne email (mkUsers (rows s ++ [user]) (users_id_seq s + 1)) = Some user.
Proof.
  unfold findOne. simpl. intros Hnone Hemail.
  induction (rows s) as [|u l IH]; simpl in *.
  - by rewrite bool_decide_eq_true_2.
  - destruct (bool_decide (UserDataService.email u = email)); [done|]. by apply IH.
Qed.

Section facts.
Variable JWT_SECRET : option string.
Variable JWT_EXPIRES_IN : option string.
Variable isEmail : string -> bool.
Variable sign : Z -> string -> Z -> Outcome string.
Variable verify : Z -> string -> option User.

(** X29.  [authenticate] finds or creates: on a consistent users table it
    adds at most one row, for the email it was given and with a new id, and
    keeps the table consistent; when it resolves, the user it returns is the
    row the table holds for the email, and every later call for the same
    email resolves or fails by the token alone, finds that row and adds
    nothing. *)
Theorem X29_authenticate_finds_or_creates now email s :
  consistent s ->
  let out := authenticate JWT_SECRET JWT_EXPIRES_IN isEmail sign now email s in
  consistent out.2
  /\ (rows out.2 = rows s
      \/ exists user, rows out.2 = rows s ++ [user]
                      /\ UserDataService.email user = email /\ id user = users_id_seq s
                      /\ email ∉ UserDataService.email <$> rows s)
  /\ (forall token user,
        out.1 = Resolved (token, user) ->
        findOne email out.2 = Some user
        /\ forall later,
             (authenticate JWT_SECRET JWT_EXPIRES_IN isEmail sign later email out.2).2
             = out.2
             /\ match (authenticate JWT_SECRET JWT_EXPIRES_IN isEmail sign later email
                         out.2).1 with
                | Resolved (_, user') => user' = user
                | Rejected e => sign later email (id user) = Rejected e
                end).
Proof.
  intros [Hnd Hseq]. cbn zeta. unfold authenticate.
  case_bool_decide as Hempty; [by split; [|split; [left|]]|].
  destruct (negb (configured JWT_SECRET) || negb (configured JWT_EXPIRES_IN)) eqn:Hconf;
    [by split; [|split; [left|]]|].
  assert (Hagain : forall s' user,
            findOne email s' = Some user ->
            forall later,
              (match (match sign later (UserDataService.email user) (id user) with
                      | Rejected e => (Rejected e, s')
                      | Resolved token =>
                          (Resolved (token, mkUser (id user) (UserDataService.email user)), s')
                      end) with
               | (r, s'') =>
                   s'' = s'
                   /\ match r with
                      | Resolved (_, user') => user' = user
                      | Rejected e => sign later email (id user) = Rejected e
                      end
               end)).
  { intros s' user Hfound later. apply findOne_Some in Hfound as [_ Hemail].
    rewrite Hemail. destruct (sign later email (id user)) as [token|e]; [|done].
    split; [done|]. destruct user. simpl in *. by subst. }
  destruct (findOne email s) as [found|] eqn:Hfind.
  - destruct (sign now (UserDataService.email found) (id found)) as [token|e] eqn:Hsign.
    + split; [done|]. split; [by left|]. cbn [fst snd].
      intros token' user [= <- <-].
      pose proof (findOne_Some _ _ _ Hfind) as [_ Hemail].
      assert (Huser : mkUser (id found) (UserDataService.email found) = found)
        by by destruct found.
      rewrite Huser. split; [done|]. intros later. rewrite Hfind.
      specialize (Hagain s found Hfind later).
      destruct (sign later (UserDataService.email found) (id found)); by destruct Hagain.
    + split; [done|]. split; [by left|]. done.
  - unfold create. destruct (isEmail email); simpl; [|by split; [|split; [left|]]].
    pose proof (findOne_None _ _ Hfind) as Hnew.
    rewrite bool_decide_eq_false_2 by done.
    set (user := mkUser (users_id_seq s) email).
    set (s' := mkUsers (rows s ++ [user]) (users_id_seq s + 1)).
    assert (Hc' : consistent s').
    { split; simpl.
      - rewrite fmap_app. apply NoDup_app. split; [done|]. split; [|apply NoDup_singleton].
        intros e He He'. apply list_elem_of_singleton in He'. by subst e.
      - apply Forall_app. split.
        + eapply Forall_impl; [exact Hseq|]. simpl. intros u Hu. lia.
        + repeat constructor. simpl. lia. }
    assert (Hrows : exists u, rows s' = rows s ++ [u]
                              /\ UserDataService.email u = email /\ id u = users_id_seq s
                              /\ email ∉ UserDataService.email <$> rows s)
      by by exists user.
    assert (Hfind' : findOne email s' = Some user) by by apply findOne_new.
    destruct (sign now (UserDataService.email user) (id user)) as [token|e] eqn:Hsign.
    + split; [done|]. split; [by right|]. cbn [fst snd].
      intros token' user' [= <- <-]. split; [done|]. intros later. rewrite Hfind'.
      specialize (Hagain s' user Hfind' later).
      destruct (sign later (UserDataService.email user) (id user)); by destruct Hagain.
    + split; [done|]. split; [by right|]. done.
Qed.

Lemma substring_all s : String.substring 0 (String.length s) s = s.
Proof. induction s as [|c s IH]; [done|]. simpl. by rewrite IH. Qed.

Lemma bearerToken_strips token : bearerToken (String.append "Bearer " token) = token.
Proof.
  unfold bearerToken.
  change (String.append "Bearer " token)
    with (String (Ascii.ascii_of_nat 66) (String (Ascii.ascii_of_nat 101)
           (String (Ascii.ascii_of_nat 97) (String (Ascii.ascii_of_nat 114)
             (String (Ascii.ascii_of_nat 101) (String (Ascii.ascii_of_nat 114)
               (String (Ascii.ascii_of_nat 32) token))))))).
  cbn [String.prefix String.length String.substring Nat.sub].
  simpl. replace (String.prefix "" token) with true by (by destruct token).
  rewrite Nat.sub_0_r. apply substring_all.
Qed.

(** X30.  A token that [login] hands out opens the door.  When [jwt.verify]
    gives back the payload of the tokens that [jwt.sign] made, a login that
    answers 200 gives a token with which the middleware, for the header
    ['Bearer ' + token], calls [next] with the id and the email of the user
    that the login answered. *)
Theorem X30_login_token_authenticates now later email s token user s' :
  (forall e i t, sign now e i = Resolved t -> verify later t = Some (mkUser i e)) ->
  login JWT_SECRET JWT_EXPIRES_IN isEmail sign now email s = ((200, inr (token, user)), s') ->
  authMiddleware JWT_SECRET verify later (Some (String.append "Bearer " token)) = inr user.
Proof.
  intros Hjwt Hlogin.
  unfold login in Hlogin. case_bool_decide as Hempty; [done|].
  unfold authenticate in Hlogin. rewrite bool_decide_eq_false_2 in Hlogin by done.
  destruct (negb (configured JWT_SECRET) || negb (configured JWT_EXPIRES_IN)) eqn:Hconf;
    [done|].
  apply orb_false_iff in Hconf as [Hsecret _].
  assert (Hsigned : exists u, sign now (UserDataService.email u) (id u) = Resolved token
                              /\ user = mkUser (id u) (UserDataService.email u)).
  { destruct (match findOne email s with
              | Some user0 => (Resolved user0, s)
              | None => create isEmail email s
              end) as [[u|e] s1]; [|done].
    destruct (sign now (UserDataService.email u) (id u)) as [t|e] eqn:Hsign; [|done].
    injection Hlogin as <- <- <-. by exists u. }
  destruct Hsigned as (u & Hsign & ->).
  unfold authMiddleware.
  rewrite bool_decide_eq_false_2 by done.
  rewrite bearerToken_strips. unfold verifyToken. rewrite Hsecret.
  by rewrite (Hjwt _ _ _ Hsign).
Qed.

End facts.

(** X29 on an empty table: the first login creates the user 1. *)
Lemma X29_authenticate_finds_or_creates_witness :
  consistent noUsers
  /\ let out := authenticate (Some "secret") (Some "1h") sampleAccepts sampleSign 0
                  "test@example.com" noUsers in
     consistent out.2
     /\ (rows out.2 = rows noUsers
         \/ exists user, rows out.2 = rows noUsers ++ [user]
                         /\ UserDataService.email user = "test@example.com"
                         /\ id user = users_id_seq noUsers
                         /\ "test@example.com" ∉ UserDataService.email <$> rows noUsers)
     /\ (forall token user,
           out.1 = Resolved (token, user) ->
           findOne "test@example.com" out.2 = Some user
           /\ forall later,
                (authenticate (Some "secret") (Some "1h") sampleAccepts sampleSign later
                   "test@example.com" out.2).2 = out.2
                /\ match (authenticate (Some "secret") (Some "1h") sampleAccepts sampleSign
                            later "test@example.com" out.2).1 with
                   | Resolved (_, user') => user' = user
                   | Rejected e => sampleSign later "test@example.com" (id user) = Rejected e
                   end).
Proof.
  assert (H : consistent noUsers) by (split; [apply NoDup_nil_2|apply Forall_nil_2]).
  split; [exact H|].
  exact (X29_authenticate_finds_or_creates (Some "secret") (Some "1h") sampleAccepts
           sampleSign 0 "test@example.com" noUsers H).
Defined.

(** X30 on the first login of the sample user. *)
Lemma X30_login_token_authenticates_witness :
  authMiddleware (Some "secret") sampleVerify 5
    (Some (String.append "Bearer " "test@example.com"))
  = inr (mkUser 1 "test@example.com").
Proof.
  apply (X30_login_token_authenticates (Some "secret") (Some "1h") sampleAccepts sampleSign
           sampleVerify 0 5 "test@example.com" noUsers "test@example.com"
           (mkUser 1 "test@example.com")
           (mkUsers [mkUser 1 "test@example.com"] 2)).
  - intros e i t. unfold sampleSign, sampleVerify.
    destruct (Z.eqb_spec i 1) as [->|]; [|discriminate]. by intros [= ->].
  - reflexivity.
Defined.

End UserFacts.

